(** * Flight control core: inner rate/attitude PID and multirotor navigation

    A shallow embedding of [src/main/flight/pid.c] (the inner loop) and of
    [src/main/flight/navigation_rewrite_multicopter.c] (the outer loop).

    Conventions of the embedding.
    - C integer types are [Z] with the wrap-around of each store written out
      ([to_int16], [to_uint32], ...).  Integer division is C's, truncating
      ([Z.quot]).
    - C [float] is the field of rationals [Q]: arithmetic is exact, there is
      no rounding, no infinity and no NaN.  A conversion of a [float] to an
      integer truncates toward zero.  The divisions of the gain refresh, whose
      divisors come from the configuration and the throttle, are written with
      [fdiv], which fails on a zero divisor; the loop period [dT], fixed by
      the gyro synchronisation, and the constants are divided by directly.
    - Globals and statics are fields of explicit state records which every
      function receives and returns. *)

From Stdlib Require Import ZArith QArith Qabs Qround Lia Lqa Bool List.
Import ListNotations.

Local Open Scope Z_scope.

(** ** Machine integers *)

Definition wrap_signed (bits : Z) (z : Z) : Z :=
  (z + 2 ^ (bits - 1)) mod 2 ^ bits - 2 ^ (bits - 1).

Definition to_int16 (z : Z) : Z := wrap_signed 16 z.
Definition to_int32 (z : Z) : Z := wrap_signed 32 z.
Definition to_uint16 (z : Z) : Z := z mod 2 ^ 16.
Definition to_uint32 (z : Z) : Z := z mod 2 ^ 32.

Definition is_int16 (z : Z) : Prop := -32768 <= z <= 32767.
Definition is_uint8 (z : Z) : Prop := 0 <= z <= 255.
Definition is_uint16 (z : Z) : Prop := 0 <= z <= 65535.

(** [#define ABS(x) ((x) > 0 ? (x) : -(x))] at an integer operand. *)
Definition ABS (x : Z) : Z := if 0 <? x then x else - x.

(** [#define MAX(a, b) ((a) > (b) ? (a) : (b))] *)
Definition MAX (a b : Z) : Z := if b <? a then a else b.

(** Modelled from the spec: [constrain] of [common/maths.h], which is not
    part of the sources at hand; the spec calls it a saturating clamp.  The
    lower bound is tested first. *)
Definition constrain (amt low high : Z) : Z :=
  if amt <? low then low else if high <? amt then high else amt.

(** ** Floats as rationals *)

Definition float : Type := Q.
Bind Scope Q_scope with float.

Definition Qlt_bool (x y : Q) : bool := negb (Qle_bool y x).

(** C's conversion of a floating value to an integer type discards the
    fraction. *)
Definition Qtrunc (q : Q) : Z := Z.quot (Qnum q) (Z.pos (Qden q)).

(** Conversion to [int16_t].  C leaves the conversion undefined when the
    truncated value is not representable; the model wraps there and every
    statement that depends on it says so. *)
Definition float_to_int16 (q : float) : Z := to_int16 (Qtrunc q).
Definition float_to_int32 (q : float) : Z := to_int32 (Qtrunc q).

(** [ABS] at a [float] operand. *)
Definition ABSf (x : float) : float := if Qlt_bool 0 x then x else (- x)%Q.

(** Modelled from the spec: [constrainf] of [common/maths.h], the
    saturating clamp on floats. *)
Definition constrainf (amt low high : float) : float :=
  if Qlt_bool amt low then low else if Qlt_bool high amt then high else amt.

(** A float division that is only meaningful for a nonzero divisor. *)
Definition fdiv (a b : float) : option float :=
  if Qeq_bool b 0 then None else Some (a / b)%Q.

Definition obind {A B : Type} (o : option A) (k : A -> option B) : option B :=
  match o with
  | Some a => k a
  | None => None
  end.

Notation "x <- o ;; k" := (obind o (fun x => k))
  (at level 61, o at next level, right associativity).

(** ** Basic facts about the helpers *)

Lemma to_int16_id (z : Z) : -32768 <= z <= 32767 -> to_int16 z = z.
Proof.
  intros H. unfold to_int16, wrap_signed.
  change (2 ^ (16 - 1)) with 32768. change (2 ^ 16) with 65536.
  rewrite Z.mod_small; lia.
Qed.

Lemma constrain_bounds (amt low high : Z) :
  low <= high -> low <= constrain amt low high <= high.
Proof.
  intros H. unfold constrain.
  destruct (amt <? low) eqn:E1; [lia|].
  destruct (high <? amt) eqn:E2; [lia|].
  apply Z.ltb_ge in E1. apply Z.ltb_ge in E2. lia.
Qed.

Lemma Qlt_bool_true (x y : Q) : Qlt_bool x y = true -> (x < y)%Q.
Proof.
  unfold Qlt_bool. intros H. apply negb_true_iff in H.
  apply Qnot_le_lt. intros C. apply Qle_bool_iff in C. congruence.
Qed.

Lemma Qlt_bool_false (x y : Q) : Qlt_bool x y = false -> (y <= x)%Q.
Proof.
  unfold Qlt_bool. intros H. apply negb_false_iff in H.
  apply Qle_bool_iff. exact H.
Qed.

Lemma constrainf_bounds (amt low high : float) :
  (low <= high)%Q -> (low <= constrainf amt low high <= high)%Q.
Proof.
  intros H. unfold constrainf.
  destruct (Qlt_bool amt low) eqn:E1.
  - split; [apply Qle_refl | exact H].
  - destruct (Qlt_bool high amt) eqn:E2.
    + split; [exact H | apply Qle_refl].
    + apply Qlt_bool_false in E1. apply Qlt_bool_false in E2. split; assumption.
Qed.

Lemma ABSf_nonneg (x : float) : (0 <= ABSf x)%Q.
Proof.
  unfold ABSf. destruct (Qlt_bool 0 x) eqn:E.
  - apply Qlt_le_weak. apply Qlt_bool_true. exact E.
  - apply Qlt_bool_false in E. lra.
Qed.

Lemma Qtrunc_bounds (q : Q) (lo hi : Z) :
  (inject_Z lo <= q)%Q -> (q <= inject_Z hi)%Q -> lo <= Qtrunc q <= hi.
Proof.
  destruct q as [n d]. unfold Qle, Qtrunc. simpl. intros Hlo Hhi.
  rewrite Z.mul_1_r in Hhi.
  assert (Hd : 0 < Z.pos d) by lia.
  split.
  - rewrite <- (Z.quot_mul lo (Z.pos d)) by lia.
    apply Z.quot_le_mono; lia.
  - rewrite <- (Z.quot_mul hi (Z.pos d)) by lia.
    apply Z.quot_le_mono; lia.
Qed.

(** * The inner attitude/rate controller ([flight/pid.c], [flight/pid.h]) *)

Module Pid.

(** ** Constants and configuration ([pid.h]) *)

Definition GYRO_SATURATION_LIMIT : Z := 1800.
Definition PID_MAX_OUTPUT : Z := 1000.
Definition MAG_HOLD_ERROR_LPF_FREQ : Z := 2.
Definition DTERM_BUF_COUNT : Z := 5.

Definition FP_PID_RATE_P_MULTIPLIER : float := 40%Q.
Definition FP_PID_RATE_I_MULTIPLIER : float := 10%Q.
Definition FP_PID_RATE_D_MULTIPLIER : float := 4000%Q.
Definition FP_PID_LEVEL_P_MULTIPLIER : float := 40%Q.
Definition FP_PID_YAWHOLD_P_MULTIPLIER : float := 80%Q.
Definition KD_ATTENUATION_BREAK : float := (25 # 100)%Q.

Inductive flight_dynamics_index_t : Type := FD_ROLL | FD_PITCH | FD_YAW.

Inductive pidIndex_e : Type :=
  | PIDROLL | PIDPITCH | PIDYAW | PIDALT | PIDPOS
  | PIDPOSR | PIDNAVR | PIDLEVEL | PIDMAG | PIDVEL.

(** [P8[axis]] with [axis] a flight axis indexes the first three entries. *)
Definition pidIndex_of_axis (axis : flight_dynamics_index_t) : pidIndex_e :=
  match axis with
  | FD_ROLL => PIDROLL
  | FD_PITCH => PIDPITCH
  | FD_YAW => PIDYAW
  end.

Definition axis_eqb (a b : flight_dynamics_index_t) : bool :=
  match a, b with
  | FD_ROLL, FD_ROLL | FD_PITCH, FD_PITCH | FD_YAW, FD_YAW => true
  | _, _ => false
  end.

Record pidProfile_t : Type := {
  P8 : pidIndex_e -> Z;                     (* uint8_t *)
  I8 : pidIndex_e -> Z;                     (* uint8_t *)
  D8 : pidIndex_e -> Z;                     (* uint8_t *)
  dterm_lpf_hz : Z;                         (* uint8_t *)
  yaw_p_limit : Z;                          (* uint16_t *)
  yaw_lpf_hz : Z;                           (* uint8_t *)
  max_angle_inclination : flight_dynamics_index_t -> Z;   (* int16_t *)
  mag_hold_rate_limit : Z                   (* uint8_t *)
}.

Record controlRateConfig_t : Type := {
  rates : flight_dynamics_index_t -> Z;     (* uint8_t *)
  dynThrPID : Z;                            (* uint8_t *)
  tpa_breakpoint : Z                        (* uint16_t *)
}.

Record rxConfig_t : Type := {
  mincheck : Z;                             (* uint16_t *)
  maxcheck : Z;                             (* uint16_t *)
  midrc : Z                                 (* uint16_t *)
}.

Inductive magHoldState_e : Type :=
  | MAG_HOLD_DISABLED | MAG_HOLD_UPDATE_HEADING | MAG_HOLD_ENABLED.

Inductive navHeadingControl_e : Type :=
  | NAV_HEADING_CONTROL_NONE | NAV_HEADING_CONTROL_AUTO | NAV_HEADING_CONTROL_MANUAL.

(** What the controller reads from the rest of the firmware on one tick:
    the [extern] variables of [pid.c] and the flag and sensor queries. *)
Record env_t : Type := {
  dT : float;
  motorCount : Z;
  motorLimitReached : bool;
  rcData_THROTTLE : Z;                                  (* int16_t *)
  rcCommand : flight_dynamics_index_t -> Z;             (* int16_t *)
  getRcStickDeflection : flight_dynamics_index_t -> Z -> Z;
  gyroADC : flight_dynamics_index_t -> Z;
  gyro_scale : float;
  attitude_raw : flight_dynamics_index_t -> Z;          (* int16_t; yaw is attitude.values.yaw *)
  sensors_MAG : bool;
  naivationGetHeadingControlState : navHeadingControl_e;
  ARMED : bool;
  ANGLE_MODE : bool;
  HORIZON_MODE : bool;
  HEADING_LOCK : bool;
  MAG_MODE : bool;
  SMALL_ANGLE : bool;
  PID_ATTENUATE : bool;
  ANTI_WINDUP : bool
}.

(** ** Stick conversions *)

Definition pidRcCommandToAngle (stick : Z) : float := (inject_Z stick * 2)%Q.

Definition pidAngleToRcCommand (angleDeciDegrees : float) : Z :=
  float_to_int16 (angleDeciDegrees / 2)%Q.

(** The two rate conversions divide: binary32 rounds each quotient that it
    cannot hold, the rationals do not, so what is said of their values holds
    of the program where the quotients are exactly representable. *)
Definition pidRateToRcCommand (rateDPS : float) (rate : Z) : float :=
  ((rateDPS * 50) / (inject_Z rate + 20))%Q.

Definition pidRcCommandToRate (stick : Z) (rate : Z) : float :=
  (inject_Z ((rate + 20) * stick) / 50)%Q.

(** Modelled from the spec: the macro [DECIDEGREES_TO_DEGREES] of
    [common/maths.h]; the spec reads a yaw of 10 deci-degrees as 1 degree.
    The operand is an integer, so the division is C's integer division. *)
Definition DECIDEGREES_TO_DEGREES (angle : Z) : Z := Z.quot angle 10.

(** ** Gain refresh ([updatePIDCoefficients]) *)

(** The three branches that assign the static [tpaFactor]. *)
Definition calc_tpaFactor (crc : controlRateConfig_t) (throttle : Z) : float :=
  if (dynThrPID crc =? 0) || (throttle <? tpa_breakpoint crc) then 1%Q
  else if throttle <? 2000 then
    (inject_Z (100 - Z.quot (to_uint16 (dynThrPID crc) * (throttle - tpa_breakpoint crc))
                            (2000 - tpa_breakpoint crc)) / 100)%Q
  else (inject_Z (100 - dynThrPID crc) / 100)%Q.

(** The local [relThrottle]. *)
Definition calc_relThrottle (rx : rxConfig_t) (throttle : Z) : option float :=
  r <- fdiv (inject_Z throttle - inject_Z (mincheck rx))%Q
            (inject_Z (maxcheck rx) - inject_Z (mincheck rx))%Q ;;
  Some (constrainf r 0 1)%Q.

(** The local [kdAttenuationFactor]. *)
Definition calc_kdAttenuationFactor (relThrottle : float) : float :=
  if Qlt_bool relThrottle KD_ATTENUATION_BREAK
  then (constrainf (relThrottle / KD_ATTENUATION_BREAK + (50 # 100)) 0 1)%Q
  else 1%Q.

(** [kP], [kI] and [kD] of one axis after the TPA scaling of the loop body. *)
Definition axis_kP (pp : pidProfile_t) (tpa : float) (axis : flight_dynamics_index_t) : float :=
  let kP := (inject_Z (P8 pp (pidIndex_of_axis axis)) / FP_PID_RATE_P_MULTIPLIER)%Q in
  if negb (axis_eqb axis FD_YAW) then (kP * tpa)%Q else kP.

Definition axis_kI (pp : pidProfile_t) (axis : flight_dynamics_index_t) : float :=
  (inject_Z (I8 pp (pidIndex_of_axis axis)) / FP_PID_RATE_I_MULTIPLIER)%Q.

Definition axis_kD (pp : pidProfile_t) (tpa kdAtt : float) (axis : flight_dynamics_index_t) : float :=
  let kD := (inject_Z (D8 pp (pidIndex_of_axis axis)) / FP_PID_RATE_D_MULTIPLIER)%Q in
  if negb (axis_eqb axis FD_YAW) then (kD * (tpa * kdAtt))%Q else kD.

(** The guard in front of the back-calculation gain. *)
Definition kT_guard (pp : pidProfile_t) (axis : flight_dynamics_index_t) : bool :=
  negb (P8 pp (pidIndex_of_axis axis) =? 0) && negb (I8 pp (pidIndex_of_axis axis) =? 0).

(** [kT = 2.0f / ((kP / kI) + (kD / kP))] behind the guard, [0] otherwise.
    The three divisions are [kP / kI], [kD / kP] and the outer one. *)
Definition calc_kT (pp : pidProfile_t) (axis : flight_dynamics_index_t)
    (kP kI kD : float) : option float :=
  if kT_guard pp axis then
    a <- fdiv kP kI ;;
    b <- fdiv kD kP ;;
    fdiv 2%Q (a + b)%Q
  else Some 0%Q.

(** ** Values that are not numbers

    A binary32 division by zero does not stop the program: it gives an
    infinity, or NaN for 0/0, and the value travels on through the
    arithmetic.  [xfloat] adds these values to the rationals, with the
    operations of IEEE 754 on them.  Rounding is left out as everywhere, and
    so is the sign of zero: the zero divisors met in [pid.c] are products and
    differences of non-negative values, which are [+0]. *)

Inductive xfloat : Type :=
  | Num (q : float)
  | PInf
  | NInf
  | NaN.

Definition xopp (a : xfloat) : xfloat :=
  match a with
  | Num x => Num (- x)%Q
  | PInf => NInf
  | NInf => PInf
  | NaN => NaN
  end.

Definition xadd (a b : xfloat) : xfloat :=
  match a, b with
  | NaN, _ | _, NaN => NaN
  | Num x, Num y => Num (x + y)%Q
  | PInf, NInf | NInf, PInf => NaN
  | PInf, _ | _, PInf => PInf
  | NInf, _ | _, NInf => NInf
  end.

(** An infinity times a number: NaN for zero, else the sign rule. *)
Definition xscale (inf : xfloat) (q : float) : xfloat :=
  if Qeq_bool q 0 then NaN else if Qlt_bool 0 q then inf else xopp inf.

Definition xmul (a b : xfloat) : xfloat :=
  match a, b with
  | NaN, _ | _, NaN => NaN
  | Num x, Num y => Num (x * y)%Q
  | Num x, inf => xscale inf x
  | inf, Num y => xscale inf y
  | PInf, PInf | NInf, NInf => PInf
  | PInf, NInf | NInf, PInf => NInf
  end.

(** A number over zero is an infinity of its sign, and 0/0 is NaN. *)
Definition xdiv (a b : xfloat) : xfloat :=
  match a, b with
  | NaN, _ | _, NaN => NaN
  | Num x, Num y =>
      if Qeq_bool y 0
      then (if Qeq_bool x 0 then NaN else if Qlt_bool 0 x then PInf else NInf)
      else Num (x / y)%Q
  | Num _, _ => Num 0%Q
  | inf, Num y => if Qle_bool 0 y then inf else xopp inf
  | _, _ => NaN
  end.

(** Every comparison with NaN is false. *)
Definition xlt (a b : xfloat) : bool :=
  match a, b with
  | NaN, _ | _, NaN => false
  | Num x, Num y => Qlt_bool x y
  | PInf, _ | _, NInf => false
  | NInf, _ | _, PInf => true
  end.

Definition xle (a b : xfloat) : bool :=
  match a, b with
  | NaN, _ | _, NaN => false
  | Num x, Num y => Qle_bool x y
  | NInf, _ | _, PInf => true
  | PInf, _ | _, NInf => false
  end.

(** [ABS] and [constrainf] as in the preamble, at values that may not be
    numbers: both comparisons of the clamp fail on NaN, which is returned. *)
Definition xABS (x : xfloat) : xfloat := if xlt (Num 0%Q) x then x else xopp x.

Definition xconstrainf (amt low high : xfloat) : xfloat :=
  if xlt amt low then low else if xlt high amt then high else amt.

(** [kT] as binary32 computes it: the assignment of [calc_kT] with the
    three divisions carried out whatever the divisors. *)
Definition calc_kT_ieee (pp : pidProfile_t) (axis : flight_dynamics_index_t)
    (kP kI kD : float) : xfloat :=
  if kT_guard pp axis
  then xdiv (Num 2%Q) (xadd (xdiv (Num kP) (Num kI)) (xdiv (Num kD) (Num kP)))
  else Num 0%Q.

(** The integrator lines of [pidApplyRateController] for an integrator, an
    envelope and a [kT] that may not be numbers:
    [errorGyroIf += (rateError * kI * dT) + ((newOutputLimited - newOutput) * kT * dT)],
    then the clamp to the envelope or the new envelope. *)
Definition integrate_ieee (errorGyroIf : xfloat)
    (rateError kI dT newOutput newOutputLimited : float) (kT : xfloat) : xfloat :=
  xadd errorGyroIf
    (xadd (Num (rateError * kI * dT)%Q)
          (xmul (xmul (Num (newOutputLimited - newOutput)%Q) kT) (Num dT))).

Definition envelope_ieee (frozen : bool) (errorGyroIf errorGyroIfLimit : xfloat)
    : xfloat * xfloat :=
  if frozen
  then (xconstrainf errorGyroIf (xopp errorGyroIfLimit) errorGyroIfLimit, errorGyroIfLimit)
  else (errorGyroIf, xABS errorGyroIf).

(** ** Controller state and the filters it uses *)

Section Controller.

(** [common/filter.c] is not part of the sources at hand: the PT1 low-pass
    filter and the FIR helpers are taken as they come.
    [filterApplyPt1 input state f_cut dT] returns the output and the new
    filter state. *)
Variable filterStatePt1_t : Type.
Variable filterApplyPt1 : float -> filterStatePt1_t -> float -> float -> float * filterStatePt1_t.
Variable filterUpdateFIR : Z -> list float -> float -> list float.
Variable filterApplyFIR : Z -> list float -> list float -> float -> float.

Record pidState_t : Type := {
  kP : float;
  kI : float;
  kD : float;
  kT : float;
  gyroRate : float;
  rateTarget : float;
  dTermBuf : list float;
  errorGyroIf : float;
  errorGyroIfLimit : float;
  axisLockAccum : float;
  angleFilterState : filterStatePt1_t;
  ptermLpfState : filterStatePt1_t;
  deltaLpfState : filterStatePt1_t
}.

Definition set_gains (s : pidState_t) (p i d t : float) : pidState_t :=
  {| kP := p; kI := i; kD := d; kT := t;
     gyroRate := gyroRate s; rateTarget := rateTarget s; dTermBuf := dTermBuf s;
     errorGyroIf := errorGyroIf s; errorGyroIfLimit := errorGyroIfLimit s;
     axisLockAccum := axisLockAccum s; angleFilterState := angleFilterState s;
     ptermLpfState := ptermLpfState s; deltaLpfState := deltaLpfState s |}.

Definition set_rates (s : pidState_t) (g r : float) : pidState_t :=
  {| kP := kP s; kI := kI s; kD := kD s; kT := kT s;
     gyroRate := g; rateTarget := r; dTermBuf := dTermBuf s;
     errorGyroIf := errorGyroIf s; errorGyroIfLimit := errorGyroIfLimit s;
     axisLockAccum := axisLockAccum s; angleFilterState := angleFilterState s;
     ptermLpfState := ptermLpfState s; deltaLpfState := deltaLpfState s |}.

Definition set_rateTarget (s : pidState_t) (r : float) : pidState_t :=
  set_rates s (gyroRate s) r.

Definition set_axisLockAccum (s : pidState_t) (a : float) : pidState_t :=
  {| kP := kP s; kI := kI s; kD := kD s; kT := kT s;
     gyroRate := gyroRate s; rateTarget := rateTarget s; dTermBuf := dTermBuf s;
     errorGyroIf := errorGyroIf s; errorGyroIfLimit := errorGyroIfLimit s;
     axisLockAccum := a; angleFilterState := angleFilterState s;
     ptermLpfState := ptermLpfState s; deltaLpfState := deltaLpfState s |}.

Definition set_angleFilterState (s : pidState_t) (f : filterStatePt1_t) : pidState_t :=
  {| kP := kP s; kI := kI s; kD := kD s; kT := kT s;
     gyroRate := gyroRate s; rateTarget := rateTarget s; dTermBuf := dTermBuf s;
     errorGyroIf := errorGyroIf s; errorGyroIfLimit := errorGyroIfLimit s;
     axisLockAccum := axisLockAccum s; angleFilterState := f;
     ptermLpfState := ptermLpfState s; deltaLpfState := deltaLpfState s |}.

Definition set_integrator (s : pidState_t) (i lim : float) : pidState_t :=
  {| kP := kP s; kI := kI s; kD := kD s; kT := kT s;
     gyroRate := gyroRate s; rateTarget := rateTarget s; dTermBuf := dTermBuf s;
     errorGyroIf := i; errorGyroIfLimit := lim;
     axisLockAccum := axisLockAccum s; angleFilterState := angleFilterState s;
     ptermLpfState := ptermLpfState s; deltaLpfState := deltaLpfState s |}.

Definition set_rate_filters (s : pidState_t) (buf : list float)
    (pf df : filterStatePt1_t) : pidState_t :=
  {| kP := kP s; kI := kI s; kD := kD s; kT := kT s;
     gyroRate := gyroRate s; rateTarget := rateTarget s; dTermBuf := buf;
     errorGyroIf := errorGyroIf s; errorGyroIfLimit := errorGyroIfLimit s;
     axisLockAccum := axisLockAccum s; angleFilterState := angleFilterState s;
     ptermLpfState := pf; deltaLpfState := df |}.

(** The file-scope variables of [pid.c]: [tpaFactor], [pidState[3]],
    [magHoldTargetHeading], [axisPID[3]], and the filter that is static in
    [pidMagHold]. *)
Record globals_t : Type := {
  tpaFactor : float;
  pidState : flight_dynamics_index_t -> pidState_t;
  magHoldTargetHeading : Z;                             (* int16_t *)
  axisPID : flight_dynamics_index_t -> Z;               (* int16_t *)
  magHoldRateFilter : filterStatePt1_t
}.

Definition upd {A : Type} (f : flight_dynamics_index_t -> A)
    (axis : flight_dynamics_index_t) (v : A) : flight_dynamics_index_t -> A :=
  fun a => if axis_eqb a axis then v else f a.

Definition set_tpaFactor (g : globals_t) (t : float) : globals_t :=
  {| tpaFactor := t; pidState := pidState g;
     magHoldTargetHeading := magHoldTargetHeading g; axisPID := axisPID g;
     magHoldRateFilter := magHoldRateFilter g |}.

Definition set_pidState (g : globals_t) (axis : flight_dynamics_index_t)
    (s : pidState_t) : globals_t :=
  {| tpaFactor := tpaFactor g; pidState := upd (pidState g) axis s;
     magHoldTargetHeading := magHoldTargetHeading g; axisPID := axisPID g;
     magHoldRateFilter := magHoldRateFilter g |}.

Definition set_axisPID (g : globals_t) (axis : flight_dynamics_index_t)
    (v : Z) : globals_t :=
  {| tpaFactor := tpaFactor g; pidState := pidState g;
     magHoldTargetHeading := magHoldTargetHeading g; axisPID := upd (axisPID g) axis v;
     magHoldRateFilter := magHoldRateFilter g |}.

Definition set_magHoldRateFilter (g : globals_t) (f : filterStatePt1_t) : globals_t :=
  {| tpaFactor := tpaFactor g; pidState := pidState g;
     magHoldTargetHeading := magHoldTargetHeading g; axisPID := axisPID g;
     magHoldRateFilter := f |}.

Definition all_axes : list flight_dynamics_index_t := [FD_ROLL; FD_PITCH; FD_YAW].

(** ** [pidResetErrorAccumulators] *)

Definition pidResetErrorAccumulators (g : globals_t) : globals_t :=
  let g := fold_left
    (fun g axis => set_pidState g axis (set_integrator (pidState g axis) 0 0))
    all_axes g in
  set_pidState g FD_YAW (set_axisLockAccum (pidState g FD_YAW) 0).

(** ** [updatePIDCoefficients] *)

(** One pass of the loop over the axes. *)
Definition updateAxisCoefficients (pp : pidProfile_t) (tpa kdAtt : float)
    (g : globals_t) (axis : flight_dynamics_index_t) : option globals_t :=
  let p := axis_kP pp tpa axis in
  let i := axis_kI pp axis in
  let d := axis_kD pp tpa kdAtt axis in
  t <- calc_kT pp axis p i d ;;
  Some (set_pidState g axis (set_gains (pidState g axis) p i d t)).

(** The result is [None] when one of the divisions meets a zero divisor.
    The C function returns nothing and the program goes on: what it has
    stored in [kT] then is [calc_kT_ieee]. *)
Definition updatePIDCoefficients (pp : pidProfile_t) (crc : controlRateConfig_t)
    (rx : rxConfig_t) (e : env_t) (g : globals_t) : option globals_t :=
  let g := set_tpaFactor g (calc_tpaFactor crc (rcData_THROTTLE e)) in
  relThrottle <- calc_relThrottle rx (rcData_THROTTLE e) ;;
  let kdAttenuationFactor := calc_kdAttenuationFactor relThrottle in
  fold_left
    (fun og axis => g <- og ;; updateAxisCoefficients pp (tpaFactor g) kdAttenuationFactor g axis)
    all_axes (Some g).

(** ** Heading lock and self-levelling *)

Definition pidApplyHeadingLock (pp : pidProfile_t) (e : env_t) (s : pidState_t) : pidState_t :=
  if Qlt_bool 2 (ABSf (rateTarget s)) || negb (ARMED e) then
    set_axisLockAccum s 0
  else
    let acc := (axisLockAccum s + (rateTarget s - gyroRate s) * dT e)%Q in
    let acc := constrainf acc (-45) 45 in
    set_rateTarget (set_axisLockAccum s acc)
      (acc * (inject_Z (P8 pp PIDMAG) / FP_PID_YAWHOLD_P_MULTIPLIER))%Q.

Definition calcHorizonLevelStrength (pp : pidProfile_t) (rx : rxConfig_t) (e : env_t) : float :=
  let stickPosAil := ABS (getRcStickDeflection e FD_ROLL (midrc rx)) in
  let stickPosEle := ABS (getRcStickDeflection e FD_PITCH (midrc rx)) in
  let mostDeflectedPos := MAX stickPosAil stickPosEle in
  let horizonLevelStrength := (inject_Z (500 - mostDeflectedPos) / 500)%Q in
  if D8 pp PIDLEVEL =? 0 then 0%Q
  else constrainf ((horizonLevelStrength - 1) * (100 / inject_Z (D8 pp PIDLEVEL)) + 1)%Q 0 1.

Definition pidLevel (pp : pidProfile_t) (e : env_t) (s : pidState_t)
    (axis : flight_dynamics_index_t) (horizonLevelStrength : float) : pidState_t :=
  let angleTarget := pidRcCommandToAngle (rcCommand e axis) in
  let angleError :=
    (inject_Z (constrain (float_to_int32 angleTarget)
                 (- max_angle_inclination pp axis) (max_angle_inclination pp axis)
               - attitude_raw e axis) / 10)%Q in
  let levelP := (inject_Z (P8 pp PIDLEVEL) / FP_PID_LEVEL_P_MULTIPLIER)%Q in
  let s :=
    if HORIZON_MODE e
    then set_rateTarget s (rateTarget s + angleError * levelP * horizonLevelStrength)%Q
    else set_rateTarget s (angleError * levelP)%Q in
  if negb (I8 pp PIDLEVEL =? 0) then
    let '(r, f) := filterApplyPt1 (rateTarget s) (angleFilterState s)
                     (inject_Z (I8 pp PIDLEVEL)) (dT e) in
    set_angleFilterState (set_rateTarget s r) f
  else s.

(** ** The rate controller ([pidApplyRateController]) *)

Definition dtermCoeffs : list float := [5; 2; -8; -2; 3]%Q.

(** The local [rateError]. *)
Definition rc_rateError (s : pidState_t) : float := (rateTarget s - gyroRate s)%Q.

(** The local [newPTerm] after the yaw limit and the yaw low-pass filter,
    with the state of that filter. *)
Definition rc_newPTerm (pp : pidProfile_t) (e : env_t) (s : pidState_t)
    (axis : flight_dynamics_index_t) : float * filterStatePt1_t :=
  let newPTerm := (rc_rateError s * kP s)%Q in
  let newPTerm :=
    if axis_eqb axis FD_YAW && ((4 <=? motorCount e) && negb (yaw_p_limit pp =? 0))
    then inject_Z (constrain (float_to_int32 newPTerm) (- yaw_p_limit pp) (yaw_p_limit pp))
    else newPTerm in
  if axis_eqb axis FD_YAW && negb (yaw_lpf_hz pp =? 0)
  then filterApplyPt1 newPTerm (ptermLpfState s) (inject_Z (yaw_lpf_hz pp)) (dT e)
  else (newPTerm, ptermLpfState s).

(** The local [newDTerm], with the history buffer and the state of the
    D-term filter. *)
Definition rc_newDTerm (pp : pidProfile_t) (e : env_t) (s : pidState_t)
    (axis : flight_dynamics_index_t) : float * list float * filterStatePt1_t :=
  if D8 pp (pidIndex_of_axis axis) =? 0 then (0%Q, dTermBuf s, deltaLpfState s)
  else
    let buf := filterUpdateFIR DTERM_BUF_COUNT (dTermBuf s) (gyroRate s) in
    let newDTerm := filterApplyFIR DTERM_BUF_COUNT buf dtermCoeffs (- kD s / (8 * dT e))%Q in
    if negb (dterm_lpf_hz pp =? 0) then
      let '(d, f) := filterApplyPt1 newDTerm (deltaLpfState s)
                       (inject_Z (dterm_lpf_hz pp)) (dT e) in
      (d, buf, f)
    else (newDTerm, buf, deltaLpfState s).

Definition pidAttenuationFactor (e : env_t) : float :=
  if PID_ATTENUATE e then (33 # 100)%Q else 1%Q.

(** The local [newOutput]: the output before the clamp. *)
Definition rc_newOutput (pp : pidProfile_t) (e : env_t) (s : pidState_t)
    (axis : flight_dynamics_index_t) : float :=
  ((fst (rc_newPTerm pp e s axis) + fst (fst (rc_newDTerm pp e s axis)))
     * pidAttenuationFactor e + errorGyroIf s)%Q.

(** The local [newOutputLimited]. *)
Definition rc_newOutputLimited (pp : pidProfile_t) (e : env_t) (s : pidState_t)
    (axis : flight_dynamics_index_t) : float :=
  constrainf (rc_newOutput pp e s axis)
    (inject_Z (- PID_MAX_OUTPUT)) (inject_Z PID_MAX_OUTPUT).

(** The function proper: the new state of the axis and the value stored in
    [axisPID[axis]].  The blackbox copies ([#ifdef BLACKBOX]) are left out. *)
Definition pidApplyRateController (pp : pidProfile_t) (e : env_t) (s : pidState_t)
    (axis : flight_dynamics_index_t) : pidState_t * Z :=
  let rateError := rc_rateError s in
  let '(_, pf) := rc_newPTerm pp e s axis in
  let '(_, buf, df) := rc_newDTerm pp e s axis in
  let newOutput := rc_newOutput pp e s axis in
  let newOutputLimited := rc_newOutputLimited pp e s axis in
  let i := (errorGyroIf s
            + (rateError * kI s * dT e + (newOutputLimited - newOutput) * kT s * dT e))%Q in
  let '(i, lim) :=
    if ANTI_WINDUP e || motorLimitReached e
    then (constrainf i (- errorGyroIfLimit s) (errorGyroIfLimit s), errorGyroIfLimit s)
    else (i, ABSf i) in
  (set_integrator (set_rate_filters s buf pf df) i lim, float_to_int16 newOutputLimited).

(** ** Magnetometer heading hold *)

Definition updateMagHoldHeading (g : globals_t) (heading : Z) : globals_t :=
  {| tpaFactor := tpaFactor g; pidState := pidState g;
     magHoldTargetHeading := heading; axisPID := axisPID g;
     magHoldRateFilter := magHoldRateFilter g |}.

Definition getMagHoldHeading (g : globals_t) : Z := magHoldTargetHeading g.

(** Built with [MAG] and [NAV] defined. *)
Definition getMagHoldState (e : env_t) : magHoldState_e :=
  if negb (sensors_MAG e) || negb (SMALL_ANGLE e) then MAG_HOLD_DISABLED
  else
    match naivationGetHeadingControlState e with
    | NAV_HEADING_CONTROL_AUTO => MAG_HOLD_ENABLED
    | NAV_HEADING_CONTROL_MANUAL => MAG_HOLD_UPDATE_HEADING
    | NAV_HEADING_CONTROL_NONE =>
        if (ABS (rcCommand e FD_YAW) <? 15) && MAG_MODE e
        then MAG_HOLD_ENABLED else MAG_HOLD_UPDATE_HEADING
    end.

(** The two conditional corrections that [pidMagHold] applies to its local
    [int16_t error]. *)
Definition magHoldWrapError (error : Z) : Z :=
  let error := if error <=? -180 then to_int16 (error + 360) else error in
  let error := if 180 <=? error then to_int16 (error - 360) else error in
  error.

(** The local [error] of [pidMagHold] after the corrections. *)
Definition magHoldError (e : env_t) (g : globals_t) : Z :=
  magHoldWrapError
    (to_int16 (DECIDEGREES_TO_DEGREES (attitude_raw e FD_YAW) - magHoldTargetHeading g)).

Definition pidMagHold (pp : pidProfile_t) (e : env_t) (g : globals_t) : float * globals_t :=
  let error := magHoldError e g in
  let magHoldRate := inject_Z (Z.quot (error * P8 pp PIDMAG) 30) in
  let magHoldRate := constrainf magHoldRate
    (inject_Z (- mag_hold_rate_limit pp)) (inject_Z (mag_hold_rate_limit pp)) in
  let '(magHoldRate, f) := filterApplyPt1 magHoldRate (magHoldRateFilter g)
                             (inject_Z MAG_HOLD_ERROR_LPF_FREQ) (dT e) in
  (magHoldRate, set_magHoldRateFilter g f).

(** ** [pidController] *)

(** Steps 1 and 2 for one axis. *)
Definition readAxisTarget (pp : pidProfile_t) (crc : controlRateConfig_t) (e : env_t)
    (magHoldState : magHoldState_e) (g : globals_t)
    (axis : flight_dynamics_index_t) : globals_t :=
  let gyro := (inject_Z (gyroADC e axis) * gyro_scale e)%Q in
  let '(target, g) :=
    match axis, magHoldState with
    | FD_YAW, MAG_HOLD_ENABLED => pidMagHold pp e g
    | _, _ => (pidRcCommandToRate (rcCommand e axis) (rates crc axis), g)
    end in
  set_pidState g axis
    (set_rates (pidState g axis) gyro
       (constrainf target (inject_Z (- GYRO_SATURATION_LIMIT)) (inject_Z GYRO_SATURATION_LIMIT))).

(** Step 4 for one axis. *)
Definition runAxisRateController (pp : pidProfile_t) (e : env_t) (g : globals_t)
    (axis : flight_dynamics_index_t) : globals_t :=
  let '(s, out) := pidApplyRateController pp e (pidState g axis) axis in
  set_axisPID (set_pidState g axis s) axis out.

Definition magHoldState_eqb (a b : magHoldState_e) : bool :=
  match a, b with
  | MAG_HOLD_DISABLED, MAG_HOLD_DISABLED
  | MAG_HOLD_UPDATE_HEADING, MAG_HOLD_UPDATE_HEADING
  | MAG_HOLD_ENABLED, MAG_HOLD_ENABLED => true
  | _, _ => false
  end.

Definition pidController (pp : pidProfile_t) (crc : controlRateConfig_t)
    (rx : rxConfig_t) (e : env_t) (g : globals_t) : globals_t :=
  let magHoldState := getMagHoldState e in
  let g :=
    if magHoldState_eqb magHoldState MAG_HOLD_UPDATE_HEADING
    then updateMagHoldHeading g (to_int16 (DECIDEGREES_TO_DEGREES (attitude_raw e FD_YAW)))
    else g in
  let g := fold_left (readAxisTarget pp crc e magHoldState) all_axes g in
  let g :=
    if ANGLE_MODE e || HORIZON_MODE e then
      let horizonLevelStrength := calcHorizonLevelStrength pp rx e in
      let g := set_pidState g FD_ROLL
                 (pidLevel pp e (pidState g FD_ROLL) FD_ROLL horizonLevelStrength) in
      set_pidState g FD_PITCH
        (pidLevel pp e (pidState g FD_PITCH) FD_PITCH horizonLevelStrength)
    else g in
  let g :=
    if HEADING_LOCK e && negb (magHoldState_eqb magHoldState MAG_HOLD_ENABLED)
    then set_pidState g FD_YAW (pidApplyHeadingLock pp e (pidState g FD_YAW))
    else g in
  fold_left (runAxisRateController pp e) all_axes g.

(** ** Histories of the controller

    The entry points of [pid.c] that the scheduler calls, and the states a
    sequence of such calls reaches from the zero-initialised statics.  The
    state holds numbers, so [run] follows a history for as long as every
    value is one: it is [None] from the first gain refresh that meets a zero
    divisor, after which the program itself goes on with an infinity or NaN
    among its values.  [refresh_well_configured] gives the histories that
    [run] follows to their end. *)

Variable filterZero : filterStatePt1_t.

Definition pidStateZero : pidState_t :=
  {| kP := 0; kI := 0; kD := 0; kT := 0; gyroRate := 0; rateTarget := 0;
     dTermBuf := [0; 0; 0; 0; 0]%Q; errorGyroIf := 0; errorGyroIfLimit := 0;
     axisLockAccum := 0; angleFilterState := filterZero;
     ptermLpfState := filterZero; deltaLpfState := filterZero |}.

Definition globalsZero : globals_t :=
  {| tpaFactor := 0; pidState := fun _ => pidStateZero; magHoldTargetHeading := 0;
     axisPID := fun _ => 0; magHoldRateFilter := filterZero |}.

Inductive call_t : Type :=
  | CallResetErrorAccumulators
  | CallUpdatePIDCoefficients (pp : pidProfile_t) (crc : controlRateConfig_t)
      (rx : rxConfig_t) (e : env_t)
  | CallPidController (pp : pidProfile_t) (crc : controlRateConfig_t)
      (rx : rxConfig_t) (e : env_t)
  | CallUpdateMagHoldHeading (heading : Z).

Definition do_call (c : call_t) (g : globals_t) : option globals_t :=
  match c with
  | CallResetErrorAccumulators => Some (pidResetErrorAccumulators g)
  | CallUpdatePIDCoefficients pp crc rx e => updatePIDCoefficients pp crc rx e g
  | CallPidController pp crc rx e => Some (pidController pp crc rx e g)
  | CallUpdateMagHoldHeading h => Some (updateMagHoldHeading g h)
  end.

Fixpoint run (cs : list call_t) (g : globals_t) : option globals_t :=
  match cs with
  | [] => Some g
  | c :: cs => g' <- do_call c g ;; run cs g'
  end.

(** The integrator step in the words of the specification: the increment
    with back-calculation, then the conditional envelope. *)
Definition spec_integrate (I rateError kI_ kT_ dT_ u uLim : float) : float :=
  (I + (rateError * kI_ * dT_ + (uLim - u) * kT_ * dT_))%Q.

Definition spec_envelope (frozen : bool) (I limit : float) : float * float :=
  if frozen then (constrainf I (- limit) limit, limit) else (I, ABSf I).

Definition envelope_nonneg (g : globals_t) : Prop :=
  forall a, (0 <= errorGyroIfLimit (pidState g a))%Q.

(** ** Well-typed configurations and the specification's TPA formula *)

Definition controlRateConfig_wf (crc : controlRateConfig_t) : Prop :=
  is_uint8 (dynThrPID crc) /\ is_uint16 (tpa_breakpoint crc).

(** The attenuation between the breakpoint and 2000 as the specification
    gives it, over the rationals. *)
Definition spec_tpaFactor (crc : controlRateConfig_t) (throttle : Z) : float :=
  (1 - (inject_Z (dynThrPID crc) / 100)
       * (inject_Z (throttle - tpa_breakpoint crc) / inject_Z (2000 - tpa_breakpoint crc)))%Q.

(** A rate profile with the given TPA settings. *)
Definition rateProfile (dyn breakpoint : Z) : controlRateConfig_t :=
  {| rates := fun _ => 0; dynThrPID := dyn; tpa_breakpoint := breakpoint |}.

(** A PID profile with the same three gains on every controller. *)
Definition uniformProfile (p i d : Z) : pidProfile_t :=
  {| P8 := fun _ => p; I8 := fun _ => i; D8 := fun _ => d;
     dterm_lpf_hz := 0; yaw_p_limit := 0; yaw_lpf_hz := 0;
     max_angle_inclination := fun _ => 300; mag_hold_rate_limit := 90 |}.

Definition checkRange (lo hi : Z) : rxConfig_t :=
  {| mincheck := lo; maxcheck := hi; midrc := 1500 |}.

(** An environment in which nothing moves, at the given throttle. *)
Definition quietEnv (throttle : Z) : env_t :=
  {| dT := (1 # 1000)%Q; motorCount := 4; motorLimitReached := false;
     rcData_THROTTLE := throttle; rcCommand := fun _ => 0;
     getRcStickDeflection := fun _ _ => 0; gyroADC := fun _ => 0; gyro_scale := 1%Q;
     attitude_raw := fun _ => 0; sensors_MAG := false;
     naivationGetHeadingControlState := NAV_HEADING_CONTROL_NONE;
     ARMED := true; ANGLE_MODE := false; HORIZON_MODE := false; HEADING_LOCK := false;
     MAG_MODE := false; SMALL_ANGLE := true; PID_ATTENUATE := false;
     ANTI_WINDUP := false |}.

(** ** Round trip of the stick conversions *)

Lemma Qtrunc_half (x : Z) : Qtrunc (inject_Z x / 2)%Q = Z.quot x 2.
Proof.
  unfold Qtrunc, Qdiv, Qmult, Qinv, inject_Z. simpl.
  rewrite Z.mul_1_r. reflexivity.
Qed.

Lemma pidAngleToRcCommand_integer (x : Z) :
  is_int16 (Z.quot x 2) -> pidAngleToRcCommand (inject_Z x) = Z.quot x 2.
Proof.
  intros H. unfold pidAngleToRcCommand, float_to_int16.
  rewrite Qtrunc_half. apply to_int16_id. exact H.
Qed.

(** C9.  For an integer deci-degree angle [x] whose stick command is
    representable in the [int16_t] that [pidAngleToRcCommand] returns,
    converting to a command and back with [pidRcCommandToAngle] gives [x]
    with its lowest bit dropped toward zero: the result is within one
    deci-degree of [x], and is [x] itself when [x] is even. *)
Theorem angle_command_round_trip (x : Z) :
  is_int16 (Z.quot x 2) ->
  let back := pidRcCommandToAngle (pidAngleToRcCommand (inject_Z x)) in
  (back == inject_Z (x - Z.rem x 2))%Q /\
  (Qabs (back - inject_Z x) <= 1)%Q /\
  (Z.even x = true -> (back == inject_Z x)%Q).
Proof.
  intros H back. subst back.
  rewrite (pidAngleToRcCommand_integer x H). unfold pidRcCommandToAngle.
  pose proof (Z.quot_rem' x 2) as E.
  assert (B : -1 <= Z.rem x 2 <= 1).
  { pose proof (Z.rem_bound_abs x 2). lia. }
  assert (Q1 : (inject_Z (Z.quot x 2) * 2 == inject_Z (x - Z.rem x 2))%Q).
  { unfold Qeq, Qmult, inject_Z. simpl. lia. }
  split; [exact Q1|]. split.
  - rewrite Q1. apply Qabs_Qle_condition. unfold Qle, Qminus, Qplus, Qopp, inject_Z.
    simpl. lia.
  - intros Ev. rewrite Q1. apply Z.even_spec in Ev. destruct Ev as [k Hk].
    replace (Z.rem x 2) with 0; [rewrite Z.sub_0_r; reflexivity|].
    subst x. rewrite Z.mul_comm. symmetry. apply Z.rem_mul. lia.
Qed.

(** ** Thrust PID attenuation *)

Lemma to_uint16_id (z : Z) : 0 <= z <= 65535 -> to_uint16 z = z.
Proof.
  intros H. unfold to_uint16. change (2 ^ 16) with 65536.
  apply Z.mod_small. lia.
Qed.

Lemma calc_tpaFactor_unattenuated (crc : controlRateConfig_t) (thr : Z) :
  dynThrPID crc = 0 \/ thr < tpa_breakpoint crc -> calc_tpaFactor crc thr = 1%Q.
Proof.
  intros H. unfold calc_tpaFactor.
  destruct (dynThrPID crc =? 0) eqn:E1; [reflexivity|].
  destruct (thr <? tpa_breakpoint crc) eqn:E2; [reflexivity|].
  apply Z.eqb_neq in E1. apply Z.ltb_ge in E2. lia.
Qed.

Lemma calc_tpaFactor_ramp (crc : controlRateConfig_t) (thr : Z) :
  controlRateConfig_wf crc -> dynThrPID crc <> 0 ->
  tpa_breakpoint crc <= thr < 2000 ->
  calc_tpaFactor crc thr =
  (inject_Z (100 - (dynThrPID crc * (thr - tpa_breakpoint crc)) / (2000 - tpa_breakpoint crc))
     / 100)%Q.
Proof.
  intros [Hd Hb] Hn Ht. unfold calc_tpaFactor.
  apply Z.eqb_neq in Hn. rewrite Hn.
  replace (thr <? tpa_breakpoint crc) with false by (symmetry; apply Z.ltb_ge; lia).
  replace (thr <? 2000) with true by (symmetry; apply Z.ltb_lt; lia).
  cbv beta iota. unfold is_uint8 in Hd. rewrite to_uint16_id by lia.
  rewrite Z.quot_div_nonneg; [reflexivity | apply Z.mul_nonneg_nonneg; lia | lia].
Qed.

Lemma calc_tpaFactor_full (crc : controlRateConfig_t) (thr : Z) :
  dynThrPID crc <> 0 -> tpa_breakpoint crc <= thr -> 2000 <= thr ->
  calc_tpaFactor crc thr = (inject_Z (100 - dynThrPID crc) / 100)%Q.
Proof.
  intros Hn Hb Ht. unfold calc_tpaFactor.
  apply Z.eqb_neq in Hn. rewrite Hn.
  replace (thr <? tpa_breakpoint crc) with false by (symmetry; apply Z.ltb_ge; lia).
  replace (thr <? 2000) with false by (symmetry; apply Z.ltb_ge; lia).
  reflexivity.
Qed.

(** Between the breakpoint and 2000 the integer division of the code
    rounds the specification's factor up to a whole hundredth. *)
Lemma calc_tpaFactor_ramp_vs_spec (crc : controlRateConfig_t) (thr : Z) :
  controlRateConfig_wf crc -> dynThrPID crc <> 0 ->
  tpa_breakpoint crc <= thr < 2000 ->
  (spec_tpaFactor crc thr <= calc_tpaFactor crc thr)%Q /\
  (calc_tpaFactor crc thr < spec_tpaFactor crc thr + (1 # 100))%Q.
Proof.
  intros Hwf Hn Ht. rewrite (calc_tpaFactor_ramp crc thr Hwf Hn Ht).
  destruct Hwf as [Hd Hb]. unfold is_uint8 in Hd. unfold spec_tpaFactor.
  set (d := dynThrPID crc) in *. set (b := tpa_breakpoint crc) in *.
  assert (Hm : 0 < 2000 - b) by lia.
  pose proof (Z.div_mod (d * (thr - b)) (2000 - b) ltac:(lia)) as Hdm.
  pose proof (Z.mod_pos_bound (d * (thr - b)) (2000 - b) Hm) as Hmb.
  set (q := d * (thr - b) / (2000 - b)) in *.
  set (r := (d * (thr - b)) mod (2000 - b)) in *.
  destruct (2000 - b) as [|m|m] eqn:Em; try lia.
  unfold Qle, Qlt, Qdiv, Qmult, Qminus, Qplus, Qopp, Qinv, inject_Z.
  cbn [Qnum Qden]. rewrite ?Pos2Z.inj_mul.
  split; nia.
Qed.

Lemma updateAxisCoefficients_tpaFactor (pp : pidProfile_t) (tpa kdAtt : float)
    (g g' : globals_t) (axis : flight_dynamics_index_t) :
  updateAxisCoefficients pp tpa kdAtt g axis = Some g' -> tpaFactor g' = tpaFactor g.
Proof.
  unfold updateAxisCoefficients. intros H.
  destruct (calc_kT pp axis _ _ _); simpl in H; [|discriminate].
  injection H as <-. reflexivity.
Qed.

Lemma updateAxes_tpaFactor (pp : pidProfile_t) (kdAtt : float)
    (axes : list flight_dynamics_index_t) (og : option globals_t) (g' : globals_t) :
  fold_left (fun og axis => g <- og ;; updateAxisCoefficients pp (tpaFactor g) kdAtt g axis)
    axes og = Some g' ->
  exists g0, og = Some g0 /\ tpaFactor g' = tpaFactor g0.
Proof.
  revert og. induction axes as [|axis axes IH]; intros og H.
  - exists g'. split; [exact H | reflexivity].
  - cbn [fold_left] in H. apply IH in H. destruct H as [g1 [H1 H2]].
    destruct og as [g0|]; [|discriminate]. cbn [obind] in H1.
    exists g0. split; [reflexivity|].
    rewrite H2. exact (updateAxisCoefficients_tpaFactor _ _ _ _ _ _ H1).
Qed.

(** The gain refresh leaves in the static [tpaFactor] what [calc_tpaFactor]
    computes from the throttle channel. *)
Lemma updatePIDCoefficients_tpaFactor (pp : pidProfile_t) (crc : controlRateConfig_t)
    (rx : rxConfig_t) (e : env_t) (g g' : globals_t) :
  updatePIDCoefficients pp crc rx e g = Some g' ->
  tpaFactor g' = calc_tpaFactor crc (rcData_THROTTLE e).
Proof.
  unfold updatePIDCoefficients. intros H.
  destruct (calc_relThrottle rx (rcData_THROTTLE e)) as [rel|]; [|discriminate].
  cbn [obind] in H. apply updateAxes_tpaFactor in H.
  destruct H as [g0 [H0 H1]]. injection H0 as <-. exact H1.
Qed.

(** C6 (amended).  With [d = dynThrPID] and [b = tpa_breakpoint] of their
    C types: the factor is 1 when [d = 0] or the throttle is below [b]; for
    [b <= throttle < 2000] it is [(100 - floor (d * (throttle - b) / (2000 - b))) / 100],
    computed with an integer division, which is the specification's
    [1 - (d/100) * (throttle - b) / (2000 - b)] rounded up to a whole
    hundredth; for [throttle >= 2000] (and not below [b]) it is
    [1 - d/100].  With [d = 50] and [b = 1500] the throttles 1500, 1750 and
    2000 give 1, 0.75 and 0.5.  The gain refresh stores this factor. *)
Theorem tpaFactor_cases (crc : controlRateConfig_t) (thr : Z) :
  controlRateConfig_wf crc ->
  let d := dynThrPID crc in
  let b := tpa_breakpoint crc in
  (d = 0 \/ thr < b -> calc_tpaFactor crc thr = 1%Q) /\
  (d <> 0 -> b <= thr < 2000 ->
     calc_tpaFactor crc thr = (inject_Z (100 - (d * (thr - b)) / (2000 - b)) / 100)%Q /\
     (spec_tpaFactor crc thr <= calc_tpaFactor crc thr)%Q /\
     (calc_tpaFactor crc thr < spec_tpaFactor crc thr + (1 # 100))%Q) /\
  (d <> 0 -> b <= thr -> 2000 <= thr ->
     (calc_tpaFactor crc thr == 1 - inject_Z d / 100)%Q) /\
  (d = 50 -> b = 1500 ->
     (calc_tpaFactor crc 1500 == 1)%Q /\
     (calc_tpaFactor crc 1750 == 75 # 100)%Q /\
     (calc_tpaFactor crc 2000 == 50 # 100)%Q) /\
  (forall pp rx e g g',
     rcData_THROTTLE e = thr -> updatePIDCoefficients pp crc rx e g = Some g' ->
     tpaFactor g' = calc_tpaFactor crc thr).
Proof.
  intros Hwf d b. subst d b.
  split; [apply calc_tpaFactor_unattenuated|].
  split.
  { intros Hn Ht. split; [exact (calc_tpaFactor_ramp crc thr Hwf Hn Ht)|].
    exact (calc_tpaFactor_ramp_vs_spec crc thr Hwf Hn Ht). }
  split.
  { intros Hn Hb Ht. rewrite (calc_tpaFactor_full crc thr Hn Hb Ht).
    unfold Qeq, Qdiv, Qmult, Qminus, Qplus, Qopp, Qinv, inject_Z.
    cbn [Qnum Qden]. rewrite ?Pos2Z.inj_mul. lia. }
  split.
  { intros Hd Hb. unfold calc_tpaFactor. rewrite Hd, Hb. vm_compute. auto. }
  intros pp rx e g g' <- H. exact (updatePIDCoefficients_tpaFactor pp crc rx e g g' H).
Qed.

(** ** The back-calculation gain *)

(** Away from full attenuation the guard does keep the two inner divisors
    of [kT] away from zero. *)
Lemma kT_inner_divisors_nonzero (pp : pidProfile_t) (tpa : float)
    (axis : flight_dynamics_index_t) :
  kT_guard pp axis = true -> ~ (tpa == 0)%Q ->
  ~ (axis_kP pp tpa axis == 0)%Q /\ ~ (axis_kI pp axis == 0)%Q.
Proof.
  unfold kT_guard. intros G Ht. apply andb_true_iff in G. destruct G as [Gp Gi].
  apply negb_true_iff in Gp. apply negb_true_iff in Gi.
  apply Z.eqb_neq in Gp. apply Z.eqb_neq in Gi.
  assert (Hp : ~ (inject_Z (P8 pp (pidIndex_of_axis axis)) / FP_PID_RATE_P_MULTIPLIER == 0)%Q).
  { unfold FP_PID_RATE_P_MULTIPLIER, Qeq, Qdiv, Qmult, Qinv, inject_Z. cbn [Qnum Qden]. lia. }
  split.
  - unfold axis_kP. destruct (negb (axis_eqb axis FD_YAW)); [|exact Hp].
    intros C. apply Qmult_integral in C. tauto.
  - unfold axis_kI, FP_PID_RATE_I_MULTIPLIER, Qeq, Qdiv, Qmult, Qinv, inject_Z.
    cbn [Qnum Qden]. lia.
Qed.

(** C8 (the code at the failing input).  With [dynThrPID = 100], the top
    of its configuration range, and the throttle at 2000, [tpaFactor] is 0.
    On the roll axis with [P8 = 40], [I8 = 30], [D8 = 23] the guard
    [P8 != 0 && I8 != 0] holds, yet the TPA-scaled [kP] is 0 and is the
    divisor of [kD / kP]: the computation of [kT] divides by zero and the
    gain refresh has no rational result. *)
Theorem kT_divides_by_zero_at_full_attenuation (g : globals_t) (kdAtt : float) :
  let pp := uniformProfile 40 30 23 in
  let crc := rateProfile 100 1500 in
  let tpa := calc_tpaFactor crc 2000 in
  kT_guard pp FD_ROLL = true /\
  (tpa == 0)%Q /\
  (axis_kP pp tpa FD_ROLL == 0)%Q /\
  calc_kT pp FD_ROLL (axis_kP pp tpa FD_ROLL) (axis_kI pp FD_ROLL)
    (axis_kD pp tpa kdAtt FD_ROLL) = None /\
  updatePIDCoefficients pp crc (checkRange 1100 1900) (quietEnv 2000) g = None.
Proof.
  cbv zeta. repeat split; vm_compute; reflexivity.
Qed.

(** ** The heading error of the mag-hold controller *)

(** C5 (amended).  When the raw error, the current yaw in degrees minus
    [magHoldTargetHeading], is [e + 360 n] with [-180 <= e < 180] and a wrap
    count [n] of -1, 0 or 1, the internal error of the controller is [e]; it
    lies in the half-open interval from -180 inclusive to 180 exclusive. *)
Theorem magHoldError_single_wrap (env : env_t) (g : globals_t) (e n : Z) :
  -180 <= e < 180 -> -1 <= n <= 1 ->
  DECIDEGREES_TO_DEGREES (attitude_raw env FD_YAW) - magHoldTargetHeading g = e + 360 * n ->
  magHoldError env g = e.
Proof.
  intros He Hn Hraw. unfold magHoldError. rewrite Hraw.
  rewrite to_int16_id by lia. unfold magHoldWrapError.
  destruct (e + 360 * n <=? -180) eqn:E1.
  - apply Z.leb_le in E1. rewrite to_int16_id by lia.
    destruct (180 <=? e + 360 * n + 360) eqn:E2.
    + apply Z.leb_le in E2. rewrite to_int16_id by lia. lia.
    + apply Z.leb_gt in E2. lia.
  - apply Z.leb_gt in E1.
    destruct (180 <=? e + 360 * n) eqn:E2.
    + apply Z.leb_le in E2. rewrite to_int16_id by lia. lia.
    + apply Z.leb_gt in E2. lia.
Qed.

(** ** The rate controller: output bound and integrator *)

Lemma pidApplyRateController_output (pp : pidProfile_t) (e : env_t) (s : pidState_t)
    (axis : flight_dynamics_index_t) :
  snd (pidApplyRateController pp e s axis) = float_to_int16 (rc_newOutputLimited pp e s axis).
Proof.
  unfold pidApplyRateController.
  destruct (rc_newPTerm pp e s axis) as [p pf].
  destruct (rc_newDTerm pp e s axis) as [[d buf] df].
  destruct (ANTI_WINDUP e || motorLimitReached e); reflexivity.
Qed.

Lemma pidApplyRateController_integrator (pp : pidProfile_t) (e : env_t) (s : pidState_t)
    (axis : flight_dynamics_index_t) :
  let s' := fst (pidApplyRateController pp e s axis) in
  (errorGyroIf s', errorGyroIfLimit s') =
  spec_envelope (ANTI_WINDUP e || motorLimitReached e)
    (spec_integrate (errorGyroIf s) (rateTarget s - gyroRate s)%Q (kI s) (kT s) (dT e)
       (rc_newOutput pp e s axis) (rc_newOutputLimited pp e s axis))
    (errorGyroIfLimit s).
Proof.
  unfold pidApplyRateController, spec_envelope, spec_integrate, rc_rateError.
  destruct (rc_newPTerm pp e s axis) as [p pf].
  destruct (rc_newDTerm pp e s axis) as [[d buf] df].
  destruct (ANTI_WINDUP e || motorLimitReached e); reflexivity.
Qed.






(** ** The anti-windup envelope along a history *)

Definition same_envelope (g g' : globals_t) : Prop :=
  forall a, errorGyroIfLimit (pidState g' a) = errorGyroIfLimit (pidState g a).

Lemma same_envelope_nonneg (g g' : globals_t) :
  same_envelope g g' -> envelope_nonneg g -> envelope_nonneg g'.
Proof. intros S N a. rewrite (S a). apply N. Qed.

Lemma same_envelope_trans (g1 g2 g3 : globals_t) :
  same_envelope g1 g2 -> same_envelope g2 g3 -> same_envelope g1 g3.
Proof. intros A B a. rewrite (B a). apply A. Qed.

Lemma same_envelope_set_pidState (g : globals_t) (axis : flight_dynamics_index_t)
    (s : pidState_t) :
  errorGyroIfLimit s = errorGyroIfLimit (pidState g axis) ->
  same_envelope g (set_pidState g axis s).
Proof.
  intros H a. cbn [set_pidState pidState]. unfold upd.
  destruct axis, a; cbn [axis_eqb]; solve [reflexivity | exact H].
Qed.

Lemma pidResetErrorAccumulators_envelope (g : globals_t) :
  envelope_nonneg (pidResetErrorAccumulators g).
Proof.
  intros a. unfold pidResetErrorAccumulators, all_axes. cbn [fold_left].
  destruct a; cbn; apply Qle_refl.
Qed.

Lemma updateAxisCoefficients_envelope (pp : pidProfile_t) (tpa kdAtt : float)
    (g g' : globals_t) (axis : flight_dynamics_index_t) :
  updateAxisCoefficients pp tpa kdAtt g axis = Some g' -> same_envelope g g'.
Proof.
  unfold updateAxisCoefficients. intros H.
  destruct (calc_kT pp axis _ _ _); cbn [obind] in H; [|discriminate].
  injection H as <-. apply same_envelope_set_pidState. reflexivity.
Qed.

Lemma updateAxes_envelope (pp : pidProfile_t) (kdAtt : float)
    (axes : list flight_dynamics_index_t) (g g' : globals_t) :
  fold_left (fun og axis => g <- og ;; updateAxisCoefficients pp (tpaFactor g) kdAtt g axis)
    axes (Some g) = Some g' ->
  same_envelope g g'.
Proof.
  revert g. induction axes as [|axis axes IH]; intros g H.
  - injection H as <-. intros a. reflexivity.
  - cbn [fold_left obind] in H.
    destruct (updateAxisCoefficients pp (tpaFactor g) kdAtt g axis) as [g1|] eqn:E.
    + apply (same_envelope_trans g g1 g').
      * exact (updateAxisCoefficients_envelope _ _ _ _ _ _ E).
      * apply IH. exact H.
    + apply updateAxes_tpaFactor in H. destruct H as [g0 [C _]]. discriminate.
Qed.

Lemma updatePIDCoefficients_envelope (pp : pidProfile_t) (crc : controlRateConfig_t)
    (rx : rxConfig_t) (e : env_t) (g g' : globals_t) :
  updatePIDCoefficients pp crc rx e g = Some g' -> same_envelope g g'.
Proof.
  unfold updatePIDCoefficients. intros H.
  destruct (calc_relThrottle rx (rcData_THROTTLE e)) as [rel|]; [|discriminate].
  cbn [obind] in H. apply updateAxes_envelope in H.
  intros a. rewrite (H a). reflexivity.
Qed.

Lemma readAxisTarget_envelope (pp : pidProfile_t) (crc : controlRateConfig_t) (e : env_t)
    (m : magHoldState_e) (g : globals_t) (axis : flight_dynamics_index_t) :
  same_envelope g (readAxisTarget pp crc e m g axis).
Proof.
  intros a. unfold readAxisTarget, pidMagHold.
  destruct (filterApplyPt1 _ (magHoldRateFilter g) _ _) as [r f].
  destruct axis, m, a; reflexivity.
Qed.

Lemma pidLevel_envelope (pp : pidProfile_t) (e : env_t) (s : pidState_t)
    (axis : flight_dynamics_index_t) (h : float) :
  errorGyroIfLimit (pidLevel pp e s axis h) = errorGyroIfLimit s.
Proof.
  unfold pidLevel.
  destruct (HORIZON_MODE e); destruct (negb (I8 pp PIDLEVEL =? 0));
    try destruct (filterApplyPt1 _ _ _ _); reflexivity.
Qed.

Lemma pidApplyHeadingLock_envelope (pp : pidProfile_t) (e : env_t) (s : pidState_t) :
  errorGyroIfLimit (pidApplyHeadingLock pp e s) = errorGyroIfLimit s.
Proof.
  unfold pidApplyHeadingLock.
  destruct (Qlt_bool 2 (ABSf (rateTarget s)) || negb (ARMED e)); reflexivity.
Qed.

Lemma pidApplyRateController_envelope (pp : pidProfile_t) (e : env_t) (s : pidState_t)
    (axis : flight_dynamics_index_t) :
  (0 <= errorGyroIfLimit s)%Q ->
  (0 <= errorGyroIfLimit (fst (pidApplyRateController pp e s axis)))%Q.
Proof.
  intros H. pose proof (pidApplyRateController_integrator pp e s axis) as E.
  cbv zeta in E. unfold spec_envelope in E.
  destruct (ANTI_WINDUP e || motorLimitReached e); injection E as _ ->.
  - exact H.
  - apply ABSf_nonneg.
Qed.

Lemma runAxisRateController_envelope (pp : pidProfile_t) (e : env_t) (g : globals_t)
    (axis : flight_dynamics_index_t) :
  envelope_nonneg g -> envelope_nonneg (runAxisRateController pp e g axis).
Proof.
  intros N a. unfold runAxisRateController.
  pose proof (pidApplyRateController_envelope pp e (pidState g axis) axis (N axis)) as H.
  destruct (pidApplyRateController pp e (pidState g axis) axis) as [s out].
  cbn [set_axisPID set_pidState pidState]. unfold upd.
  destruct (axis_eqb a axis); [exact H | apply N].
Qed.

Lemma pidController_envelope (pp : pidProfile_t) (crc : controlRateConfig_t)
    (rx : rxConfig_t) (e : env_t) (g : globals_t) :
  envelope_nonneg g -> envelope_nonneg (pidController pp crc rx e g).
Proof.
  intros N. unfold pidController, all_axes. cbn [fold_left].
  repeat apply runAxisRateController_envelope.
  match goal with |- envelope_nonneg (if ?c then _ else _) => destruct c end;
  match goal with |- envelope_nonneg ?t =>
    match t with context [if ?c then _ else _] => destruct c end end;
  repeat first
    [ exact N
    | match goal with |- envelope_nonneg (if ?c then _ else _) => destruct c end
    | match goal with |- envelope_nonneg (updateMagHoldHeading _ _) =>
        apply (same_envelope_nonneg g); [intros a; reflexivity | exact N] end
    | match goal with |- envelope_nonneg (set_pidState ?g0 _ _) =>
        apply (same_envelope_nonneg g0);
        [ apply same_envelope_set_pidState;
          first [apply pidLevel_envelope | apply pidApplyHeadingLock_envelope] | ] end
    | match goal with |- envelope_nonneg (readAxisTarget _ _ _ _ ?g0 _) =>
        apply (same_envelope_nonneg g0); [apply readAxisTarget_envelope | ] end ].
Qed.

Lemma do_call_envelope (c : call_t) (g g' : globals_t) :
  envelope_nonneg g -> do_call c g = Some g' -> envelope_nonneg g'.
Proof.
  intros N H. destruct c as [|pp crc rx e|pp crc rx e|h]; cbn [do_call] in H.
  - injection H as <-. apply pidResetErrorAccumulators_envelope.
  - exact (same_envelope_nonneg g g' (updatePIDCoefficients_envelope _ _ _ _ _ _ H) N).
  - injection H as <-. apply pidController_envelope. exact N.
  - injection H as <-. exact N.
Qed.

Lemma run_envelope (cs : list call_t) (g g' : globals_t) :
  envelope_nonneg g -> run cs g = Some g' -> envelope_nonneg g'.
Proof.
  revert g. induction cs as [|c cs IH]; intros g N H; cbn [run] in H.
  - injection H as <-. exact N.
  - destruct (do_call c g) as [g1|] eqn:E; cbn [obind] in H; [|discriminate].
    exact (IH g1 (do_call_envelope c g g1 N E) H).
Qed.

Lemma globalsZero_envelope : envelope_nonneg globalsZero.
Proof. intros a. cbn. apply Qle_refl. Qed.

(** The integrator step where every value is a number.  One step of the
    rate controller, with [u] the unclamped output
    [(P + D) * attenuation + I] and [uLim] its clamp to [-1000, +1000],
    moves the integrator to [I + (rateError*kI*dT + (uLim - u)*kT*dT)];
    then, if [ANTI_WINDUP] is set or [motorLimitReached] holds, the
    integrator is clamped to plus or minus [errorGyroIfLimit], which stays as
    it was, and otherwise [errorGyroIfLimit] becomes the absolute value of the
    integrator.  In every state that a sequence of calls of the entry points
    of [pid.c] reaches from the zero-initialised statics without a gain
    refresh meeting a zero divisor, [errorGyroIfLimit >= 0] on every axis. *)
Theorem integrator_back_calculation_and_envelope (pp : pidProfile_t) (e : env_t)
    (s : pidState_t) (axis : flight_dynamics_index_t) :
  let s' := fst (pidApplyRateController pp e s axis) in
  let rateError := (rateTarget s - gyroRate s)%Q in
  let u := ((fst (rc_newPTerm pp e s axis) + fst (fst (rc_newDTerm pp e s axis)))
              * pidAttenuationFactor e + errorGyroIf s)%Q in
  let uLim := constrainf u (-1000) 1000 in
  let I := (errorGyroIf s + (rateError * kI s * dT e + (uLim - u) * kT s * dT e))%Q in
  (if ANTI_WINDUP e || motorLimitReached e
   then errorGyroIf s' = constrainf I (- errorGyroIfLimit s) (errorGyroIfLimit s)
        /\ errorGyroIfLimit s' = errorGyroIfLimit s
   else errorGyroIf s' = I /\ errorGyroIfLimit s' = ABSf I) /\
  (forall (cs : list call_t) (g : globals_t),
     run cs globalsZero = Some g ->
     forall a, (0 <= errorGyroIfLimit (pidState g a))%Q).
Proof.
  cbv zeta. split.
  - pose proof (pidApplyRateController_integrator pp e s axis) as E.
    cbv zeta in E. unfold spec_envelope, spec_integrate in E.
    destruct (ANTI_WINDUP e || motorLimitReached e);
      injection E as E1 E2; split; assumption.
  - intros cs g H. exact (run_envelope cs globalsZero g globalsZero_envelope H).
Qed.

(** ** The integrator when [kT] is not a number *)

(** On numbers the binary32 reading is the rational one. *)
Lemma calc_kT_ieee_number (pp : pidProfile_t) (axis : flight_dynamics_index_t)
    (p i d t : float) :
  calc_kT pp axis p i d = Some t -> calc_kT_ieee pp axis p i d = Num t.
Proof.
  unfold calc_kT, calc_kT_ieee, fdiv. destruct (kT_guard pp axis).
  - cbn [xdiv xadd]. destruct (Qeq_bool i 0); [discriminate|]. cbn [obind].
    destruct (Qeq_bool p 0); [discriminate|]. cbn [obind xadd xdiv].
    destruct (Qeq_bool (p / i + d / p) 0); [discriminate|].
    intros H. injection H as <-. reflexivity.
  - intros H. injection H as <-. reflexivity.
Qed.

Lemma integrate_ieee_number (I rateError kI_ kT_ dT_ u uLim : float) :
  integrate_ieee (Num I) rateError kI_ dT_ u uLim (Num kT_) =
  Num (spec_integrate I rateError kI_ kT_ dT_ u uLim).
Proof. reflexivity. Qed.

Lemma envelope_ieee_number (frozen : bool) (I limit : float) :
  envelope_ieee frozen (Num I) (Num limit) =
  (Num (fst (spec_envelope frozen I limit)), Num (snd (spec_envelope frozen I limit))).
Proof.
  unfold envelope_ieee, spec_envelope, xconstrainf, constrainf, xABS, ABSf.
  destruct frozen; cbn [xopp xlt fst snd].
  - destruct (Qlt_bool I (- limit)); [reflexivity|].
    destruct (Qlt_bool limit I); reflexivity.
  - destruct (Qlt_bool 0 I); reflexivity.
Qed.

(** The step of the model is the binary32 step on the numbers it holds. *)
Lemma pidApplyRateController_ieee (pp : pidProfile_t) (e : env_t) (s : pidState_t)
    (axis : flight_dynamics_index_t) :
  let s' := fst (pidApplyRateController pp e s axis) in
  envelope_ieee (ANTI_WINDUP e || motorLimitReached e)
    (integrate_ieee (Num (errorGyroIf s)) (rc_rateError s) (kI s) (dT e)
       (rc_newOutput pp e s axis) (rc_newOutputLimited pp e s axis) (Num (kT s)))
    (Num (errorGyroIfLimit s)) =
  (Num (errorGyroIf s'), Num (errorGyroIfLimit s')).
Proof.
  cbv zeta. rewrite integrate_ieee_number, envelope_ieee_number.
  pose proof (pidApplyRateController_integrator pp e s axis) as E. cbv zeta in E.
  unfold rc_rateError. rewrite <- E. reflexivity.
Qed.

(** C3 (the code at the failing input).  The gain refresh at
    [dynThrPID = 100] and throttle 2000, with [P8 = 40], [I8 = 30] and
    [D8 = 23] on the roll axis, computes [kT = 2 / (kP/kI + kD/kP)] with
    [kP = kD = 0]: in binary32 that is [2 / (0 + 0/0)], which is NaN.  The
    next step of the rate controller on that axis, from whatever numbers the
    integrator and its envelope hold, adds [(uLim - u) * kT * dT] to the
    integrator, which makes it NaN; with [ANTI_WINDUP] clear and the motors
    not at their limit the envelope becomes [ABS(NaN)], which is NaN, and
    [errorGyroIfLimit >= 0] is false. *)
Theorem envelope_not_a_number_after_full_attenuation (e : env_t) (s : pidState_t)
    (kdAtt : float) :
  ANTI_WINDUP e || motorLimitReached e = false ->
  let pp := uniformProfile 40 30 23 in
  let crc := rateProfile 100 1500 in
  let tpa := calc_tpaFactor crc 2000 in
  let kT_ := calc_kT_ieee pp FD_ROLL (axis_kP pp tpa FD_ROLL) (axis_kI pp FD_ROLL)
               (axis_kD pp tpa kdAtt FD_ROLL) in
  let I := integrate_ieee (Num (errorGyroIf s)) (rc_rateError s) (kI s) (dT e)
             (rc_newOutput pp e s FD_ROLL) (rc_newOutputLimited pp e s FD_ROLL) kT_ in
  let r := envelope_ieee (ANTI_WINDUP e || motorLimitReached e) I
             (Num (errorGyroIfLimit s)) in
  kT_ = NaN /\
  I = NaN /\
  r = (NaN, NaN) /\
  xle (Num 0%Q) (snd r) = false.
Proof.
  intros F. cbv zeta. rewrite F.
  assert (K : calc_kT_ieee (uniformProfile 40 30 23) FD_ROLL
                (axis_kP (uniformProfile 40 30 23)
                   (calc_tpaFactor (rateProfile 100 1500) 2000) FD_ROLL)
                (axis_kI (uniformProfile 40 30 23) FD_ROLL)
                (axis_kD (uniformProfile 40 30 23)
                   (calc_tpaFactor (rateProfile 100 1500) 2000) kdAtt FD_ROLL) = NaN)
    by (vm_compute; reflexivity).
  rewrite K. unfold integrate_ieee, envelope_ieee. cbn [xmul xadd xABS xlt xopp snd xle].
  repeat split; reflexivity.
Qed.

(** * Further properties of the inner controller *)

(** ** Rate stick conversion *)

(** X1.  Take a stick command (an [int16_t]) and a rate profile value (a
    [uint8_t]) whose product [(rate + 20) * stick] is a multiple of 50, as it
    is for every rate at full stick 500 or -500.  Then [pidRcCommandToRate]
    gives the whole number [(rate + 20) * stick / 50], the operands and
    results of both conversions are integers below [2^24] in magnitude, which
    binary32 holds without rounding, and [pidRateToRcCommand] gives the stick
    command back. *)
Theorem rate_command_round_trip (stick rate : Z) :
  is_int16 stick -> is_uint8 rate ->
  Z.rem ((rate + 20) * stick) 50 = 0 ->
  let k := Z.quot ((rate + 20) * stick) 50 in
  (pidRcCommandToRate stick rate == inject_Z k)%Q /\
  (inject_Z k * 50 == inject_Z ((rate + 20) * stick))%Q /\
  Z.abs ((rate + 20) * stick) < 2 ^ 24 /\
  Z.abs k < 2 ^ 24 /\
  (pidRateToRcCommand (inject_Z k) rate == inject_Z stick)%Q /\
  (pidRateToRcCommand (pidRcCommandToRate stick rate) rate == inject_Z stick)%Q.
Proof.
  intros [S0 S1] [R0 R1] D k.
  assert (E : (rate + 20) * stick = 50 * k).
  { subst k. pose proof (Z.quot_rem' ((rate + 20) * stick) 50) as Q. lia. }
  assert (N : ~ (inject_Z rate + 20 == 0)%Q).
  { intros C.
    assert (P : (0 <= inject_Z rate)%Q)
      by (change 0%Q with (inject_Z 0); rewrite <- Zle_Qle; exact R0).
    lra. }
  assert (B : Z.abs ((rate + 20) * stick) < 2 ^ 24).
  { change (2 ^ 24) with 16777216. rewrite Z.abs_mul. nia. }
  assert (A : (pidRcCommandToRate stick rate == inject_Z k)%Q).
  { unfold pidRcCommandToRate. rewrite E, inject_Z_mult.
    change (inject_Z 50) with 50%Q. field. }
  assert (C : (pidRateToRcCommand (inject_Z k) rate == inject_Z stick)%Q).
  { unfold pidRateToRcCommand.
    assert (E' : (inject_Z k * 50 == (inject_Z rate + 20) * inject_Z stick)%Q).
    { change 20%Q with (inject_Z 20). change 50%Q with (inject_Z 50).
      rewrite <- inject_Z_plus, <- !inject_Z_mult. rewrite E.
      rewrite (Z.mul_comm 50 k). reflexivity. }
    rewrite E'. field. exact N. }
  split; [exact A|]. split.
  { change 50%Q with (inject_Z 50). rewrite <- inject_Z_mult, E.
    rewrite (Z.mul_comm 50 k). reflexivity. }
  split; [exact B|]. split.
  { change (2 ^ 24) with 16777216 in *. rewrite E in B. lia. }
  split; [exact C|].
  unfold pidRateToRcCommand in *. rewrite A. exact C.
Qed.

(** ** Gains under attenuation *)

Lemma constrainf_id (x lo hi : float) :
  (lo <= x)%Q -> (x <= hi)%Q -> constrainf x lo hi = x.
Proof.
  intros L H. unfold constrainf, Qlt_bool.
  apply Qle_bool_iff in L. apply Qle_bool_iff in H. rewrite L, H. reflexivity.
Qed.

Lemma calc_tpaFactor_range (crc : controlRateConfig_t) (thr : Z) :
  0 <= dynThrPID crc <= 100 -> is_uint16 (tpa_breakpoint crc) ->
  (0 <= calc_tpaFactor crc thr <= 1)%Q.
Proof.
  intros Hd Hb. unfold is_uint16 in Hb. unfold calc_tpaFactor.
  destruct ((dynThrPID crc =? 0) || (thr <? tpa_breakpoint crc)) eqn:E1.
  - split; [discriminate | apply Qle_refl].
  - apply orb_false_iff in E1. destruct E1 as [E0 E1]. apply Z.ltb_ge in E1.
    destruct (thr <? 2000) eqn:E2.
    + apply Z.ltb_lt in E2. rewrite to_uint16_id by lia.
      set (n := dynThrPID crc * (thr - tpa_breakpoint crc)).
      set (m := 2000 - tpa_breakpoint crc).
      assert (Hq : 0 <= Z.quot n m <= 100).
      { subst n m. rewrite Z.quot_div_nonneg by nia. split.
        - apply Z.div_pos; nia.
        - apply Z.div_le_upper_bound; nia. }
      unfold Qle, Qdiv, Qmult, Qinv, inject_Z. cbn [Qnum Qden]. lia.
    + unfold Qle, Qdiv, Qmult, Qinv, inject_Z. cbn [Qnum Qden]. lia.
Qed.

Lemma calc_tpaFactor_positive (crc : controlRateConfig_t) (thr : Z) :
  0 <= dynThrPID crc < 100 -> is_uint16 (tpa_breakpoint crc) ->
  (0 < calc_tpaFactor crc thr)%Q.
Proof.
  intros Hd Hb. unfold is_uint16 in Hb. unfold calc_tpaFactor.
  destruct ((dynThrPID crc =? 0) || (thr <? tpa_breakpoint crc)) eqn:E1.
  - reflexivity.
  - apply orb_false_iff in E1. destruct E1 as [E0 E1]. apply Z.ltb_ge in E1.
    destruct (thr <? 2000) eqn:E2.
    + apply Z.ltb_lt in E2. rewrite to_uint16_id by lia.
      set (n := dynThrPID crc * (thr - tpa_breakpoint crc)).
      set (m := 2000 - tpa_breakpoint crc).
      assert (Hq : Z.quot n m < 100).
      { subst n m. rewrite Z.quot_div_nonneg by nia.
        apply Z.div_lt_upper_bound; nia. }
      unfold Qlt, Qdiv, Qmult, Qinv, inject_Z. cbn [Qnum Qden]. lia.
    + unfold Qlt, Qdiv, Qmult, Qinv, inject_Z. cbn [Qnum Qden]. lia.
Qed.

Lemma calc_relThrottle_range (rx : rxConfig_t) (thr : Z) (rel : float) :
  calc_relThrottle rx thr = Some rel -> (0 <= rel <= 1)%Q.
Proof.
  unfold calc_relThrottle. intros H.
  destruct (fdiv _ _) as [r|]; cbn [obind] in H; [|discriminate].
  injection H as <-. apply constrainf_bounds. discriminate.
Qed.

Lemma calc_kdAttenuationFactor_range (rel : float) :
  (0 <= rel)%Q -> (1 # 2 <= calc_kdAttenuationFactor rel <= 1)%Q.
Proof.
  intros H. unfold calc_kdAttenuationFactor.
  destruct (Qlt_bool rel KD_ATTENUATION_BREAK) eqn:E.
  - apply Qlt_bool_true in E. unfold KD_ATTENUATION_BREAK in *.
    assert (D : (rel / (25 # 100) == 4 * rel)%Q) by (field).
    unfold constrainf.
    destruct (Qlt_bool (rel / (25 # 100) + (50 # 100)) 0) eqn:E1.
    + apply Qlt_bool_true in E1. rewrite D in E1. lra.
    + destruct (Qlt_bool 1 (rel / (25 # 100) + (50 # 100))) eqn:E2.
      * split; [discriminate | apply Qle_refl].
      * apply Qlt_bool_false in E2. rewrite D in *. split; [lra | exact E2].
  - split; [discriminate | apply Qle_refl].
Qed.

Lemma inject_Z_nonneg (z : Z) : 0 <= z -> (0 <= inject_Z z)%Q.
Proof. intros H. change 0%Q with (inject_Z 0). rewrite <- Zle_Qle. exact H. Qed.

Lemma inject_Z_pos (z : Z) : 0 < z -> (0 < inject_Z z)%Q.
Proof. intros H. change 0%Q with (inject_Z 0). rewrite <- Zlt_Qlt. exact H. Qed.

(** X9.  With [dynThrPID] at most 100, the TPA factor lies between 0 and 1
    and the throttle-based kD attenuation between 1/2 and 1: on every axis
    the refreshed [kP] and [kD] lie between 0 and their base values
    [P8/40] and [D8/4000], and on the yaw axis they are the base values
    whatever the throttle. *)
Theorem attenuation_never_amplifies (pp : pidProfile_t) (crc : controlRateConfig_t)
    (rx : rxConfig_t) (thr : Z) (rel : float) (axis : flight_dynamics_index_t) :
  0 <= dynThrPID crc <= 100 -> is_uint16 (tpa_breakpoint crc) ->
  0 <= P8 pp (pidIndex_of_axis axis) -> 0 <= D8 pp (pidIndex_of_axis axis) ->
  calc_relThrottle rx thr = Some rel ->
  let tpa := calc_tpaFactor crc thr in
  let kdAtt := calc_kdAttenuationFactor rel in
  (0 <= tpa <= 1)%Q /\ (1 # 2 <= kdAtt <= 1)%Q /\
  (0 <= axis_kP pp tpa axis <= inject_Z (P8 pp (pidIndex_of_axis axis)) / 40)%Q /\
  (0 <= axis_kD pp tpa kdAtt axis <= inject_Z (D8 pp (pidIndex_of_axis axis)) / 4000)%Q /\
  axis_kP pp tpa FD_YAW = (inject_Z (P8 pp PIDYAW) / 40)%Q /\
  axis_kD pp tpa kdAtt FD_YAW = (inject_Z (D8 pp PIDYAW) / 4000)%Q.
Proof.
  intros Hd Hb HP HD Hrel tpa kdAtt.
  pose proof (calc_tpaFactor_range crc thr Hd Hb) as Ht. fold tpa in Ht.
  pose proof (calc_relThrottle_range rx thr rel Hrel) as Hr.
  pose proof (calc_kdAttenuationFactor_range rel (proj1 Hr)) as Hk. fold kdAtt in Hk.
  split; [exact Ht|]. split; [exact Hk|].
  assert (BP : (0 <= inject_Z (P8 pp (pidIndex_of_axis axis)) / 40)%Q).
  { apply Qle_shift_div_l; [reflexivity|]. pose proof (inject_Z_nonneg _ HP). lra. }
  assert (BD : (0 <= inject_Z (D8 pp (pidIndex_of_axis axis)) / 4000)%Q).
  { apply Qle_shift_div_l; [reflexivity|]. pose proof (inject_Z_nonneg _ HD). lra. }
  split; [|split; [|split; reflexivity]].
  - unfold axis_kP, FP_PID_RATE_P_MULTIPLIER.
    destruct (negb (axis_eqb axis FD_YAW)); [nra | lra].
  - unfold axis_kD, FP_PID_RATE_D_MULTIPLIER.
    destruct (negb (axis_eqb axis FD_YAW)); [|lra].
    set (b := (inject_Z (D8 pp (pidIndex_of_axis axis)) / 4000)%Q) in *.
    assert (0 <= tpa * kdAtt <= 1)%Q by nra. nra.
Qed.

(** ** The gain refresh away from full attenuation *)

Lemma fdiv_nonzero (a b : float) : ~ (b == 0)%Q -> fdiv a b = Some (a / b)%Q.
Proof.
  intros H. unfold fdiv. destruct (Qeq_bool b 0) eqn:E; [|reflexivity].
  apply Qeq_bool_iff in E. contradiction.
Qed.

Lemma calc_kT_defined (pp : pidProfile_t) (axis : flight_dynamics_index_t)
    (p i d : float) :
  (kT_guard pp axis = true -> (0 < p)%Q /\ (0 < i)%Q /\ (0 <= d)%Q) ->
  exists t, calc_kT pp axis p i d = Some t /\
            (kT_guard pp axis = true -> t = (2 / (p / i + d / p))%Q /\ (0 < t)%Q) /\
            (kT_guard pp axis = false -> t = 0%Q).
Proof.
  intros H. unfold calc_kT. destruct (kT_guard pp axis).
  - destruct (H eq_refl) as (Hp & Hi & Hd).
    rewrite (fdiv_nonzero p i) by lra. cbn [obind].
    rewrite (fdiv_nonzero d p) by lra. cbn [obind].
    assert (A : (0 < p / i)%Q) by (apply Qlt_shift_div_l; lra).
    assert (B : (0 <= d / p)%Q) by (apply Qle_shift_div_l; lra).
    rewrite fdiv_nonzero by lra.
    eexists. split; [reflexivity|]. split; [|discriminate].
    intros _. split; [reflexivity|]. apply Qlt_shift_div_l; lra.
  - exists 0%Q. split; [reflexivity|]. split; [discriminate | reflexivity].
Qed.

Lemma kT_guard_true (pp : pidProfile_t) (axis : flight_dynamics_index_t) :
  kT_guard pp axis = true ->
  P8 pp (pidIndex_of_axis axis) <> 0 /\ I8 pp (pidIndex_of_axis axis) <> 0.
Proof.
  unfold kT_guard. intros G. apply andb_true_iff in G. destruct G as [Gp Gi].
  apply negb_true_iff in Gp. apply negb_true_iff in Gi.
  apply Z.eqb_neq in Gp. apply Z.eqb_neq in Gi. split; assumption.
Qed.

Definition gains_nonneg (pp : pidProfile_t) : Prop :=
  forall i, 0 <= P8 pp i /\ 0 <= I8 pp i /\ 0 <= D8 pp i.

Lemma axis_gains_sign (pp : pidProfile_t) (tpa kdAtt : float)
    (axis : flight_dynamics_index_t) :
  gains_nonneg pp -> (0 < tpa)%Q -> (0 <= kdAtt)%Q -> kT_guard pp axis = true ->
  (0 < axis_kP pp tpa axis)%Q /\ (0 < axis_kI pp axis)%Q /\ (0 <= axis_kD pp tpa kdAtt axis)%Q.
Proof.
  intros Hn Ht Hk G. destruct (kT_guard_true pp axis G) as [Gp Gi].
  destruct (Hn (pidIndex_of_axis axis)) as (HP & HI & HD).
  assert (BP : (0 < inject_Z (P8 pp (pidIndex_of_axis axis)) / 40)%Q).
  { apply Qlt_shift_div_l; [reflexivity|].
    pose proof (inject_Z_pos (P8 pp (pidIndex_of_axis axis)) ltac:(lia)). lra. }
  assert (BI : (0 < inject_Z (I8 pp (pidIndex_of_axis axis)) / 10)%Q).
  { apply Qlt_shift_div_l; [reflexivity|].
    pose proof (inject_Z_pos (I8 pp (pidIndex_of_axis axis)) ltac:(lia)). lra. }
  assert (BD : (0 <= inject_Z (D8 pp (pidIndex_of_axis axis)) / 4000)%Q).
  { apply Qle_shift_div_l; [reflexivity|]. pose proof (inject_Z_nonneg _ HD). lra. }
  split; [|split].
  - unfold axis_kP, FP_PID_RATE_P_MULTIPLIER.
    destruct (negb (axis_eqb axis FD_YAW)); [nra | exact BP].
  - exact BI.
  - unfold axis_kD, FP_PID_RATE_D_MULTIPLIER.
    destruct (negb (axis_eqb axis FD_YAW)); [|exact BD].
    assert (0 <= tpa * kdAtt)%Q by nra. nra.
Qed.

Lemma updateAxisCoefficients_defined (pp : pidProfile_t) (tpa kdAtt : float)
    (g : globals_t) (axis : flight_dynamics_index_t) :
  gains_nonneg pp -> (0 < tpa)%Q -> (0 <= kdAtt)%Q ->
  exists t,
    updateAxisCoefficients pp tpa kdAtt g axis =
      Some (set_pidState g axis
              (set_gains (pidState g axis) (axis_kP pp tpa axis) (axis_kI pp axis)
                 (axis_kD pp tpa kdAtt axis) t)) /\
    (kT_guard pp axis = true ->
       t = (2 / (axis_kP pp tpa axis / axis_kI pp axis
                 + axis_kD pp tpa kdAtt axis / axis_kP pp tpa axis))%Q /\ (0 < t)%Q) /\
    (kT_guard pp axis = false -> t = 0%Q).
Proof.
  intros Hn Ht Hk.
  destruct (calc_kT_defined pp axis (axis_kP pp tpa axis) (axis_kI pp axis)
              (axis_kD pp tpa kdAtt axis) (axis_gains_sign pp tpa kdAtt axis Hn Ht Hk))
    as (t & E & T1 & T0).
  exists t. unfold updateAxisCoefficients. rewrite E. cbn [obind].
  split; [reflexivity|]. split; assumption.
Qed.

(** X8.  When the three rate gains of every axis are non-negative,
    [dynThrPID] is below 100 and [maxcheck] differs from [mincheck], the gain
    refresh meets no zero divisor.  It leaves on every axis
    [kT = 2 / (kP/kI + kD/kP)], a positive number, when [P8] and [I8] of the
    axis are both nonzero, and [kT = 0] otherwise; the integrator and its
    envelope are not touched. *)
Theorem gain_refresh_defined (pp : pidProfile_t) (crc : controlRateConfig_t)
    (rx : rxConfig_t) (e : env_t) (g : globals_t) :
  gains_nonneg pp -> 0 <= dynThrPID crc < 100 -> is_uint16 (tpa_breakpoint crc) ->
  mincheck rx <> maxcheck rx ->
  exists g',
    updatePIDCoefficients pp crc rx e g = Some g' /\
    forall axis,
      (kT_guard pp axis = true ->
         kT (pidState g' axis) =
           (2 / (kP (pidState g' axis) / kI (pidState g' axis)
                 + kD (pidState g' axis) / kP (pidState g' axis)))%Q
         /\ (0 < kT (pidState g' axis))%Q) /\
      (kT_guard pp axis = false -> kT (pidState g' axis) = 0%Q) /\
      errorGyroIf (pidState g' axis) = errorGyroIf (pidState g axis) /\
      errorGyroIfLimit (pidState g' axis) = errorGyroIfLimit (pidState g axis).
Proof.
  intros Hn Hd Hb Hc. unfold updatePIDCoefficients.
  assert (Hrel : exists rel, calc_relThrottle rx (rcData_THROTTLE e) = Some rel).
  { unfold calc_relThrottle. rewrite fdiv_nonzero.
    - eexists. reflexivity.
    - unfold Qeq, Qminus, Qplus, Qopp, inject_Z. cbn [Qnum Qden]. lia. }
  destruct Hrel as [rel Hrel]. rewrite Hrel. cbn [obind].
  pose proof (calc_tpaFactor_positive crc (rcData_THROTTLE e) Hd Hb) as Ht.
  pose proof (calc_relThrottle_range _ _ _ Hrel) as Hr.
  pose proof (calc_kdAttenuationFactor_range rel (proj1 Hr)) as Hk.
  assert (Hk0 : (0 <= calc_kdAttenuationFactor rel)%Q) by lra.
  set (tpa := calc_tpaFactor crc (rcData_THROTTLE e)) in *.
  set (kd := calc_kdAttenuationFactor rel) in *.
  set (g0 := set_tpaFactor g tpa).
  unfold all_axes. cbn [fold_left obind].
  change (tpaFactor g0) with tpa.
  destruct (updateAxisCoefficients_defined pp tpa kd g0 FD_ROLL Hn Ht Hk0)
    as (t1 & E1 & R1 & R1').
  rewrite E1. cbn [obind]. set (g1 := set_pidState g0 FD_ROLL _) in *.
  change (tpaFactor g1) with tpa.
  destruct (updateAxisCoefficients_defined pp tpa kd g1 FD_PITCH Hn Ht Hk0)
    as (t2 & E2 & R2 & R2').
  rewrite E2. cbn [obind]. set (g2 := set_pidState g1 FD_PITCH _) in *.
  change (tpaFactor g2) with tpa.
  destruct (updateAxisCoefficients_defined pp tpa kd g2 FD_YAW Hn Ht Hk0)
    as (t3 & E3 & R3 & R3').
  rewrite E3. eexists. split; [reflexivity|].
  intros axis. destruct axis; cbn; repeat split; auto;
    match goal with
    | G : kT_guard _ _ = true |- _ =>
        first [ exact (proj1 (R1 G)) | exact (proj2 (R1 G))
              | exact (proj1 (R2 G)) | exact (proj2 (R2 G))
              | exact (proj1 (R3 G)) | exact (proj2 (R3 G)) ]
    end.
Qed.

(** ** The integrator stays inside its envelope *)















(** A gain refresh that meets no zero divisor: gains that are not
    negative (they are [uint8_t]), [dynThrPID] below 100, a break point in the
    range of its [uint16_t] and [maxcheck] apart from [mincheck].  The other
    entry points divide by nothing. *)
Definition refresh_well_configured (c : call_t) : Prop :=
  match c with
  | CallUpdatePIDCoefficients pp crc rx e =>
      gains_nonneg pp /\ 0 <= dynThrPID crc < 100 /\ is_uint16 (tpa_breakpoint crc) /\
      mincheck rx <> maxcheck rx
  | _ => True
  end.

Lemma updateAxes_defined (pp : pidProfile_t) (tpa kdAtt : float)
    (axes : list flight_dynamics_index_t) (g : globals_t) :
  gains_nonneg pp -> (0 < tpa)%Q -> (0 <= kdAtt)%Q -> tpaFactor g = tpa ->
  exists g',
    fold_left
      (fun og axis => g <- og ;; updateAxisCoefficients pp (tpaFactor g) kdAtt g axis)
      axes (Some g) = Some g'.
Proof.
  intros Hn Ht Hk. revert g. induction axes as [|a axes IH]; intros g T.
  - exists g. reflexivity.
  - cbn [fold_left obind]. rewrite T.
    destruct (updateAxisCoefficients_defined pp tpa kdAtt g a Hn Ht Hk) as (t & E & _).
    rewrite E. apply IH. exact T.
Qed.

Lemma updatePIDCoefficients_defined (pp : pidProfile_t) (crc : controlRateConfig_t)
    (rx : rxConfig_t) (e : env_t) (g : globals_t) :
  refresh_well_configured (CallUpdatePIDCoefficients pp crc rx e) ->
  exists g', updatePIDCoefficients pp crc rx e g = Some g'.
Proof.
  intros (Hn & Hd & Hb & Hc). unfold updatePIDCoefficients.
  assert (Hrel : exists rel, calc_relThrottle rx (rcData_THROTTLE e) = Some rel).
  { unfold calc_relThrottle. rewrite fdiv_nonzero.
    - eexists. reflexivity.
    - unfold Qeq, Qminus, Qplus, Qopp, inject_Z. cbn [Qnum Qden]. lia. }
  destruct Hrel as [rel Hrel]. rewrite Hrel. cbn [obind].
  pose proof (calc_tpaFactor_positive crc (rcData_THROTTLE e) Hd Hb) as Ht.
  pose proof (calc_relThrottle_range _ _ _ Hrel) as Hr.
  pose proof (calc_kdAttenuationFactor_range rel (proj1 Hr)) as Hk.
  apply (updateAxes_defined pp (calc_tpaFactor crc (rcData_THROTTLE e))).
  - exact Hn.
  - exact Ht.
  - lra.
  - reflexivity.
Qed.

Lemma run_defined (cs : list call_t) (g : globals_t) :
  Forall refresh_well_configured cs -> exists g', run cs g = Some g'.
Proof.
  intros W. revert g. induction W as [|c cs Hc W IH]; intros g.
  - exists g. reflexivity.
  - cbn [run].
    assert (D : exists g1, do_call c g = Some g1).
    { destruct c as [|pp crc rx e|pp crc rx e|h]; cbn [do_call];
        try (eexists; reflexivity).
      apply updatePIDCoefficients_defined. exact Hc. }
    destruct D as [g1 D]. rewrite D. cbn [obind]. apply IH.
Qed.

(** The envelope over the same histories: whatever sequence of calls with
    well-configured refreshes the scheduler makes, the model follows it to its
    end and [errorGyroIfLimit >= 0] holds on every axis there. *)
Lemma envelope_nonneg_over_histories (cs : list call_t) :
  Forall refresh_well_configured cs ->
  exists g, run cs globalsZero = Some g /\
            forall a, (0 <= errorGyroIfLimit (pidState g a))%Q.
Proof.
  intros W. destruct (run_defined cs globalsZero W) as [g E].
  exists g. split; [exact E|].
  exact (run_envelope cs globalsZero g globalsZero_envelope E).
Qed.


(** ** The rate controller away from saturation *)

Lemma Qlt_bool_compat_l (x y a : Q) : (x == y)%Q -> Qlt_bool x a = Qlt_bool y a.
Proof. intros H. unfold Qlt_bool. rewrite H. reflexivity. Qed.

Lemma Qlt_bool_compat_r (x y a : Q) : (x == y)%Q -> Qlt_bool a x = Qlt_bool a y.
Proof. intros H. unfold Qlt_bool. rewrite H. reflexivity. Qed.

Lemma constrainf_compat (x y lo hi : float) :
  (x == y)%Q -> (constrainf x lo hi == constrainf y lo hi)%Q.
Proof.
  intros H. unfold constrainf.
  rewrite (Qlt_bool_compat_l x y lo H), (Qlt_bool_compat_r x y hi H).
  destruct (Qlt_bool y lo); [reflexivity|].
  destruct (Qlt_bool hi y); [reflexivity | exact H].
Qed.

Lemma constrainf_below (x lo hi : float) :
  (x <= lo)%Q -> (lo <= hi)%Q -> (constrainf x lo hi == lo)%Q.
Proof.
  intros H L. unfold constrainf.
  destruct (Qlt_bool x lo) eqn:E1; [reflexivity|].
  apply Qlt_bool_false in E1.
  destruct (Qlt_bool hi x) eqn:E2.
  - apply Qlt_bool_true in E2. lra.
  - lra.
Qed.

(** X3.  While the unclamped output [(P + D) * attenuation + I] is within
    [-1000, +1000], the step stores its integer part in [axisPID], and for
    every [kT] that is a number the back-calculation term vanishes: the
    integrator moves by [rateError * kI * dT] alone before the envelope is
    applied.  For a [kT] that is infinite or NaN the term is [0 * kT], which
    is NaN, and the integrator becomes NaN. *)
Theorem unsaturated_step_integrates_error_only (pp : pidProfile_t) (e : env_t)
    (s : pidState_t) (axis : flight_dynamics_index_t) :
  (-1000 <= rc_newOutput pp e s axis <= 1000)%Q ->
  let s' := fst (pidApplyRateController pp e s axis) in
  let I := (errorGyroIf s + (rateTarget s - gyroRate s) * kI s * dT e)%Q in
  snd (pidApplyRateController pp e s axis) = Qtrunc (rc_newOutput pp e s axis) /\
  (errorGyroIf s' ==
   if ANTI_WINDUP e || motorLimitReached e
   then constrainf I (- errorGyroIfLimit s) (errorGyroIfLimit s)
   else I)%Q /\
  (forall t : xfloat,
     let I' := integrate_ieee (Num (errorGyroIf s)) (rc_rateError s) (kI s) (dT e)
                 (rc_newOutput pp e s axis) (rc_newOutputLimited pp e s axis) t in
     match t with
     | Num _ => exists q, I' = Num q /\ (q == I)%Q
     | _ => I' = NaN
     end).
Proof.
  intros [Hlo Hhi]. cbv zeta.
  assert (L : rc_newOutputLimited pp e s axis = rc_newOutput pp e s axis).
  { unfold rc_newOutputLimited. apply constrainf_id; assumption. }
  split; [|split].
  - rewrite pidApplyRateController_output, L. unfold float_to_int16.
    apply to_int16_id.
    pose proof (Qtrunc_bounds (rc_newOutput pp e s axis) (-1000) 1000 Hlo Hhi). lia.
  - pose proof (pidApplyRateController_integrator pp e s axis) as E.
    cbv zeta in E. unfold spec_envelope, spec_integrate in E. rewrite L in E.
    assert (Q0 : (errorGyroIf s
                  + ((rateTarget s - gyroRate s) * kI s * dT e
                     + (rc_newOutput pp e s axis - rc_newOutput pp e s axis) * kT s * dT e)
                  == errorGyroIf s + (rateTarget s - gyroRate s) * kI s * dT e)%Q) by ring.
    destruct (ANTI_WINDUP e || motorLimitReached e); injection E as -> _.
    + apply constrainf_compat. exact Q0.
    + exact Q0.
  - intros t. rewrite L. unfold integrate_ieee, rc_rateError.
    assert (Z0 : Qeq_bool (rc_newOutput pp e s axis - rc_newOutput pp e s axis) 0 = true)
      by (apply Qeq_bool_iff; ring).
    destruct t as [k| | |].
    + eexists. split; [reflexivity|]. ring.
    + cbn [xmul]. unfold xscale. rewrite Z0. reflexivity.
    + cbn [xmul]. unfold xscale. rewrite Z0. reflexivity.
    + reflexivity.
Qed.

(** ** Heading lock *)

Lemma ABSf_Qabs (x : float) : (ABSf x == Qabs x)%Q.
Proof.
  unfold ABSf. destruct (Qlt_bool 0 x) eqn:E.
  - apply Qlt_bool_true in E. symmetry. apply Qabs_pos. lra.
  - apply Qlt_bool_false in E. symmetry. apply Qabs_neg. exact E.
Qed.

(** X4.  The heading-lock accumulator never leaves [-45, +45].  While the
    craft is disarmed or the commanded yaw rate exceeds 2 dps in magnitude the
    accumulator is cleared and the rate target is left alone; otherwise the
    rate target is replaced by [accumulator * P8[PIDMAG] / 80], of magnitude
    at most [45 * P8[PIDMAG] / 80]. *)
Theorem heading_lock_accumulator_bounded (pp : pidProfile_t) (e : env_t) (s : pidState_t) :
  0 <= P8 pp PIDMAG ->
  let s' := pidApplyHeadingLock pp e s in
  (-45 <= axisLockAccum s' <= 45)%Q /\
  (ARMED e = false \/ (2 < Qabs (rateTarget s))%Q ->
     axisLockAccum s' = 0%Q /\ rateTarget s' = rateTarget s) /\
  (ARMED e = true -> (Qabs (rateTarget s) <= 2)%Q ->
     axisLockAccum s' =
       constrainf (axisLockAccum s + (rateTarget s - gyroRate s) * dT e)%Q (-45) 45 /\
     rateTarget s' = (axisLockAccum s' * (inject_Z (P8 pp PIDMAG) / 80))%Q /\
     (Qabs (rateTarget s') <= 45 * (inject_Z (P8 pp PIDMAG) / 80))%Q).
Proof.
  intros HP. cbv zeta. unfold pidApplyHeadingLock.
  assert (B : forall x, (-45 <= constrainf x (-45) 45 <= 45)%Q).
  { intros x. apply constrainf_bounds. discriminate. }
  destruct (Qlt_bool 2 (ABSf (rateTarget s))) eqn:E1.
  - apply Qlt_bool_true in E1. rewrite ABSf_Qabs in E1. cbn [axisLockAccum rateTarget gyroRate set_axisLockAccum set_rateTarget set_rates orb negb].
    split; [split; discriminate|]. split; [intros _; split; reflexivity|].
    intros _ H. lra.
  - apply Qlt_bool_false in E1. rewrite ABSf_Qabs in E1.
    destruct (ARMED e) eqn:E2; cbn [axisLockAccum rateTarget gyroRate set_axisLockAccum set_rateTarget set_rates orb negb].
    + split; [apply B|]. split.
      * intros [C | C]; [discriminate | lra].
      * intros _ _. split; [reflexivity|]. split; [reflexivity|].
        set (acc := constrainf _ (-45) 45). pose proof (B (axisLockAccum s
          + (rateTarget s - gyroRate s) * dT e)%Q) as Hb. fold acc in Hb.
        assert (G : (0 <= inject_Z (P8 pp PIDMAG) / 80)%Q).
        { apply Qle_shift_div_l; [reflexivity|].
          pose proof (inject_Z_nonneg _ HP). lra. }
        unfold FP_PID_YAWHOLD_P_MULTIPLIER.
        set (k := (inject_Z (P8 pp PIDMAG) / 80)%Q) in *.
        apply Qabs_Qle_condition. clearbody acc k. split; nra.
    + split; [split; discriminate|]. split; [intros _; split; reflexivity|].
      intros C. discriminate.
Qed.

(** ** Horizon mode *)

(** X5.  The horizon level strength lies between 0 and 1.  It is 0 when
    [D8[PIDLEVEL]] is 0; it is 1 when both sticks are centred; and for
    [0 < D8[PIDLEVEL] <= 100] it is 0 once either stick is deflected by 500 or
    more. *)
Theorem horizon_strength_range (pp : pidProfile_t) (rx : rxConfig_t) (e : env_t) :
  let h := calcHorizonLevelStrength pp rx e in
  let roll := getRcStickDeflection e FD_ROLL (midrc rx) in
  let pitch := getRcStickDeflection e FD_PITCH (midrc rx) in
  (0 <= h <= 1)%Q /\
  (D8 pp PIDLEVEL = 0 -> h = 0%Q) /\
  (D8 pp PIDLEVEL <> 0 -> roll = 0 -> pitch = 0 -> (h == 1)%Q) /\
  (0 < D8 pp PIDLEVEL <= 100 -> 500 <= Z.abs roll \/ 500 <= Z.abs pitch -> (h == 0)%Q).
Proof.
  cbv zeta. unfold calcHorizonLevelStrength.
  destruct (D8 pp PIDLEVEL =? 0) eqn:E0.
  - apply Z.eqb_eq in E0. split; [split; discriminate|].
    split; [reflexivity|]. split; [contradiction|]. lia.
  - apply Z.eqb_neq in E0. split; [apply constrainf_bounds; discriminate|].
    split; [contradiction|]. split.
    + intros _ -> ->. vm_compute (MAX (ABS 0) (ABS 0)).
      rewrite constrainf_id.
      * unfold Z.sub. cbn [Z.add Z.opp Z.pos_sub]. change (inject_Z 500) with 500%Q. field.
        intros C. apply E0. unfold Qeq, inject_Z in C. cbn [Qnum Qden] in C. lia.
      * assert (Z : (inject_Z (500 - 0) / 500 - 1 == 0)%Q) by reflexivity. rewrite Z. lra.
      * assert (Z : (inject_Z (500 - 0) / 500 - 1 == 0)%Q) by reflexivity. rewrite Z. lra.
    + intros HD Hfull.
      set (m := MAX (ABS (getRcStickDeflection e FD_ROLL (midrc rx)))
                    (ABS (getRcStickDeflection e FD_PITCH (midrc rx)))).
      assert (Hm : 500 <= m).
      { subst m. unfold ABS.
        destruct (0 <? getRcStickDeflection e FD_ROLL (midrc rx)) eqn:E1;
          [apply Z.ltb_lt in E1 | apply Z.ltb_ge in E1];
          (destruct (0 <? getRcStickDeflection e FD_PITCH (midrc rx)) eqn:E2;
           [apply Z.ltb_lt in E2 | apply Z.ltb_ge in E2]);
          unfold MAX;
          match goal with |- context [?a <? ?b] =>
            let E := fresh in destruct (a <? b) eqn:E;
            [apply Z.ltb_lt in E | apply Z.ltb_ge in E] end; lia. }
      apply constrainf_below; [|discriminate].
      destruct (D8 pp PIDLEVEL) as [|d|d] eqn:ED; try lia.
      unfold Qle, Qdiv, Qmult, Qminus, Qplus, Qopp, Qinv, inject_Z.
      cbn [Qnum Qden]. rewrite ?Pos2Z.inj_mul. nia.
Qed.

(** ** Mag-hold: state, target and rate *)

Lemma ABS_lt (x n : Z) : ABS x < n <-> - n < x < n.
Proof.
  unfold ABS. destruct (0 <? x) eqn:E;
    [apply Z.ltb_lt in E | apply Z.ltb_ge in E]; lia.
Qed.

(** X6.  Mag-hold is disabled exactly when there is no magnetometer or the
    craft is not within the small-angle limit.  It is enabled exactly when
    both are fine and either navigation asks for automatic heading control,
    or navigation asks for none, [MAG_MODE] is on and the yaw stick is within
    15 of centre.  In particular, while navigation holds the heading manually
    mag-hold is never enabled. *)
Theorem mag_hold_state_conditions (e : env_t) :
  (getMagHoldState e = MAG_HOLD_DISABLED <->
     sensors_MAG e = false \/ SMALL_ANGLE e = false) /\
  (getMagHoldState e = MAG_HOLD_ENABLED <->
     sensors_MAG e = true /\ SMALL_ANGLE e = true /\
     (naivationGetHeadingControlState e = NAV_HEADING_CONTROL_AUTO \/
      (naivationGetHeadingControlState e = NAV_HEADING_CONTROL_NONE /\
       MAG_MODE e = true /\ -15 < rcCommand e FD_YAW < 15))).
Proof.
  unfold getMagHoldState.
  destruct (sensors_MAG e), (SMALL_ANGLE e); cbn [negb orb];
    try (split; split; intros H;
         solve [ auto | discriminate | destruct H as [C | C]; discriminate
               | destruct H as (C1 & C2 & _); discriminate ]).
  destruct (naivationGetHeadingControlState e).
  - destruct (ABS (rcCommand e FD_YAW) <? 15) eqn:E;
      [apply Z.ltb_lt in E | apply Z.ltb_ge in E]; pose proof (ABS_lt (rcCommand e FD_YAW) 15) as A;
      destruct (MAG_MODE e); cbn [andb];
      (split; split; intros H;
       try solve [ discriminate | destruct H as [C | C]; discriminate
                 | repeat split; auto; right; repeat split; auto; lia
                 | reflexivity
                 | destruct H as (_ & _ & [C | (_ & C2 & C3)]);
                   [discriminate | first [discriminate | lia]] ]).
  - split; split; intros H;
      solve [ discriminate | destruct H as [C | C]; discriminate
            | repeat split; auto | reflexivity ].
  - split; split; intros H;
      solve [ discriminate | destruct H as [C | C]; discriminate
            | destruct H as (_ & _ & [C | (C & _)]); discriminate ].
Qed.

Lemma magHoldTarget_runAxisRateController (pp : pidProfile_t) (e : env_t) (g : globals_t)
    (axis : flight_dynamics_index_t) :
  magHoldTargetHeading (runAxisRateController pp e g axis) = magHoldTargetHeading g.
Proof.
  unfold runAxisRateController.
  destruct (pidApplyRateController pp e (pidState g axis) axis) as [s out]. reflexivity.
Qed.

Lemma magHoldTarget_readAxisTarget (pp : pidProfile_t) (crc : controlRateConfig_t)
    (e : env_t) (m : magHoldState_e) (g : globals_t) (axis : flight_dynamics_index_t) :
  magHoldTargetHeading (readAxisTarget pp crc e m g axis) = magHoldTargetHeading g.
Proof.
  unfold readAxisTarget, pidMagHold.
  destruct (filterApplyPt1 _ (magHoldRateFilter g) _ _) as [r f].
  destruct axis, m; reflexivity.
Qed.

(** X7.  A call of [pidController] latches the current yaw, in whole
    degrees, as [magHoldTargetHeading] when the mag-hold state is
    [MAG_HOLD_UPDATE_HEADING], and leaves the target as it was in the two
    other states. *)
Theorem pidController_latches_heading (pp : pidProfile_t) (crc : controlRateConfig_t)
    (rx : rxConfig_t) (e : env_t) (g : globals_t) :
  magHoldTargetHeading (pidController pp crc rx e g) =
  match getMagHoldState e with
  | MAG_HOLD_UPDATE_HEADING => to_int16 (Z.quot (attitude_raw e FD_YAW) 10)
  | MAG_HOLD_DISABLED | MAG_HOLD_ENABLED => magHoldTargetHeading g
  end.
Proof.
  unfold pidController, all_axes. cbn [fold_left].
  rewrite !magHoldTarget_runAxisRateController.
  repeat match goal with
  | |- magHoldTargetHeading (if ?c then _ else _) = _ => destruct c
  | |- magHoldTargetHeading (set_pidState _ _ _) = _ =>
      change (magHoldTargetHeading (set_pidState ?g0 ?a ?s)) with (magHoldTargetHeading g0)
  end;
  rewrite !magHoldTarget_readAxisTarget;
  destruct (getMagHoldState e); reflexivity.
Qed.

(** X10.  The rate that [pidMagHold] feeds to its low-pass filter is
    [error * P8[PIDMAG] / 30], an integer division, clamped to plus or minus
    [mag_hold_rate_limit]; the result of [pidMagHold] is the output of the
    filter on that sample. *)
Theorem mag_hold_rate_limited (pp : pidProfile_t) (e : env_t) (g : globals_t) :
  0 <= mag_hold_rate_limit pp ->
  exists sample : float,
    (Qabs sample <= inject_Z (mag_hold_rate_limit pp))%Q /\
    sample = constrainf (inject_Z (Z.quot (magHoldError e g * P8 pp PIDMAG) 30))
               (inject_Z (- mag_hold_rate_limit pp)) (inject_Z (mag_hold_rate_limit pp)) /\
    fst (pidMagHold pp e g) =
      fst (filterApplyPt1 sample (magHoldRateFilter g) 2 (dT e)) /\
    magHoldRateFilter (snd (pidMagHold pp e g)) =
      snd (filterApplyPt1 sample (magHoldRateFilter g) 2 (dT e)).
Proof.
  intros H. eexists. split; [|split; [reflexivity|]].
  - apply Qabs_Qle_condition.
    assert (B : (inject_Z (- mag_hold_rate_limit pp) <= inject_Z (mag_hold_rate_limit pp))%Q)
      by (rewrite <- Zle_Qle; lia).
    pose proof (constrainf_bounds
                  (inject_Z (Z.quot (magHoldError e g * P8 pp PIDMAG) 30)) _ _ B) as C.
    rewrite inject_Z_opp in C. exact C.
  - unfold pidMagHold. unfold MAG_HOLD_ERROR_LPF_FREQ.
    destruct (filterApplyPt1 _ (magHoldRateFilter g) _ _) as [r f]. split; reflexivity.
Qed.

(** ** Rate targets in rate mode *)

Lemma pidApplyRateController_rates (pp : pidProfile_t) (e : env_t) (s : pidState_t)
    (axis : flight_dynamics_index_t) :
  rateTarget (fst (pidApplyRateController pp e s axis)) = rateTarget s /\
  gyroRate (fst (pidApplyRateController pp e s axis)) = gyroRate s.
Proof.
  unfold pidApplyRateController.
  destruct (rc_newPTerm pp e s axis) as [p pf].
  destruct (rc_newDTerm pp e s axis) as [[d buf] df].
  destruct (ANTI_WINDUP e || motorLimitReached e); split; reflexivity.
Qed.

Lemma runAxisRateController_rates (pp : pidProfile_t) (e : env_t) (g : globals_t)
    (axis a : flight_dynamics_index_t) :
  rateTarget (pidState (runAxisRateController pp e g axis) a) = rateTarget (pidState g a) /\
  gyroRate (pidState (runAxisRateController pp e g axis) a) = gyroRate (pidState g a).
Proof.
  unfold runAxisRateController.
  pose proof (pidApplyRateController_rates pp e (pidState g axis) axis) as H.
  destruct (pidApplyRateController pp e (pidState g axis) axis) as [s out].
  cbn [fst] in H. cbn [set_axisPID set_pidState pidState]. unfold upd.
  destruct axis, a; cbn [axis_eqb]; solve [exact H | split; reflexivity].
Qed.

Definition rates_read (e : env_t) (g : globals_t) (a : flight_dynamics_index_t) : Prop :=
  (-1800 <= rateTarget (pidState g a) <= 1800)%Q /\
  gyroRate (pidState g a) = (inject_Z (gyroADC e a) * gyro_scale e)%Q.

Lemma readAxisTarget_rates (pp : pidProfile_t) (crc : controlRateConfig_t) (e : env_t)
    (m : magHoldState_e) (g : globals_t) (axis a : flight_dynamics_index_t) :
  (a = axis \/ rates_read e g a) -> rates_read e (readAxisTarget pp crc e m g axis) a.
Proof.
  intros H. unfold readAxisTarget, pidMagHold, rates_read.
  assert (B : forall x, (-1800 <= constrainf x (inject_Z (- GYRO_SATURATION_LIMIT))
                                    (inject_Z GYRO_SATURATION_LIMIT) <= 1800)%Q).
  { intros x. apply (constrainf_bounds x (inject_Z (- GYRO_SATURATION_LIMIT))
                       (inject_Z GYRO_SATURATION_LIMIT)). discriminate. }
  destruct (filterApplyPt1 _ (magHoldRateFilter g) _ _) as [r f].
  destruct H as [-> | H].
  - destruct axis, m; cbn [set_pidState pidState upd axis_eqb set_rates rateTarget gyroRate];
      (split; [apply B | reflexivity]).
  - destruct axis, m, a;
      cbn [set_pidState set_magHoldRateFilter pidState upd axis_eqb set_rates
           rateTarget gyroRate];
      solve [exact H | split; [apply B | reflexivity]].
Qed.

(** X11.  In rate mode, that is with [ANGLE_MODE], [HORIZON_MODE] and
    [HEADING_LOCK] all off, the rate controller of every axis runs on a rate
    target within the gyro saturation limit of 1800 dps, and on the gyro rate
    [gyroADC * gyro.scale] of this tick. *)
Theorem rate_mode_targets_within_gyro_limit (pp : pidProfile_t)
    (crc : controlRateConfig_t) (rx : rxConfig_t) (e : env_t) (g : globals_t)
    (a : flight_dynamics_index_t) :
  ANGLE_MODE e = false -> HORIZON_MODE e = false -> HEADING_LOCK e = false ->
  let s := pidState (pidController pp crc rx e g) a in
  (Qabs (rateTarget s) <= 1800)%Q /\
  gyroRate s = (inject_Z (gyroADC e a) * gyro_scale e)%Q.
Proof.
  intros HA HH HL. cbv zeta.
  unfold pidController. rewrite HA, HH, HL. cbn [orb andb].
  unfold all_axes. cbn [fold_left].
  repeat match goal with
  | |- context [pidState (runAxisRateController pp e ?g0 ?ax) a] =>
      rewrite (proj1 (runAxisRateController_rates pp e g0 ax a)),
              (proj2 (runAxisRateController_rates pp e g0 ax a))
  end.
  match goal with
  | |- context [pidState ?g3 a] =>
      assert (R : rates_read e g3 a)
  end.
  { destruct a.
    - apply readAxisTarget_rates. right. apply readAxisTarget_rates. right.
      apply readAxisTarget_rates. left. reflexivity.
    - apply readAxisTarget_rates. right. apply readAxisTarget_rates. left. reflexivity.
    - apply readAxisTarget_rates. left. reflexivity. }
  destruct R as [R1 R2]. split; [|exact R2].
  apply Qabs_Qle_condition. exact R1.
Qed.

End Controller.

(** ** A concrete instance of the filters

    A pass-through low-pass filter without state, and the FIR helpers as a
    shift register and a scaled dot product.  Used to run the model on
    concrete inputs. *)

Definition passPt1 (input : float) (st : unit) (f_cut dT_ : float) : float * unit :=
  (input, tt).

Definition shiftFIR (len : Z) (buf : list float) (sample : float) : list float :=
  sample :: removelast buf.

Definition dotFIR (len : Z) (buf coeffs : list float) (mult : float) : float :=
  (fold_left Qplus (map (fun p => fst p * snd p) (combine buf coeffs)) 0 * mult)%Q.

Definition spinEnv (roll : Z) (limited : bool) : env_t :=
  {| dT := (1 # 1000)%Q; motorCount := 4; motorLimitReached := limited;
     rcData_THROTTLE := 1500; rcCommand := fun _ => 0;
     getRcStickDeflection := fun _ _ => 0;
     gyroADC := fun a => if axis_eqb a FD_ROLL then roll else 0; gyro_scale := 1%Q;
     attitude_raw := fun _ => 0; sensors_MAG := false;
     naivationGetHeadingControlState := NAV_HEADING_CONTROL_NONE;
     ARMED := true; ANGLE_MODE := false; HORIZON_MODE := false; HEADING_LOCK := false;
     MAG_MODE := false; SMALL_ANGLE := true; PID_ATTENUATE := false;
     ANTI_WINDUP := false |}.

Definition sampleHistory : list call_t :=
  let pp := uniformProfile 40 30 23 in
  let crc := rateProfile 50 1500 in
  let rx := checkRange 1100 1900 in
  [ CallUpdatePIDCoefficients pp crc rx (spinEnv 0 false);
    CallPidController pp crc rx (spinEnv 100 false);
    CallPidController pp crc rx (spinEnv (-400) true) ].

Definition sampleRun : option (globals_t unit) :=
  run unit passPt1 shiftFIR dotFIR sampleHistory (globalsZero unit tt).

(** ** The theorems at concrete inputs *)

Lemma angle_command_round_trip_witness :
  is_int16 (Z.quot 151 2) /\
  (pidRcCommandToAngle (pidAngleToRcCommand (inject_Z 151)) == inject_Z 150)%Q.
Proof.
  assert (H : is_int16 (Z.quot 151 2)) by (vm_compute; split; discriminate).
  split; [exact H|].
  exact (proj1 (angle_command_round_trip 151 H)).
Defined.

Lemma tpaFactor_cases_witness :
  controlRateConfig_wf (rateProfile 50 1500) /\
  (calc_tpaFactor (rateProfile 50 1500) 1600 == 9 # 10)%Q.
Proof.
  assert (Hwf : controlRateConfig_wf (rateProfile 50 1500))
    by (vm_compute; repeat split; discriminate).
  split; [exact Hwf|].
  destruct (tpaFactor_cases unit (rateProfile 50 1500) 1600 Hwf) as [_ [H _]].
  destruct H as [H _]; [cbn; lia | cbn; lia |].
  rewrite H. reflexivity.
Defined.

(** C6 (as stated).  At [dynThrPID = 50], [tpa_breakpoint = 1500] and
    throttle 1501 the code's factor is 1, not the
    [1 - (50/100) * (1501 - 1500) / (2000 - 1500)] of the specification. *)
Lemma tpaFactor_not_the_spec_ramp :
  ~ (calc_tpaFactor (rateProfile 50 1500) 1501 == spec_tpaFactor (rateProfile 50 1500) 1501)%Q.
Proof. vm_compute. discriminate. Qed.

(** The yaw is 1 degree and the target heading 359 degrees; the raw error
    is [2 + 360 * (-1)]. *)
Definition yawEnv (yawDeciDegrees : Z) : env_t :=
  {| dT := (1 # 1000)%Q; motorCount := 4; motorLimitReached := false;
     rcData_THROTTLE := 1500; rcCommand := fun _ => 0;
     getRcStickDeflection := fun _ _ => 0; gyroADC := fun _ => 0; gyro_scale := 1%Q;
     attitude_raw := fun a => if axis_eqb a FD_YAW then yawDeciDegrees else 0;
     sensors_MAG := true;
     naivationGetHeadingControlState := NAV_HEADING_CONTROL_NONE;
     ARMED := true; ANGLE_MODE := false; HORIZON_MODE := false; HEADING_LOCK := false;
     MAG_MODE := true; SMALL_ANGLE := true; PID_ATTENUATE := false;
     ANTI_WINDUP := false |}.

Lemma magHoldError_single_wrap_witness :
  magHoldError unit (yawEnv 10) (updateMagHoldHeading unit (globalsZero unit tt) 359) = 2.
Proof.
  apply (magHoldError_single_wrap unit (yawEnv 10)
           (updateMagHoldHeading unit (globalsZero unit tt) 359) 2 (-1)).
  - lia.
  - lia.
  - reflexivity.
Defined.

(** C5 (as stated).  A raw error of 180 degrees, which is [e = 180] with no
    wrap, comes out as -180, outside the interval from -180 exclusive to 180
    inclusive; and a raw error of
    720 degrees, which is [e = 0] wrapped twice, comes out as 360. *)
Lemma magHoldError_not_half_open_above :
  ~ (-180 < magHoldError unit (yawEnv 1800) (updateMagHoldHeading unit (globalsZero unit tt) 0) <= 180
     /\ magHoldError unit (yawEnv 1800) (updateMagHoldHeading unit (globalsZero unit tt) 0) = 180)
  /\ ~ (magHoldError unit (yawEnv 3600) (updateMagHoldHeading unit (globalsZero unit tt) (-360)) = 0).
Proof.
  split.
  - intros [_ H]. vm_compute in H. discriminate.
  - intros H. vm_compute in H. discriminate.
Qed.

Lemma integrator_back_calculation_and_envelope_witness :
  match sampleRun with
  | Some g => (0 <= errorGyroIfLimit unit (pidState unit g FD_ROLL))%Q
  | None => False
  end.
Proof.
  pose proof (proj2 (integrator_back_calculation_and_envelope unit passPt1 shiftFIR dotFIR tt
                       (uniformProfile 40 30 23) (spinEnv 0 false) (pidStateZero unit tt)
                       FD_ROLL) sampleHistory) as H.
  unfold sampleRun.
  destruct (run unit passPt1 shiftFIR dotFIR sampleHistory (globalsZero unit tt)) as [g|] eqn:E.
  - exact (H g eq_refl FD_ROLL).
  - vm_compute in E. discriminate.
Defined.

(** The zero-initialised roll axis after the refresh at full attenuation,
    nothing moving, the windup flags clear. *)
Lemma envelope_not_a_number_after_full_attenuation_witness :
  let pp := uniformProfile 40 30 23 in
  let tpa := calc_tpaFactor (rateProfile 100 1500) 2000 in
  let e := quietEnv 2000 in
  let s := pidStateZero unit tt in
  envelope_ieee false
    (integrate_ieee (Num (errorGyroIf unit s)) (rc_rateError unit s) (kI unit s) (dT e)
       (rc_newOutput unit passPt1 shiftFIR dotFIR pp e s FD_ROLL)
       (rc_newOutputLimited unit passPt1 shiftFIR dotFIR pp e s FD_ROLL)
       (calc_kT_ieee pp FD_ROLL (axis_kP pp tpa FD_ROLL) (axis_kI pp FD_ROLL)
          (axis_kD pp tpa 1 FD_ROLL)))
    (Num (errorGyroIfLimit unit s)) = (NaN, NaN).
Proof.
  exact (proj1 (proj2 (proj2
           (envelope_not_a_number_after_full_attenuation unit passPt1 shiftFIR dotFIR
              (quietEnv 2000) (pidStateZero unit tt) 1 eq_refl)))).
Defined.

(** ** The further properties at concrete inputs *)

(** Half stick at a rate of 70: 450 dps. *)
Lemma rate_command_round_trip_witness :
  (pidRcCommandToRate 250 70 == 450)%Q /\
  (pidRateToRcCommand (pidRcCommandToRate 250 70) 70 == 250)%Q.
Proof.
  assert (S : is_int16 250) by (unfold is_int16; lia).
  assert (R : is_uint8 70) by (unfold is_uint8; lia).
  destruct (rate_command_round_trip 250 70 S R eq_refl) as (A & _ & _ & _ & _ & C).
  split; [exact A | exact C].
Defined.

Lemma sampleProfile_nonneg : gains_nonneg (uniformProfile 40 30 23).
Proof. intros i. cbn. lia. Defined.

Lemma attenuation_never_amplifies_witness :
  (axis_kP (uniformProfile 40 30 23) (calc_tpaFactor (rateProfile 50 1500) 1750) FD_ROLL
   <= 1)%Q.
Proof.
  assert (Hd : 0 <= dynThrPID (rateProfile 50 1500) <= 100) by (cbn; lia).
  assert (Hb : is_uint16 (tpa_breakpoint (rateProfile 50 1500)))
    by (unfold is_uint16; cbn; lia).
  assert (HP : 0 <= P8 (uniformProfile 40 30 23) (pidIndex_of_axis FD_ROLL)) by (cbn; lia).
  assert (HD : 0 <= D8 (uniformProfile 40 30 23) (pidIndex_of_axis FD_ROLL)) by (cbn; lia).
  assert (Hr : calc_relThrottle (checkRange 1100 1900) 1750
               = Some (constrainf ((inject_Z 1750 - inject_Z 1100)
                                   / (inject_Z 1900 - inject_Z 1100)) 0 1)%Q)
    by reflexivity.
  destruct (attenuation_never_amplifies (uniformProfile 40 30 23) (rateProfile 50 1500)
              (checkRange 1100 1900) 1750 _ FD_ROLL Hd Hb HP HD Hr)
    as (_ & _ & [_ H] & _).
  exact H.
Defined.

Lemma gain_refresh_defined_witness :
  exists g',
    updatePIDCoefficients unit (uniformProfile 40 30 23) (rateProfile 50 1500)
      (checkRange 1100 1900) (quietEnv 1750) (globalsZero unit tt) = Some g' /\
    (0 < kT unit (pidState unit g' FD_ROLL))%Q.
Proof.
  assert (Hd : 0 <= dynThrPID (rateProfile 50 1500) < 100) by (cbn; lia).
  assert (Hb : is_uint16 (tpa_breakpoint (rateProfile 50 1500)))
    by (unfold is_uint16; cbn; lia).
  assert (Hc : mincheck (checkRange 1100 1900) <> maxcheck (checkRange 1100 1900))
    by (cbn; lia).
  destruct (gain_refresh_defined unit (uniformProfile 40 30 23) (rateProfile 50 1500)
              (checkRange 1100 1900) (quietEnv 1750) (globalsZero unit tt)
              sampleProfile_nonneg Hd Hb Hc) as (g' & E & H).
  exists g'. split; [exact E|].
  destruct (H FD_ROLL) as (H1 & _). exact (proj2 (H1 eq_refl)).
Defined.



(** A roll axis with [kP = 1], [kI = 3], [kT = 6], at rest with a gyro
    rate of 10 dps. *)
Definition slowRollState : pidState_t unit :=
  set_rates unit (set_gains unit (pidStateZero unit tt) 1 3 0 6) 10 0.

Lemma unsaturated_step_integrates_error_only_witness :
  snd (pidApplyRateController unit passPt1 shiftFIR dotFIR (uniformProfile 40 30 23)
         (spinEnv 0 false) slowRollState FD_ROLL) = -10 /\
  (errorGyroIf unit
     (fst (pidApplyRateController unit passPt1 shiftFIR dotFIR (uniformProfile 40 30 23)
             (spinEnv 0 false) slowRollState FD_ROLL)) == - (3 # 100))%Q.
Proof.
  assert (B : (-1000 <= rc_newOutput unit passPt1 shiftFIR dotFIR (uniformProfile 40 30 23)
                          (spinEnv 0 false) slowRollState FD_ROLL <= 1000)%Q)
    by (vm_compute; split; discriminate).
  destruct (unsaturated_step_integrates_error_only unit passPt1 shiftFIR dotFIR
              (uniformProfile 40 30 23) (spinEnv 0 false) slowRollState FD_ROLL B)
    as (H1 & H2 & _).
  split; [rewrite H1; reflexivity | rewrite H2; reflexivity].
Defined.

Lemma heading_lock_accumulator_bounded_witness :
  (-45 <= axisLockAccum unit
            (pidApplyHeadingLock unit (uniformProfile 40 30 23) (spinEnv 0 false)
               slowRollState) <= 45)%Q.
Proof.
  assert (HP : 0 <= P8 (uniformProfile 40 30 23) PIDMAG) by (cbn; lia).
  exact (proj1 (heading_lock_accumulator_bounded unit (uniformProfile 40 30 23)
                  (spinEnv 0 false) slowRollState HP)).
Defined.

Lemma mag_hold_rate_limited_witness :
  exists sample : float,
    (Qabs sample <= 90)%Q /\
    fst (pidMagHold unit passPt1 (uniformProfile 40 30 23) (yawEnv 10)
           (updateMagHoldHeading unit (globalsZero unit tt) 359)) = sample.
Proof.
  assert (H : 0 <= mag_hold_rate_limit (uniformProfile 40 30 23)) by (cbn; lia).
  destruct (mag_hold_rate_limited unit passPt1 (uniformProfile 40 30 23) (yawEnv 10)
              (updateMagHoldHeading unit (globalsZero unit tt) 359) H)
    as (sample & B & _ & E & _).
  exists sample. split; [exact B|]. rewrite E. reflexivity.
Defined.

Lemma rate_mode_targets_within_gyro_limit_witness :
  (Qabs (rateTarget unit
           (pidState unit
              (pidController unit passPt1 shiftFIR dotFIR (uniformProfile 40 30 23)
                 (rateProfile 50 1500) (checkRange 1100 1900) (spinEnv 100 false)
                 (globalsZero unit tt)) FD_ROLL)) <= 1800)%Q.
Proof.
  exact (proj1 (rate_mode_targets_within_gyro_limit unit passPt1 shiftFIR dotFIR
                  (uniformProfile 40 30 23) (rateProfile 50 1500) (checkRange 1100 1900)
                  (spinEnv 100 false) (globalsZero unit tt) FD_ROLL
                  eq_refl eq_refl eq_refl)).
Defined.

End Pid.

(** * The multirotor navigation controller
      ([flight/navigation_rewrite_multicopter.c])

    The altitude cascade, the emergency landing controller and the land
    detector.  The horizontal position cascade, which needs square roots and
    trigonometry, is not part of this development. *)

Module Nav.

(** ** Configuration *)

Record escAndServoConfig_t : Type := {
  minthrottle : Z;                          (* uint16_t *)
  maxthrottle : Z                           (* uint16_t *)
}.

Record navConfig_t : Type := {
  mc_hover_throttle : Z;                    (* uint16_t *)
  mc_min_fly_throttle : Z;                  (* uint16_t *)
  emerg_descent_rate : Z;                   (* uint16_t *)
  max_manual_climb_rate : Z;                (* uint16_t *)
  use_thr_mid_for_althold : bool
}.

Record rcControlsConfig_t : Type := {
  alt_hold_deadband : Z                     (* uint8_t *)
}.

Record failsafeConfig_t : Type := {
  failsafe_throttle : Z                     (* uint16_t *)
}.

(** The configuration that [posControl] points to, and the result of
    [getActiveFailsafeConfig], which is a null pointer when no failsafe
    configuration is active. *)
Record config_t : Type := {
  escAndServoConfig : escAndServoConfig_t;
  navConfig : navConfig_t;
  rcControlsConfig : rcControlsConfig_t;
  getActiveFailsafeConfig : option failsafeConfig_t
}.

Inductive climbRateToAltitudeControllerMode_e : Type :=
  | CLIMB_RATE_KEEP_SURFACE_TARGET
  | CLIMB_RATE_RESET_SURFACE_TARGET
  | CLIMB_RATE_UPDATE_SURFACE_TARGET.

Inductive throttleStatus_e : Type := THROTTLE_LOW | THROTTLE_HIGH.

(** [US2S(us)] is [us * 1e-6f]. *)
Definition US2S (us : Z) : float := (inject_Z us * (1 # 1000000))%Q.

(** [HZ2US(hz)] is [1000000 / hz] on integers. *)
Definition HZ2US (hz : Z) : Z := Z.quot 1000000 hz.

Section Controller.

(** What the sources at hand only call: the PT1 filter of
    [common/filter.c], and, from [navigation_rewrite.c], the PID step
    [navPidApply2] and [updateAltitudeTargetFromClimbRate]; and the constants
    of the private header. *)
Variable filterStatePt1_t : Type.
Variable filterApplyPt1 : float -> filterStatePt1_t -> float -> float -> float * filterStatePt1_t.
Variable filterResetPt1 : filterStatePt1_t -> float -> filterStatePt1_t.

Variable MIN_POSITION_UPDATE_RATE_HZ : Z.
Variable NAV_THROTTLE_CUTOFF_FREQENCY_HZ : Z.
Variable LAND_DETECTOR_TRIGGER_TIME_MS : Z.

(** ** State *)

Record pidController_t : Type := {
  param_kP : float;
  param_kI : float;
  param_kD : float;
  integrator : float;
  last_input : float;
  dterm_filter_state : filterStatePt1_t
}.

Record navFlags_t : Type := {
  verticalPositionDataNew : bool;
  verticalPositionDataConsumed : bool;
  hasValidAltitudeSensor : bool;
  hasValidSurfaceSensor : bool;
  isTerrainFollowEnabled : bool;
  isAdjustingAltitude : bool
}.

Record actualState_t : Type := {
  actual_pos_Z : float;
  actual_vel_Z : float;
  actual_velXY : float;
  actual_surface : float;
  actual_surfaceMin : float
}.

Record desiredState_t : Type := {
  desired_pos_Z : float;
  desired_vel_Z : float;
  desired_surface : float
}.

Record navPids_t : Type := {
  pids_pos_Z : pidController_t;
  pids_vel_Z : pidController_t;
  pids_surface : pidController_t
}.

(** The fields of the global [posControl] that the altitude code touches. *)
Record posControl_t : Type := {
  flags : navFlags_t;
  actualState : actualState_t;
  desiredState : desiredState_t;
  pids : navPids_t;
  rcAdjustment_THROTTLE : Z                 (* int16_t *)
}.

(** [posControl], the [rcCommand] array, the file-scope statics, and the
    function-scope statics of the altitude controller ([alt_...]) and of the
    emergency landing controller ([emerg_...]). *)
Record state_t : Type := {
  posControl : posControl_t;
  rcCommand_ROLL : Z;                       (* int16_t *)
  rcCommand_PITCH : Z;
  rcCommand_YAW : Z;
  rcCommand_THROTTLE : Z;
  rcCommandAdjustedThrottle : Z;            (* int16_t *)
  altHoldThrottleRCZero : Z;                (* int16_t *)
  altholdThrottleFilterState : filterStatePt1_t;
  prepareForTakeoffOnReset : bool;
  alt_previousTimePositionUpdate : Z;       (* uint32_t *)
  alt_previousTimeUpdate : Z;
  emerg_previousTimeUpdate : Z;
  emerg_previousTimePositionUpdate : Z
}.

Variable navPidApply2 :
  float -> float -> float -> pidController_t -> float -> float -> bool -> float * pidController_t.
Variable updateAltitudeTargetFromClimbRate :
  float -> climbRateToAltitudeControllerMode_e -> posControl_t -> posControl_t.

(** Modelled from the spec: [navPidReset] of [navigation_rewrite.c].  The
    spec has the controller state cleared by a reset; the gains stay. *)
Definition navPidReset (pid : pidController_t) : pidController_t :=
  {| param_kP := param_kP pid; param_kI := param_kI pid; param_kD := param_kD pid;
     integrator := 0; last_input := 0;
     dterm_filter_state := filterResetPt1 (dterm_filter_state pid) 0 |}.

(** *** Field updates *)

Definition set_integrator (pid : pidController_t) (i : float) : pidController_t :=
  {| param_kP := param_kP pid; param_kI := param_kI pid; param_kD := param_kD pid;
     integrator := i; last_input := last_input pid;
     dterm_filter_state := dterm_filter_state pid |}.

Definition set_desired_pos_Z (pc : posControl_t) (z : float) : posControl_t :=
  {| flags := flags pc; actualState := actualState pc;
     desiredState := {| desired_pos_Z := z;
                        desired_vel_Z := desired_vel_Z (desiredState pc);
                        desired_surface := desired_surface (desiredState pc) |};
     pids := pids pc; rcAdjustment_THROTTLE := rcAdjustment_THROTTLE pc |}.

Definition set_desired_vel_Z (pc : posControl_t) (v : float) : posControl_t :=
  {| flags := flags pc; actualState := actualState pc;
     desiredState := {| desired_pos_Z := desired_pos_Z (desiredState pc);
                        desired_vel_Z := v;
                        desired_surface := desired_surface (desiredState pc) |};
     pids := pids pc; rcAdjustment_THROTTLE := rcAdjustment_THROTTLE pc |}.

Definition set_pids_vel_Z (pc : posControl_t) (p : pidController_t) : posControl_t :=
  {| flags := flags pc; actualState := actualState pc; desiredState := desiredState pc;
     pids := {| pids_pos_Z := pids_pos_Z (pids pc); pids_vel_Z := p;
                pids_surface := pids_surface (pids pc) |};
     rcAdjustment_THROTTLE := rcAdjustment_THROTTLE pc |}.

Definition set_pids_surface (pc : posControl_t) (p : pidController_t) : posControl_t :=
  {| flags := flags pc; actualState := actualState pc; desiredState := desiredState pc;
     pids := {| pids_pos_Z := pids_pos_Z (pids pc); pids_vel_Z := pids_vel_Z (pids pc);
                pids_surface := p |};
     rcAdjustment_THROTTLE := rcAdjustment_THROTTLE pc |}.

Definition set_rcAdjustment_THROTTLE (pc : posControl_t) (a : Z) : posControl_t :=
  {| flags := flags pc; actualState := actualState pc; desiredState := desiredState pc;
     pids := pids pc; rcAdjustment_THROTTLE := a |}.

Definition set_verticalPositionDataConsumed (pc : posControl_t) : posControl_t :=
  {| flags := {| verticalPositionDataNew := verticalPositionDataNew (flags pc);
                 verticalPositionDataConsumed := true;
                 hasValidAltitudeSensor := hasValidAltitudeSensor (flags pc);
                 hasValidSurfaceSensor := hasValidSurfaceSensor (flags pc);
                 isTerrainFollowEnabled := isTerrainFollowEnabled (flags pc);
                 isAdjustingAltitude := isAdjustingAltitude (flags pc) |};
     actualState := actualState pc; desiredState := desiredState pc;
     pids := pids pc; rcAdjustment_THROTTLE := rcAdjustment_THROTTLE pc |}.

Definition set_posControl (s : state_t) (pc : posControl_t) : state_t :=
  {| posControl := pc;
     rcCommand_ROLL := rcCommand_ROLL s; rcCommand_PITCH := rcCommand_PITCH s;
     rcCommand_YAW := rcCommand_YAW s; rcCommand_THROTTLE := rcCommand_THROTTLE s;
     rcCommandAdjustedThrottle := rcCommandAdjustedThrottle s;
     altHoldThrottleRCZero := altHoldThrottleRCZero s;
     altholdThrottleFilterState := altholdThrottleFilterState s;
     prepareForTakeoffOnReset := prepareForTakeoffOnReset s;
     alt_previousTimePositionUpdate := alt_previousTimePositionUpdate s;
     alt_previousTimeUpdate := alt_previousTimeUpdate s;
     emerg_previousTimeUpdate := emerg_previousTimeUpdate s;
     emerg_previousTimePositionUpdate := emerg_previousTimePositionUpdate s |}.

Definition set_rcCommand_sticks (s : state_t) (roll pitch yaw : Z) : state_t :=
  {| posControl := posControl s;
     rcCommand_ROLL := roll; rcCommand_PITCH := pitch; rcCommand_YAW := yaw;
     rcCommand_THROTTLE := rcCommand_THROTTLE s;
     rcCommandAdjustedThrottle := rcCommandAdjustedThrottle s;
     altHoldThrottleRCZero := altHoldThrottleRCZero s;
     altholdThrottleFilterState := altholdThrottleFilterState s;
     prepareForTakeoffOnReset := prepareForTakeoffOnReset s;
     alt_previousTimePositionUpdate := alt_previousTimePositionUpdate s;
     alt_previousTimeUpdate := alt_previousTimeUpdate s;
     emerg_previousTimeUpdate := emerg_previousTimeUpdate s;
     emerg_previousTimePositionUpdate := emerg_previousTimePositionUpdate s |}.

Definition set_rcCommand_THROTTLE (s : state_t) (t : Z) : state_t :=
  {| posControl := posControl s;
     rcCommand_ROLL := rcCommand_ROLL s; rcCommand_PITCH := rcCommand_PITCH s;
     rcCommand_YAW := rcCommand_YAW s; rcCommand_THROTTLE := t;
     rcCommandAdjustedThrottle := rcCommandAdjustedThrottle s;
     altHoldThrottleRCZero := altHoldThrottleRCZero s;
     altholdThrottleFilterState := altholdThrottleFilterState s;
     prepareForTakeoffOnReset := prepareForTakeoffOnReset s;
     alt_previousTimePositionUpdate := alt_previousTimePositionUpdate s;
     alt_previousTimeUpdate := alt_previousTimeUpdate s;
     emerg_previousTimeUpdate := emerg_previousTimeUpdate s;
     emerg_previousTimePositionUpdate := emerg_previousTimePositionUpdate s |}.

Definition set_rcCommandAdjustedThrottle (s : state_t) (t : Z) : state_t :=
  {| posControl := posControl s;
     rcCommand_ROLL := rcCommand_ROLL s; rcCommand_PITCH := rcCommand_PITCH s;
     rcCommand_YAW := rcCommand_YAW s; rcCommand_THROTTLE := rcCommand_THROTTLE s;
     rcCommandAdjustedThrottle := t;
     altHoldThrottleRCZero := altHoldThrottleRCZero s;
     altholdThrottleFilterState := altholdThrottleFilterState s;
     prepareForTakeoffOnReset := prepareForTakeoffOnReset s;
     alt_previousTimePositionUpdate := alt_previousTimePositionUpdate s;
     alt_previousTimeUpdate := alt_previousTimeUpdate s;
     emerg_previousTimeUpdate := emerg_previousTimeUpdate s;
     emerg_previousTimePositionUpdate := emerg_previousTimePositionUpdate s |}.

Definition set_altHold (s : state_t) (rcZero : Z) (prepare : bool) : state_t :=
  {| posControl := posControl s;
     rcCommand_ROLL := rcCommand_ROLL s; rcCommand_PITCH := rcCommand_PITCH s;
     rcCommand_YAW := rcCommand_YAW s; rcCommand_THROTTLE := rcCommand_THROTTLE s;
     rcCommandAdjustedThrottle := rcCommandAdjustedThrottle s;
     altHoldThrottleRCZero := rcZero;
     altholdThrottleFilterState := altholdThrottleFilterState s;
     prepareForTakeoffOnReset := prepare;
     alt_previousTimePositionUpdate := alt_previousTimePositionUpdate s;
     alt_previousTimeUpdate := alt_previousTimeUpdate s;
     emerg_previousTimeUpdate := emerg_previousTimeUpdate s;
     emerg_previousTimePositionUpdate := emerg_previousTimePositionUpdate s |}.

Definition set_altholdThrottleFilterState (s : state_t) (f : filterStatePt1_t) : state_t :=
  {| posControl := posControl s;
     rcCommand_ROLL := rcCommand_ROLL s; rcCommand_PITCH := rcCommand_PITCH s;
     rcCommand_YAW := rcCommand_YAW s; rcCommand_THROTTLE := rcCommand_THROTTLE s;
     rcCommandAdjustedThrottle := rcCommandAdjustedThrottle s;
     altHoldThrottleRCZero := altHoldThrottleRCZero s;
     altholdThrottleFilterState := f;
     prepareForTakeoffOnReset := prepareForTakeoffOnReset s;
     alt_previousTimePositionUpdate := alt_previousTimePositionUpdate s;
     alt_previousTimeUpdate := alt_previousTimeUpdate s;
     emerg_previousTimeUpdate := emerg_previousTimeUpdate s;
     emerg_previousTimePositionUpdate := emerg_previousTimePositionUpdate s |}.

Definition set_alt_times (s : state_t) (posUpdate update : Z) : state_t :=
  {| posControl := posControl s;
     rcCommand_ROLL := rcCommand_ROLL s; rcCommand_PITCH := rcCommand_PITCH s;
     rcCommand_YAW := rcCommand_YAW s; rcCommand_THROTTLE := rcCommand_THROTTLE s;
     rcCommandAdjustedThrottle := rcCommandAdjustedThrottle s;
     altHoldThrottleRCZero := altHoldThrottleRCZero s;
     altholdThrottleFilterState := altholdThrottleFilterState s;
     prepareForTakeoffOnReset := prepareForTakeoffOnReset s;
     alt_previousTimePositionUpdate := posUpdate;
     alt_previousTimeUpdate := update;
     emerg_previousTimeUpdate := emerg_previousTimeUpdate s;
     emerg_previousTimePositionUpdate := emerg_previousTimePositionUpdate s |}.

Definition set_emerg_times (s : state_t) (update posUpdate : Z) : state_t :=
  {| posControl := posControl s;
     rcCommand_ROLL := rcCommand_ROLL s; rcCommand_PITCH := rcCommand_PITCH s;
     rcCommand_YAW := rcCommand_YAW s; rcCommand_THROTTLE := rcCommand_THROTTLE s;
     rcCommandAdjustedThrottle := rcCommandAdjustedThrottle s;
     altHoldThrottleRCZero := altHoldThrottleRCZero s;
     altholdThrottleFilterState := altholdThrottleFilterState s;
     prepareForTakeoffOnReset := prepareForTakeoffOnReset s;
     alt_previousTimePositionUpdate := alt_previousTimePositionUpdate s;
     alt_previousTimeUpdate := alt_previousTimeUpdate s;
     emerg_previousTimeUpdate := update;
     emerg_previousTimePositionUpdate := posUpdate |}.

(** ** The altitude cascade *)

(** [HZ2US(MIN_POSITION_UPDATE_RATE_HZ)] as the [uint32_t] that the time
    differences are compared with. *)
Definition staleThreshold : Z := to_uint32 (HZ2US MIN_POSITION_UPDATE_RATE_HZ).

(** The [NAV_BLACKBOX] copies are left out here and below. *)
Definition updateSurfaceTrackingAltitudeSetpoint (deltaMicros : Z)
    (pc : posControl_t) : posControl_t :=
  if isTerrainFollowEnabled (flags pc) && Qle_bool 0 (desired_surface (desiredState pc)) then
    if Qle_bool 0 (actual_surface (actualState pc)) && hasValidSurfaceSensor (flags pc) then
      let '(targetAltitudeError, pid) :=
        navPidApply2 (desired_surface (desiredState pc)) (actual_surface (actualState pc))
          (US2S deltaMicros) (pids_surface (pids pc)) (-5) 35 false in
      set_desired_pos_Z (set_pids_surface pc pid)
        (actual_pos_Z (actualState pc) + targetAltitudeError)%Q
    else
      updateAltitudeTargetFromClimbRate (-20) CLIMB_RATE_KEEP_SURFACE_TARGET pc
  else pc.

Definition updateAltitudeVelocityController_MC (deltaMicros : Z)
    (pc : posControl_t) : posControl_t :=
  let altitudeError := (desired_pos_Z (desiredState pc) - actual_pos_Z (actualState pc))%Q in
  let targetVel := (altitudeError * param_kP (pids_pos_Z (pids pc)))%Q in
  let targetVel := constrainf targetVel (-2000) 2000 in
  let maxVelDifference := (US2S deltaMicros * 250)%Q in
  set_desired_vel_Z pc
    (constrainf targetVel (desired_vel_Z (desiredState pc) - maxVelDifference)%Q
                          (desired_vel_Z (desiredState pc) + maxVelDifference)%Q).

Definition thrAdjustmentMin (cfg : config_t) : Z :=
  to_int16 (to_int16 (minthrottle (escAndServoConfig cfg))
            - to_int16 (mc_hover_throttle (navConfig cfg))).

Definition thrAdjustmentMax (cfg : config_t) : Z :=
  to_int16 (to_int16 (maxthrottle (escAndServoConfig cfg))
            - to_int16 (mc_hover_throttle (navConfig cfg))).

Definition updateAltitudeThrottleController_MC (cfg : config_t) (deltaMicros : Z)
    (s : state_t) : state_t :=
  let pc := posControl s in
  let '(out, pid) :=
    navPidApply2 (desired_vel_Z (desiredState pc)) (actual_vel_Z (actualState pc))
      (US2S deltaMicros) (pids_vel_Z (pids pc))
      (inject_Z (thrAdjustmentMin cfg)) (inject_Z (thrAdjustmentMax cfg)) false in
  let adj := float_to_int16 out in
  let '(filtered, f) :=
    filterApplyPt1 (inject_Z adj) (altholdThrottleFilterState s)
      (inject_Z NAV_THROTTLE_CUTOFF_FREQENCY_HZ) (US2S deltaMicros) in
  let adj := float_to_int16 filtered in
  let adj := to_int16 (constrain adj (thrAdjustmentMin cfg) (thrAdjustmentMax cfg)) in
  set_altholdThrottleFilterState
    (set_posControl s (set_rcAdjustment_THROTTLE (set_pids_vel_Z pc pid) adj)) f.

(** [throttleStatus] is the result of [calculateThrottleStatus] and [thrMid]
    that of [rcLookupThrottleMid]. *)
Definition setupMulticopterAltitudeController (cfg : config_t)
    (throttleStatus : throttleStatus_e) (thrMid : Z) (s : state_t) : state_t :=
  let low := match throttleStatus with THROTTLE_LOW => true | THROTTLE_HIGH => false end in
  let rcZero :=
    if use_thr_mid_for_althold (navConfig cfg) then thrMid
    else if low then thrMid else rcCommand_THROTTLE s in
  let rcZero := to_int16 (constrain rcZero
    (minthrottle (escAndServoConfig cfg) + alt_hold_deadband (rcControlsConfig cfg) + 10)
    (maxthrottle (escAndServoConfig cfg) - alt_hold_deadband (rcControlsConfig cfg) - 10)) in
  set_altHold s rcZero (if low then true else prepareForTakeoffOnReset s).

Definition resetMulticopterAltitudeController (s : state_t) : state_t :=
  let pc := posControl s in
  let pc := set_pids_vel_Z pc (navPidReset (pids_vel_Z (pids pc))) in
  let pc := set_pids_surface pc (navPidReset (pids_surface (pids pc))) in
  let s := set_altholdThrottleFilterState s (filterResetPt1 (altholdThrottleFilterState s) 0) in
  let pc := set_desired_vel_Z pc (actual_vel_Z (actualState pc)) in
  let pc := set_rcAdjustment_THROTTLE pc 0 in
  if prepareForTakeoffOnReset s then
    let pc := set_pids_vel_Z pc (set_integrator (pids_vel_Z (pids pc)) (-500)) in
    set_altHold (set_posControl s pc) (altHoldThrottleRCZero s) false
  else set_posControl s pc.

(** The throttle that both controllers command from the hover throttle and
    the adjustment. *)
Definition hoverThrottleCommand (cfg : config_t) (pc : posControl_t) : Z :=
  to_int16 (constrain (to_int16 (mc_hover_throttle (navConfig cfg)) + rcAdjustment_THROTTLE pc)
              (minthrottle (escAndServoConfig cfg)) (maxthrottle (escAndServoConfig cfg))).

(** The test of the stale guard of [applyMulticopterAltitudeController]. *)
Definition altitudeTickIsStale (currentTime : Z) (s : state_t) : bool :=
  staleThreshold <? to_uint32 (currentTime - alt_previousTimeUpdate s).

Definition applyMulticopterAltitudeController (cfg : config_t) (currentTime : Z)
    (s : state_t) : state_t :=
  let deltaMicros := to_uint32 (currentTime - alt_previousTimeUpdate s) in
  let s := set_alt_times s (alt_previousTimePositionUpdate s) currentTime in
  if staleThreshold <? deltaMicros then
    resetMulticopterAltitudeController (set_alt_times s currentTime currentTime)
  else
    let s :=
      if verticalPositionDataNew (flags (posControl s)) then
        let deltaMicrosPositionUpdate :=
          to_uint32 (currentTime - alt_previousTimePositionUpdate s) in
        let s := set_alt_times s currentTime (alt_previousTimeUpdate s) in
        let s :=
          if deltaMicrosPositionUpdate <? staleThreshold then
            let pc := updateSurfaceTrackingAltitudeSetpoint deltaMicrosPositionUpdate
                        (posControl s) in
            let pc := updateAltitudeVelocityController_MC deltaMicrosPositionUpdate pc in
            updateAltitudeThrottleController_MC cfg deltaMicrosPositionUpdate
              (set_posControl s pc)
          else resetMulticopterAltitudeController s in
        set_posControl s (set_verticalPositionDataConsumed (posControl s))
      else s in
    let s := set_rcCommand_THROTTLE s (hoverThrottleCommand cfg (posControl s)) in
    set_rcCommandAdjustedThrottle s (rcCommand_THROTTLE s).

(** ** The land detector *)

(** [currentTime] is the value of [micros()].  The two pointer parameters
    are the cells they point to, [landingTimer] and [hasHadSomeVelocity],
    whose new contents are returned with the result; of the second pointer
    the address is kept as well, in [hasHadSomeVelocity_ptr], because the
    function uses the pointer itself as an operand of [&&], where C reads a
    pointer as true when it is not null. *)
Definition isMulticopterLandingDetected (cfg : config_t) (s : state_t) (currentTime : Z)
    (landingTimer : Z) (hasHadSomeVelocity_ptr : Z) (hasHadSomeVelocity : bool)
    : bool * Z * bool :=
  let actual := actualState (posControl s) in
  let hasHadSomeVelocity :=
    if negb hasHadSomeVelocity && Qlt_bool (actual_vel_Z actual) (-25)
    then true else hasHadSomeVelocity in
  let verticalMovement := Qlt_bool 25 (Qabs (actual_vel_Z actual)) in
  let horizontalMovement := Qlt_bool 100 (actual_velXY actual) in
  let minimalThrust :=
    rcCommandAdjustedThrottle s <? mc_min_fly_throttle (navConfig cfg) in
  let possibleLandingDetected :=
    negb (hasHadSomeVelocity_ptr =? 0) && minimalThrust
    && negb verticalMovement && negb horizontalMovement in
  let possibleLandingDetected :=
    if hasValidSurfaceSensor (flags (posControl s))
       && Qle_bool 0 (actual_surface actual) && Qle_bool 0 (actual_surfaceMin actual)
    then possibleLandingDetected
         && Qle_bool (actual_surface actual) (actual_surfaceMin actual + 5)%Q
    else possibleLandingDetected in
  if negb possibleLandingDetected then (false, currentTime, hasHadSomeVelocity)
  else
    (to_uint32 (LAND_DETECTOR_TRIGGER_TIME_MS * 1000) <? to_uint32 (currentTime - landingTimer),
     landingTimer, hasHadSomeVelocity).

(** ** The emergency landing controller *)

Definition emergencyTickIsStale (currentTime : Z) (s : state_t) : bool :=
  staleThreshold <? to_uint32 (currentTime - emerg_previousTimeUpdate s).

Definition applyMulticopterEmergencyLandingController (cfg : config_t) (currentTime : Z)
    (s : state_t) : state_t :=
  let deltaMicros := to_uint32 (currentTime - emerg_previousTimeUpdate s) in
  let s := set_emerg_times s currentTime (emerg_previousTimePositionUpdate s) in
  let s := set_rcCommand_sticks s 0 0 0 in
  if hasValidAltitudeSensor (flags (posControl s)) then
    if staleThreshold <? deltaMicros then
      resetMulticopterAltitudeController (set_emerg_times s currentTime currentTime)
    else
      let s :=
        if verticalPositionDataNew (flags (posControl s)) then
          let deltaMicrosPositionUpdate :=
            to_uint32 (currentTime - emerg_previousTimePositionUpdate s) in
          let s := set_emerg_times s (emerg_previousTimeUpdate s) currentTime in
          let s :=
            if deltaMicrosPositionUpdate <? staleThreshold then
              let pc := updateAltitudeTargetFromClimbRate
                          (-1 * inject_Z (emerg_descent_rate (navConfig cfg)))%Q
                          CLIMB_RATE_RESET_SURFACE_TARGET (posControl s) in
              let pc := updateAltitudeVelocityController_MC deltaMicrosPositionUpdate pc in
              updateAltitudeThrottleController_MC cfg deltaMicrosPositionUpdate
                (set_posControl s pc)
            else resetMulticopterAltitudeController s in
          set_posControl s (set_verticalPositionDataConsumed (posControl s))
        else s in
      set_rcCommand_THROTTLE s (hoverThrottleCommand cfg (posControl s))
  else
    match getActiveFailsafeConfig cfg with
    | Some failsafeConfig =>
        set_rcCommand_THROTTLE s (to_int16 (failsafe_throttle failsafeConfig))
    | None =>
        set_rcCommand_THROTTLE s (to_int16 (minthrottle (escAndServoConfig cfg)))
    end.

(** ** Well-typed throttle configuration *)

(** The three throttle settings are [uint16_t] values that also fit the
    [int16_t] of [rcCommand]; they are pulse widths around 1000 to 2000. *)
Definition throttleConfig_int16 (cfg : config_t) : Prop :=
  0 <= minthrottle (escAndServoConfig cfg) <= 32767 /\
  0 <= maxthrottle (escAndServoConfig cfg) <= 32767 /\
  0 <= mc_hover_throttle (navConfig cfg) <= 32767.

Lemma constrain_cases (amt low high : Z) :
  constrain amt low high = low \/ constrain amt low high = high \/
  (constrain amt low high = amt /\ low <= amt <= high).
Proof.
  unfold constrain.
  destruct (amt <? low) eqn:E1; [left; reflexivity|].
  destruct (high <? amt) eqn:E2; [right; left; reflexivity|].
  apply Z.ltb_ge in E1. apply Z.ltb_ge in E2. right. right. split; [reflexivity | lia].
Qed.

Lemma hoverThrottleCommand_clamp (cfg : config_t) (pc : posControl_t) :
  throttleConfig_int16 cfg ->
  hoverThrottleCommand cfg pc =
  constrain (mc_hover_throttle (navConfig cfg) + rcAdjustment_THROTTLE pc)
    (minthrottle (escAndServoConfig cfg)) (maxthrottle (escAndServoConfig cfg)).
Proof.
  intros (Hmin & Hmax & Hhov). unfold hoverThrottleCommand.
  rewrite (to_int16_id (mc_hover_throttle (navConfig cfg))) by lia.
  apply to_int16_id.
  destruct (constrain_cases
              (mc_hover_throttle (navConfig cfg) + rcAdjustment_THROTTLE pc)
              (minthrottle (escAndServoConfig cfg)) (maxthrottle (escAndServoConfig cfg)))
    as [E | [E | [E B]]]; rewrite E; lia.
Qed.

Lemma hoverThrottleCommand_bounds (cfg : config_t) (pc : posControl_t) :
  throttleConfig_int16 cfg ->
  minthrottle (escAndServoConfig cfg) <= maxthrottle (escAndServoConfig cfg) ->
  minthrottle (escAndServoConfig cfg) <= hoverThrottleCommand cfg pc
    <= maxthrottle (escAndServoConfig cfg).
Proof.
  intros Hc Hle. rewrite (hoverThrottleCommand_clamp cfg pc Hc).
  apply constrain_bounds. exact Hle.
Qed.

(** ** What one call of the altitude controller does *)

Lemma applyAltitude_stale (cfg : config_t) (currentTime : Z) (s : state_t) :
  altitudeTickIsStale currentTime s = true ->
  applyMulticopterAltitudeController cfg currentTime s =
  resetMulticopterAltitudeController (set_alt_times s currentTime currentTime).
Proof.
  unfold altitudeTickIsStale, applyMulticopterAltitudeController. intros H.
  cbv zeta. rewrite H. reflexivity.
Qed.

Lemma applyAltitude_fresh_throttle (cfg : config_t) (currentTime : Z) (s : state_t) :
  altitudeTickIsStale currentTime s = false ->
  let s' := applyMulticopterAltitudeController cfg currentTime s in
  rcCommand_THROTTLE s' = hoverThrottleCommand cfg (posControl s') /\
  rcCommandAdjustedThrottle s' = rcCommand_THROTTLE s'.
Proof.
  unfold altitudeTickIsStale, applyMulticopterAltitudeController. intros H.
  cbv zeta. rewrite H. split; reflexivity.
Qed.

Lemma applyAltitude_fresh_no_data (cfg : config_t) (currentTime : Z) (s : state_t) :
  altitudeTickIsStale currentTime s = false ->
  verticalPositionDataNew (flags (posControl s)) = false ->
  posControl (applyMulticopterAltitudeController cfg currentTime s) = posControl s.
Proof.
  unfold altitudeTickIsStale, applyMulticopterAltitudeController. intros H N.
  cbv zeta. rewrite H. cbn. rewrite N. reflexivity.
Qed.

Lemma resetAltitude_rcCommand (s : state_t) :
  rcCommand_THROTTLE (resetMulticopterAltitudeController s) = rcCommand_THROTTLE s.
Proof.
  unfold resetMulticopterAltitudeController. cbn.
  destruct (prepareForTakeoffOnReset s); reflexivity.
Qed.

(** C7.  When the time since the previous call exceeds
    [HZ2US(MIN_POSITION_UPDATE_RATE_HZ)], the altitude controller resets and
    skips the update: the velocity-Z and surface PID controllers are reset
    (integrator and last input 0), the throttle low-pass filter is reset to
    0, [desired.vel.Z] becomes [actual.vel.Z], [rcAdjustment[THROTTLE]]
    becomes 0, and when [prepareForTakeoffOnReset] was set the velocity-Z
    integrator is seeded with -500 and the flag is cleared.  The altitude
    target, the flags of [posControl] and [rcCommand[THROTTLE]] are left as
    they were. *)
Theorem stale_altitude_tick_resets (cfg : config_t) (currentTime : Z) (s : state_t) :
  altitudeTickIsStale currentTime s = true ->
  let s' := applyMulticopterAltitudeController cfg currentTime s in
  let pc := posControl s in
  let pc' := posControl s' in
  pids_vel_Z (pids pc') =
    (if prepareForTakeoffOnReset s
     then set_integrator (navPidReset (pids_vel_Z (pids pc))) (-500)
     else navPidReset (pids_vel_Z (pids pc))) /\
  integrator (pids_vel_Z (pids pc')) = (if prepareForTakeoffOnReset s then (-500)%Q else 0%Q) /\
  last_input (pids_vel_Z (pids pc')) = 0%Q /\
  pids_surface (pids pc') = navPidReset (pids_surface (pids pc)) /\
  integrator (pids_surface (pids pc')) = 0%Q /\
  last_input (pids_surface (pids pc')) = 0%Q /\
  altholdThrottleFilterState s' = filterResetPt1 (altholdThrottleFilterState s) 0 /\
  desired_vel_Z (desiredState pc') = actual_vel_Z (actualState pc) /\
  actualState pc' = actualState pc /\
  rcAdjustment_THROTTLE pc' = 0 /\
  prepareForTakeoffOnReset s' = false /\
  desired_pos_Z (desiredState pc') = desired_pos_Z (desiredState pc) /\
  flags pc' = flags pc /\
  rcCommand_THROTTLE s' = rcCommand_THROTTLE s /\
  alt_previousTimeUpdate s' = currentTime /\
  alt_previousTimePositionUpdate s' = currentTime.
Proof.
  intros H. cbv zeta. rewrite (applyAltitude_stale cfg currentTime s H).
  unfold resetMulticopterAltitudeController. cbn.
  destruct (prepareForTakeoffOnReset s) eqn:E; cbn; rewrite ?E;
    repeat split; reflexivity.
Qed.

(** C10.  With the throttle settings in the range of [int16_t]: on a stale
    tick the altitude controller leaves [rcCommand[THROTTLE]] as it was; on
    every other call it stores
    [constrain(mc_hover_throttle + rcAdjustment[THROTTLE], minthrottle, maxthrottle)]
    in it, with the adjustment as it stands at the end of the call, and when
    no new vertical position data has arrived that adjustment is the one the
    call found. *)
Theorem altitude_throttle_store (cfg : config_t) (currentTime : Z) (s : state_t) :
  throttleConfig_int16 cfg ->
  let s' := applyMulticopterAltitudeController cfg currentTime s in
  (altitudeTickIsStale currentTime s = true ->
     rcCommand_THROTTLE s' = rcCommand_THROTTLE s) /\
  (altitudeTickIsStale currentTime s = false ->
     rcCommand_THROTTLE s' =
       constrain (mc_hover_throttle (navConfig cfg) + rcAdjustment_THROTTLE (posControl s'))
         (minthrottle (escAndServoConfig cfg)) (maxthrottle (escAndServoConfig cfg)) /\
     (verticalPositionDataNew (flags (posControl s)) = false ->
        rcAdjustment_THROTTLE (posControl s') = rcAdjustment_THROTTLE (posControl s))).
Proof.
  intros Hc. cbv zeta. split.
  - intros H. rewrite (applyAltitude_stale cfg currentTime s H).
    rewrite resetAltitude_rcCommand. reflexivity.
  - intros H. split.
    + rewrite (proj1 (applyAltitude_fresh_throttle cfg currentTime s H)).
      apply hoverThrottleCommand_clamp. exact Hc.
    + intros N. rewrite (applyAltitude_fresh_no_data cfg currentTime s H N). reflexivity.
Qed.

(** ** What one call of the emergency landing controller does *)

Lemma applyEmergency_no_sensor (cfg : config_t) (currentTime : Z) (s : state_t) :
  hasValidAltitudeSensor (flags (posControl s)) = false ->
  rcCommand_THROTTLE (applyMulticopterEmergencyLandingController cfg currentTime s) =
  match getActiveFailsafeConfig cfg with
  | Some failsafeConfig => to_int16 (failsafe_throttle failsafeConfig)
  | None => to_int16 (minthrottle (escAndServoConfig cfg))
  end.
Proof.
  unfold applyMulticopterEmergencyLandingController. intros H.
  cbn. rewrite H. destruct (getActiveFailsafeConfig cfg); reflexivity.
Qed.

Lemma applyEmergency_fresh_throttle (cfg : config_t) (currentTime : Z) (s : state_t) :
  hasValidAltitudeSensor (flags (posControl s)) = true ->
  emergencyTickIsStale currentTime s = false ->
  let s' := applyMulticopterEmergencyLandingController cfg currentTime s in
  rcCommand_THROTTLE s' = hoverThrottleCommand cfg (posControl s').
Proof.
  unfold emergencyTickIsStale, applyMulticopterEmergencyLandingController. intros V H.
  cbn. rewrite V, H. reflexivity.
Qed.

Lemma applyEmergency_stale (cfg : config_t) (currentTime : Z) (s : state_t) :
  hasValidAltitudeSensor (flags (posControl s)) = true ->
  emergencyTickIsStale currentTime s = true ->
  rcCommand_THROTTLE (applyMulticopterEmergencyLandingController cfg currentTime s)
  = rcCommand_THROTTLE s.
Proof.
  unfold emergencyTickIsStale, applyMulticopterEmergencyLandingController. intros V H.
  cbn. rewrite V, H. rewrite resetAltitude_rcCommand. reflexivity.
Qed.

(** C1 (amended).  With the throttle settings in the range of [int16_t]
    and [minthrottle <= maxthrottle]: every call of the altitude controller
    that is not stale, and every call of the emergency landing controller
    with a valid altitude sensor that is not stale, leaves
    [minthrottle <= rcCommand[THROTTLE] <= maxthrottle]; on a stale tick
    neither stores a throttle.  With an invalid altitude sensor the
    emergency landing controller stores the failsafe throttle as configured,
    without a clamp, or [minthrottle] when no failsafe configuration is
    active. *)
Theorem throttle_command_bounds (cfg : config_t) (currentTime : Z) (s : state_t) :
  throttleConfig_int16 cfg ->
  minthrottle (escAndServoConfig cfg) <= maxthrottle (escAndServoConfig cfg) ->
  let lo := minthrottle (escAndServoConfig cfg) in
  let hi := maxthrottle (escAndServoConfig cfg) in
  let alt := applyMulticopterAltitudeController cfg currentTime s in
  let emerg := applyMulticopterEmergencyLandingController cfg currentTime s in
  (altitudeTickIsStale currentTime s = false -> lo <= rcCommand_THROTTLE alt <= hi) /\
  (altitudeTickIsStale currentTime s = true ->
     rcCommand_THROTTLE alt = rcCommand_THROTTLE s) /\
  (hasValidAltitudeSensor (flags (posControl s)) = true ->
     (emergencyTickIsStale currentTime s = false -> lo <= rcCommand_THROTTLE emerg <= hi) /\
     (emergencyTickIsStale currentTime s = true ->
        rcCommand_THROTTLE emerg = rcCommand_THROTTLE s)) /\
  (hasValidAltitudeSensor (flags (posControl s)) = false ->
     rcCommand_THROTTLE emerg =
     match getActiveFailsafeConfig cfg with
     | Some failsafeConfig => to_int16 (failsafe_throttle failsafeConfig)
     | None => lo
     end).
Proof.
  intros Hc Hle. cbv zeta. split; [|split; [|split]].
  - intros H. rewrite (proj1 (applyAltitude_fresh_throttle cfg currentTime s H)).
    apply hoverThrottleCommand_bounds; assumption.
  - intros H. rewrite (applyAltitude_stale cfg currentTime s H).
    rewrite resetAltitude_rcCommand. reflexivity.
  - intros V. split; intros H.
    + rewrite (applyEmergency_fresh_throttle cfg currentTime s V H).
      apply hoverThrottleCommand_bounds; assumption.
    + exact (applyEmergency_stale cfg currentTime s V H).
  - intros V. rewrite (applyEmergency_no_sensor cfg currentTime s V).
    destruct (getActiveFailsafeConfig cfg); [reflexivity|].
    apply to_int16_id. destruct Hc as (Hmin & _). lia.
Qed.

(** ** The land detector *)

(** The result of a poll as one boolean expression. *)
Lemma landing_detected_bool (cfg : config_t) (s : state_t)
    (currentTime landingTimer ptr : Z) (flag : bool) :
  let actual := actualState (posControl s) in
  fst (fst (isMulticopterLandingDetected cfg s currentTime landingTimer ptr flag)) =
  negb (ptr =? 0)
  && (rcCommandAdjustedThrottle s <? mc_min_fly_throttle (navConfig cfg))
  && negb (Qlt_bool 25 (Qabs (actual_vel_Z actual)))
  && negb (Qlt_bool 100 (actual_velXY actual))
  && (negb (hasValidSurfaceSensor (flags (posControl s))
            && Qle_bool 0 (actual_surface actual) && Qle_bool 0 (actual_surfaceMin actual))
      || Qle_bool (actual_surface actual) (actual_surfaceMin actual + 5)%Q)
  && (to_uint32 (LAND_DETECTOR_TRIGGER_TIME_MS * 1000)
      <? to_uint32 (currentTime - landingTimer)).
Proof.
  unfold isMulticopterLandingDetected. cbv zeta.
  destruct (negb (ptr =? 0));
    destruct (rcCommandAdjustedThrottle s <? mc_min_fly_throttle (navConfig cfg));
    destruct (Qlt_bool 25 (Qabs (actual_vel_Z (actualState (posControl s)))));
    destruct (Qlt_bool 100 (actual_velXY (actualState (posControl s))));
    destruct (hasValidSurfaceSensor (flags (posControl s)));
    destruct (Qle_bool 0 (actual_surface (actualState (posControl s))));
    destruct (Qle_bool 0 (actual_surfaceMin (actualState (posControl s))));
    destruct (Qle_bool (actual_surface (actualState (posControl s)))
                (actual_surfaceMin (actualState (posControl s)) + 5)%Q);
    reflexivity.
Qed.

(** The timer is left alone by a poll that finds every condition
    satisfied, and restarted at the current time by any other poll. *)
Lemma landing_timer_restart (cfg : config_t) (s : state_t)
    (currentTime landingTimer ptr : Z) (flag : bool) :
  let actual := actualState (posControl s) in
  snd (fst (isMulticopterLandingDetected cfg s currentTime landingTimer ptr flag)) =
  if negb (ptr =? 0)
     && (rcCommandAdjustedThrottle s <? mc_min_fly_throttle (navConfig cfg))
     && negb (Qlt_bool 25 (Qabs (actual_vel_Z actual)))
     && negb (Qlt_bool 100 (actual_velXY actual))
     && (negb (hasValidSurfaceSensor (flags (posControl s))
               && Qle_bool 0 (actual_surface actual) && Qle_bool 0 (actual_surfaceMin actual))
         || Qle_bool (actual_surface actual) (actual_surfaceMin actual + 5)%Q)
  then landingTimer else currentTime.
Proof.
  unfold isMulticopterLandingDetected. cbv zeta.
  destruct (negb (ptr =? 0));
    destruct (rcCommandAdjustedThrottle s <? mc_min_fly_throttle (navConfig cfg));
    destruct (Qlt_bool 25 (Qabs (actual_vel_Z (actualState (posControl s)))));
    destruct (Qlt_bool 100 (actual_velXY (actualState (posControl s))));
    destruct (hasValidSurfaceSensor (flags (posControl s)));
    destruct (Qle_bool 0 (actual_surface (actualState (posControl s))));
    destruct (Qle_bool 0 (actual_surfaceMin (actualState (posControl s))));
    destruct (Qle_bool (actual_surface (actualState (posControl s)))
                (actual_surfaceMin (actualState (posControl s)) + 5)%Q);
    reflexivity.
Qed.

(** The detector reports a landing exactly when the pointer it was handed
    is not null, the adjusted throttle is below [mc_min_fly_throttle], the
    vertical speed is at most 25 cm/s, the horizontal speed at most 100 cm/s,
    a valid surface reading is within 5 cm of its minimum, and more than the
    trigger time has passed since the timer was restarted.  The content of
    the flag does not enter. *)
Lemma landing_detected_iff (cfg : config_t) (s : state_t)
    (currentTime landingTimer ptr : Z) (flag : bool) :
  let actual := actualState (posControl s) in
  fst (fst (isMulticopterLandingDetected cfg s currentTime landingTimer ptr flag)) = true <->
  ptr <> 0 /\
  rcCommandAdjustedThrottle s < mc_min_fly_throttle (navConfig cfg) /\
  (Qabs (actual_vel_Z actual) <= 25)%Q /\
  (actual_velXY actual <= 100)%Q /\
  (hasValidSurfaceSensor (flags (posControl s)) = true ->
   (0 <= actual_surface actual)%Q -> (0 <= actual_surfaceMin actual)%Q ->
   (actual_surface actual <= actual_surfaceMin actual + 5)%Q) /\
  to_uint32 (LAND_DETECTOR_TRIGGER_TIME_MS * 1000) < to_uint32 (currentTime - landingTimer).
Proof.
  cbv zeta. rewrite landing_detected_bool. cbv zeta.
  rewrite !andb_true_iff, orb_true_iff, !negb_true_iff, !andb_false_iff.
  rewrite Z.eqb_neq, !Z.ltb_lt. unfold Qlt_bool.
  rewrite !negb_false_iff, !Qle_bool_iff.
  split.
  - intros (((((Hp & Ht) & Hv) & Hh) & Hs) & He).
    repeat split; try assumption.
    intros Hvalid H0 H1. destruct Hs as [[[Hs | Hs] | Hs] | Hs].
    + congruence.
    + apply Qle_bool_iff in H0. congruence.
    + apply Qle_bool_iff in H1. congruence.
    + exact Hs.
  - intros (Hp & Ht & Hv & Hh & Hs & He).
    repeat split; try assumption.
    destruct (hasValidSurfaceSensor (flags (posControl s))); [|left; left; left; reflexivity].
    destruct (Qle_bool 0 (actual_surface (actualState (posControl s)))) eqn:E0;
      [|left; left; right; reflexivity].
    destruct (Qle_bool 0 (actual_surfaceMin (actualState (posControl s)))) eqn:E1;
      [|left; right; reflexivity].
    right. apply Hs; [reflexivity | apply Qle_bool_iff; exact E0 | apply Qle_bool_iff; exact E1].
Qed.

(** C4 (the code at the failing input).  The detector is handed a valid
    pointer to a [hasHadSomeVelocity] that is false, and the craft has not
    descended faster than 25 cm/s at this poll, so the flag stays false.  When
    the vertical speed is at most 25 cm/s, the horizontal speed at most
    100 cm/s, the adjusted throttle below [mc_min_fly_throttle], no surface
    sensor is valid and more than the trigger time has passed since the timer
    was restarted, the detector returns true: the test reads the pointer,
    which is not null, and not the flag. *)
Theorem landing_detected_without_descent (cfg : config_t) (s : state_t)
    (currentTime landingTimer ptr : Z) :
  ptr <> 0 ->
  (Qabs (actual_vel_Z (actualState (posControl s))) <= 25)%Q ->
  (actual_velXY (actualState (posControl s)) <= 100)%Q ->
  rcCommandAdjustedThrottle s < mc_min_fly_throttle (navConfig cfg) ->
  hasValidSurfaceSensor (flags (posControl s)) = false ->
  to_uint32 (LAND_DETECTOR_TRIGGER_TIME_MS * 1000) < to_uint32 (currentTime - landingTimer) ->
  isMulticopterLandingDetected cfg s currentTime landingTimer ptr false
  = (true, landingTimer, false).
Proof.
  intros Hp Hv Hxy Ht Hs He. unfold isMulticopterLandingDetected. cbv zeta.
  assert (V : Qlt_bool 25 (Qabs (actual_vel_Z (actualState (posControl s)))) = false).
  { unfold Qlt_bool. apply negb_false_iff. apply Qle_bool_iff. exact Hv. }
  assert (X : Qlt_bool 100 (actual_velXY (actualState (posControl s))) = false).
  { unfold Qlt_bool. apply negb_false_iff. apply Qle_bool_iff. exact Hxy. }
  assert (D : Qlt_bool (actual_vel_Z (actualState (posControl s))) (-25) = false).
  { unfold Qlt_bool. apply negb_false_iff. apply Qle_bool_iff.
    apply Qabs_Qle_condition in Hv. destruct Hv as [Hv _]. exact Hv. }
  rewrite V, X, D, Hs.
  apply Z.eqb_neq in Hp. rewrite Hp.
  apply Z.ltb_lt in Ht. rewrite Ht.
  apply Z.ltb_lt in He. rewrite He. reflexivity.
Qed.

(** * Further parts of the navigation controller *)

(** ** Pilot input to the altitude controller *)

(** C's integer division: it truncates, and it is undefined for a zero
    divisor. *)
Definition cdiv (a b : Z) : option Z := if b =? 0 then None else Some (Z.quot a b).

(** The result is the returned flag and the new state, or [None] when the
    scaling divides by zero. *)
Definition adjustMulticopterAltitudeFromRCInput (cfg : config_t) (s : state_t)
    : option (bool * state_t) :=
  let rcThrottleAdjustment := to_int16 (rcCommand_THROTTLE s - altHoldThrottleRCZero s) in
  if alt_hold_deadband (rcControlsConfig cfg) <? ABS rcThrottleAdjustment then
    rcClimbRate <-
      (if 0 <? rcThrottleAdjustment
       then cdiv (rcThrottleAdjustment * max_manual_climb_rate (navConfig cfg))
                 (maxthrottle (escAndServoConfig cfg) - altHoldThrottleRCZero s)
       else cdiv (rcThrottleAdjustment * max_manual_climb_rate (navConfig cfg))
                 (altHoldThrottleRCZero s - minthrottle (escAndServoConfig cfg))) ;;
    Some (true,
          set_posControl s
            (updateAltitudeTargetFromClimbRate (inject_Z rcClimbRate)
               CLIMB_RATE_UPDATE_SURFACE_TARGET (posControl s)))
  else
    Some (false,
          if isAdjustingAltitude (flags (posControl s))
          then set_posControl s
                 (updateAltitudeTargetFromClimbRate 0 CLIMB_RATE_UPDATE_SURFACE_TARGET
                    (posControl s))
          else s).

(** The stick zero that [setupMulticopterAltitudeController] leaves has to
    keep the dead band clear of both ends of the throttle range. *)
Definition deadbandFits (cfg : config_t) : Prop :=
  0 <= alt_hold_deadband (rcControlsConfig cfg) /\
  minthrottle (escAndServoConfig cfg) + alt_hold_deadband (rcControlsConfig cfg) + 10
  <= maxthrottle (escAndServoConfig cfg) - alt_hold_deadband (rcControlsConfig cfg) - 10.

(** X12.  With throttle settings in the range of [int16_t] and room for
    the dead band, [setupMulticopterAltitudeController] leaves
    [altHoldThrottleRCZero] within
    [minthrottle + deadband + 10, maxthrottle - deadband - 10], whatever the
    stick or the throttle midpoint; it sets [prepareForTakeoffOnReset] when the
    throttle is low and never clears it; and it touches nothing else. *)
Theorem setup_keeps_stick_zero_in_range (cfg : config_t) (st : throttleStatus_e)
    (thrMid : Z) (s : state_t) :
  throttleConfig_int16 cfg -> deadbandFits cfg ->
  let s' := setupMulticopterAltitudeController cfg st thrMid s in
  minthrottle (escAndServoConfig cfg) + alt_hold_deadband (rcControlsConfig cfg) + 10
    <= altHoldThrottleRCZero s'
    <= maxthrottle (escAndServoConfig cfg) - alt_hold_deadband (rcControlsConfig cfg) - 10 /\
  prepareForTakeoffOnReset s' =
    match st with
    | THROTTLE_LOW => true
    | THROTTLE_HIGH => prepareForTakeoffOnReset s
    end /\
  posControl s' = posControl s /\ rcCommand_THROTTLE s' = rcCommand_THROTTLE s.
Proof.
  intros (Hmin & Hmax & _) (Hdb & Hfit). cbv zeta.
  unfold setupMulticopterAltitudeController.
  cbn [altHoldThrottleRCZero prepareForTakeoffOnReset posControl rcCommand_THROTTLE set_altHold].
  split; [|split; [destruct st; reflexivity | split; reflexivity]].
  match goal with |- _ <= to_int16 (constrain ?x ?lo ?hi) <= _ =>
    pose proof (constrain_bounds x lo hi Hfit) as B end.
  rewrite to_int16_id; lia.
Qed.

Lemma cdiv_nonzero (a b : Z) : b <> 0 -> cdiv a b = Some (Z.quot a b).
Proof. intros H. unfold cdiv. apply Z.eqb_neq in H. rewrite H. reflexivity. Qed.

(** X13.  Let the stick zero be strictly between [minthrottle] and
    [maxthrottle], as the setup leaves it, and the throttle stick within
    that range.  Then the scaling never divides by zero.  Outside the dead
    band the function returns true and commands a climb rate of magnitude at
    most [max_manual_climb_rate], which is exactly [+max_manual_climb_rate] at
    [maxthrottle] and [-max_manual_climb_rate] at [minthrottle]; inside the
    dead band it returns false, and changes the state only to lock the
    altitude (climb rate 0) when an adjustment was in progress. *)
Theorem manual_climb_rate_scaling (cfg : config_t) (s : state_t) :
  throttleConfig_int16 cfg ->
  0 <= max_manual_climb_rate (navConfig cfg) ->
  minthrottle (escAndServoConfig cfg) < altHoldThrottleRCZero s
    < maxthrottle (escAndServoConfig cfg) ->
  minthrottle (escAndServoConfig cfg) <= rcCommand_THROTTLE s
    <= maxthrottle (escAndServoConfig cfg) ->
  let stick := rcCommand_THROTTLE s - altHoldThrottleRCZero s in
  let top := max_manual_climb_rate (navConfig cfg) in
  if alt_hold_deadband (rcControlsConfig cfg) <? Z.abs stick then
    exists rate,
      adjustMulticopterAltitudeFromRCInput cfg s =
        Some (true,
              set_posControl s
                (updateAltitudeTargetFromClimbRate (inject_Z rate)
                   CLIMB_RATE_UPDATE_SURFACE_TARGET (posControl s))) /\
      - top <= rate <= top /\
      (0 < stick -> 0 <= rate) /\ (stick < 0 -> rate <= 0) /\
      (rcCommand_THROTTLE s = maxthrottle (escAndServoConfig cfg) -> rate = top) /\
      (rcCommand_THROTTLE s = minthrottle (escAndServoConfig cfg) -> rate = - top)
  else
    adjustMulticopterAltitudeFromRCInput cfg s =
      Some (false,
            if isAdjustingAltitude (flags (posControl s))
            then set_posControl s
                   (updateAltitudeTargetFromClimbRate 0 CLIMB_RATE_UPDATE_SURFACE_TARGET
                      (posControl s))
            else s).
Proof.
  intros (Hmin & Hmax & _) Htop Hz Hc. cbv zeta.
  unfold adjustMulticopterAltitudeFromRCInput.
  rewrite (to_int16_id (rcCommand_THROTTLE s - altHoldThrottleRCZero s)) by lia.
  set (stick := rcCommand_THROTTLE s - altHoldThrottleRCZero s) in *.
  set (top := max_manual_climb_rate (navConfig cfg)) in *.
  assert (A : ABS stick = Z.abs stick).
  { unfold ABS. destruct (0 <? stick) eqn:E;
      [apply Z.ltb_lt in E | apply Z.ltb_ge in E]; lia. }
  rewrite A.
  destruct (alt_hold_deadband (rcControlsConfig cfg) <? Z.abs stick); [|reflexivity].
  destruct (0 <? stick) eqn:E; [apply Z.ltb_lt in E | apply Z.ltb_ge in E].
  - set (span := maxthrottle (escAndServoConfig cfg) - altHoldThrottleRCZero s) in *.
    rewrite cdiv_nonzero by lia. cbn [obind].
    exists (Z.quot (stick * top) span). split; [reflexivity|].
    assert (Hs : stick <= span) by (subst stick span; lia).
    assert (Q : 0 <= Z.quot (stick * top) span <= top).
    { rewrite Z.quot_div_nonneg by nia. split.
      - apply Z.div_pos; nia.
      - apply Z.div_le_upper_bound; nia. }
    repeat split; try lia.
    + intros Hm. assert (stick = span) as -> by (subst stick span; lia).
      rewrite Z.mul_comm. apply Z.quot_mul. lia.
  - set (span := altHoldThrottleRCZero s - minthrottle (escAndServoConfig cfg)) in *.
    rewrite cdiv_nonzero by lia. cbn [obind].
    exists (Z.quot (stick * top) span). split; [reflexivity|].
    assert (Hs : - span <= stick) by (subst stick span; lia).
    assert (Q : - top <= Z.quot (stick * top) span <= 0).
    { replace (stick * top) with (- ((- stick) * top)) by ring.
      rewrite Z.quot_opp_l by lia.
      rewrite Z.quot_div_nonneg by nia.
      assert (0 <= (- stick * top) / span <= top).
      { split; [apply Z.div_pos; nia | apply Z.div_le_upper_bound; nia]. }
      lia. }
    repeat split; try lia.
    + intros Hm. assert (stick = - span) as -> by (subst stick span; lia).
      replace (- span * top) with (- (top * span)) by ring.
      rewrite Z.quot_opp_l by lia. rewrite Z.quot_mul by lia. reflexivity.
Qed.

(** ** The stages of the altitude cascade *)

Lemma US2S_nonneg (us : Z) : 0 <= us -> (0 <= US2S us)%Q.
Proof.
  intros H. unfold US2S, Qle, Qmult, inject_Z. cbn [Qnum Qden]. lia.
Qed.

Lemma constrainf_between (x lo hi : float) :
  (lo <= hi)%Q ->
  (constrainf x lo hi == lo /\ x <= lo)%Q \/
  (constrainf x lo hi == hi /\ hi <= x)%Q \/
  (constrainf x lo hi == x /\ lo <= x <= hi)%Q.
Proof.
  intros H. unfold constrainf.
  destruct (Qlt_bool x lo) eqn:E1.
  - left. apply Qlt_bool_true in E1. split; [reflexivity | lra].
  - apply Qlt_bool_false in E1. destruct (Qlt_bool hi x) eqn:E2.
    + right. left. apply Qlt_bool_true in E2. split; [reflexivity | lra].
    + right. right. apply Qlt_bool_false in E2. split; [reflexivity | lra].
Qed.

(** X16.  The position-to-velocity stage changes [desired.vel.Z] by at
    most [250 * dt] per update, [dt] being the update interval in seconds, and
    keeps it within plus or minus 2000 cm/s once it is there.  It changes
    nothing else in [posControl]. *)
Theorem climb_rate_slew_limited (deltaMicros : Z) (pc : posControl_t) :
  0 <= deltaMicros ->
  let pc' := updateAltitudeVelocityController_MC deltaMicros pc in
  let v := desired_vel_Z (desiredState pc) in
  let v' := desired_vel_Z (desiredState pc') in
  (Qabs (v' - v) <= US2S deltaMicros * 250)%Q /\
  ((Qabs v <= 2000)%Q -> (Qabs v' <= 2000)%Q) /\
  desired_pos_Z (desiredState pc') = desired_pos_Z (desiredState pc) /\
  desired_surface (desiredState pc') = desired_surface (desiredState pc) /\
  flags pc' = flags pc /\ actualState pc' = actualState pc /\ pids pc' = pids pc /\
  rcAdjustment_THROTTLE pc' = rcAdjustment_THROTTLE pc.
Proof.
  intros Hd. cbv zeta. unfold updateAltitudeVelocityController_MC.
  cbn [set_desired_vel_Z desiredState desired_vel_Z desired_pos_Z desired_surface
       flags actualState pids rcAdjustment_THROTTLE].
  pose proof (US2S_nonneg deltaMicros Hd) as Hs.
  set (m := (US2S deltaMicros * 250)%Q) in *.
  assert (Hm : (0 <= m)%Q) by (subst m; lra).
  set (v := desired_vel_Z (desiredState pc)) in *.
  set (t := constrainf _ (-2000) 2000).
  assert (Ht : (-2000 <= t <= 2000)%Q) by (apply constrainf_bounds; discriminate).
  assert (Hb : (v - m <= v + m)%Q) by lra.
  pose proof (constrainf_bounds t (v - m)%Q (v + m)%Q Hb) as B.
  pose proof (constrainf_between t (v - m)%Q (v + m)%Q Hb) as C.
  set (r := constrainf t (v - m) (v + m)) in *. clearbody r t m v.
  split; [apply Qabs_Qle_condition; lra|].
  split; [|repeat split; reflexivity].
  intros Hv. apply Qabs_Qle_condition in Hv. apply Qabs_Qle_condition.
  destruct C as [[C1 C2] | [[C1 C2] | [C1 C2]]]; lra.
Qed.

Lemma thrAdjustment_bounds (cfg : config_t) :
  throttleConfig_int16 cfg ->
  thrAdjustmentMin cfg
    = minthrottle (escAndServoConfig cfg) - mc_hover_throttle (navConfig cfg) /\
  thrAdjustmentMax cfg
    = maxthrottle (escAndServoConfig cfg) - mc_hover_throttle (navConfig cfg).
Proof.
  intros (Hmin & Hmax & Hhov). unfold thrAdjustmentMin, thrAdjustmentMax.
  rewrite !(to_int16_id (minthrottle _)), !(to_int16_id (maxthrottle _)),
          !(to_int16_id (mc_hover_throttle _)) by lia.
  split; apply to_int16_id; lia.
Qed.

Lemma updateAltitudeThrottle_adjustment (cfg : config_t) (deltaMicros : Z) (s : state_t) :
  throttleConfig_int16 cfg ->
  minthrottle (escAndServoConfig cfg) <= maxthrottle (escAndServoConfig cfg) ->
  let s' := updateAltitudeThrottleController_MC cfg deltaMicros s in
  minthrottle (escAndServoConfig cfg) - mc_hover_throttle (navConfig cfg)
    <= rcAdjustment_THROTTLE (posControl s')
    <= maxthrottle (escAndServoConfig cfg) - mc_hover_throttle (navConfig cfg).
Proof.
  intros Hc Hle. cbv zeta. unfold updateAltitudeThrottleController_MC.
  destruct (navPidApply2 _ _ _ _ _ _ _) as [out pid].
  destruct (filterApplyPt1 _ _ _ _) as [filtered f].
  cbn [set_altholdThrottleFilterState set_posControl posControl set_rcAdjustment_THROTTLE
       rcAdjustment_THROTTLE].
  destruct (thrAdjustment_bounds cfg Hc) as [-> ->].
  match goal with |- _ <= to_int16 (constrain ?x ?lo ?hi) <= _ =>
    pose proof (constrain_bounds x lo hi ltac:(lia)) as B end.
  destruct Hc as (Hmin & Hmax & Hhov).
  rewrite to_int16_id; lia.
Qed.

(** X17.  Whatever the PID step and the low-pass filter return, the
    velocity-to-throttle stage leaves [rcAdjustment[THROTTLE]] within
    [minthrottle - mc_hover_throttle, maxthrottle - mc_hover_throttle] (for
    throttle settings in the range of [int16_t] with
    [minthrottle <= maxthrottle]), and it leaves the setpoints, the estimates
    and the flags of [posControl] alone. *)
Theorem throttle_adjustment_within_authority (cfg : config_t) (deltaMicros : Z)
    (s : state_t) :
  throttleConfig_int16 cfg ->
  minthrottle (escAndServoConfig cfg) <= maxthrottle (escAndServoConfig cfg) ->
  let s' := updateAltitudeThrottleController_MC cfg deltaMicros s in
  minthrottle (escAndServoConfig cfg) - mc_hover_throttle (navConfig cfg)
    <= rcAdjustment_THROTTLE (posControl s')
    <= maxthrottle (escAndServoConfig cfg) - mc_hover_throttle (navConfig cfg) /\
  desiredState (posControl s') = desiredState (posControl s) /\
  actualState (posControl s') = actualState (posControl s) /\
  flags (posControl s') = flags (posControl s) /\
  rcCommand_THROTTLE s' = rcCommand_THROTTLE s.
Proof.
  intros Hc Hle. cbv zeta.
  split; [exact (updateAltitudeThrottle_adjustment cfg deltaMicros s Hc Hle)|].
  unfold updateAltitudeThrottleController_MC.
  destruct (navPidApply2 _ _ _ _ _ _ _) as [out pid].
  destruct (filterApplyPt1 _ _ _ _) as [filtered f].
  repeat split; reflexivity.
Qed.

(** ** Calls of the altitude controller with new data *)

(** The second guard of the altitude controller: the time since the
    previous position update. *)
Definition positionUpdateIsLate (currentTime : Z) (s : state_t) : bool :=
  negb (to_uint32 (currentTime - alt_previousTimePositionUpdate s) <? staleThreshold).

Lemma applyAltitude_fresh_new_data (cfg : config_t) (currentTime : Z) (s : state_t) :
  altitudeTickIsStale currentTime s = false ->
  verticalPositionDataNew (flags (posControl s)) = true ->
  let dt := to_uint32 (currentTime - alt_previousTimePositionUpdate s) in
  let s0 := set_alt_times s currentTime currentTime in
  let s1 :=
    if positionUpdateIsLate currentTime s
    then resetMulticopterAltitudeController s0
    else updateAltitudeThrottleController_MC cfg dt
           (set_posControl s0
              (updateAltitudeVelocityController_MC dt
                 (updateSurfaceTrackingAltitudeSetpoint dt (posControl s)))) in
  let s2 := set_posControl s1 (set_verticalPositionDataConsumed (posControl s1)) in
  applyMulticopterAltitudeController cfg currentTime s =
  set_rcCommandAdjustedThrottle
    (set_rcCommand_THROTTLE s2 (hoverThrottleCommand cfg (posControl s2)))
    (hoverThrottleCommand cfg (posControl s2)).
Proof.
  unfold altitudeTickIsStale, applyMulticopterAltitudeController, positionUpdateIsLate.
  intros H N. cbv zeta. rewrite H. cbn [set_alt_times posControl alt_previousTimePositionUpdate
    alt_previousTimeUpdate]. rewrite N.
  destruct (to_uint32 (currentTime - alt_previousTimePositionUpdate s) <? staleThreshold);
    reflexivity.
Qed.

(** X15.  On a call that is not stale and finds new vertical data whose
    previous update lies [HZ2US(MIN_POSITION_UPDATE_RATE_HZ)] or more in the
    past, the altitude controller resets instead of running the cascade, and
    still publishes a throttle: [rcAdjustment[THROTTLE]] is 0, the command is
    the hover throttle clamped to the throttle range, [desired.vel.Z] is
    [actual.vel.Z], and the data is marked consumed. *)
Theorem late_position_update_commands_hover (cfg : config_t) (currentTime : Z)
    (s : state_t) :
  throttleConfig_int16 cfg ->
  altitudeTickIsStale currentTime s = false ->
  verticalPositionDataNew (flags (posControl s)) = true ->
  positionUpdateIsLate currentTime s = true ->
  let s' := applyMulticopterAltitudeController cfg currentTime s in
  rcAdjustment_THROTTLE (posControl s') = 0 /\
  rcCommand_THROTTLE s' =
    constrain (mc_hover_throttle (navConfig cfg))
      (minthrottle (escAndServoConfig cfg)) (maxthrottle (escAndServoConfig cfg)) /\
  rcCommandAdjustedThrottle s' = rcCommand_THROTTLE s' /\
  desired_vel_Z (desiredState (posControl s')) = actual_vel_Z (actualState (posControl s)) /\
  desired_pos_Z (desiredState (posControl s')) = desired_pos_Z (desiredState (posControl s)) /\
  verticalPositionDataConsumed (flags (posControl s')) = true /\
  alt_previousTimePositionUpdate s' = currentTime.
Proof.
  intros Hc H N L. cbv zeta.
  rewrite (applyAltitude_fresh_new_data cfg currentTime s H N). cbv zeta. rewrite L.
  rewrite hoverThrottleCommand_clamp by exact Hc.
  unfold resetMulticopterAltitudeController.
  cbn [set_alt_times prepareForTakeoffOnReset posControl altholdThrottleFilterState
       set_altholdThrottleFilterState].
  destruct (prepareForTakeoffOnReset s); cbn; rewrite Z.add_0_r; repeat split; reflexivity.
Qed.

(** X18.  On a call that is not stale and finds new vertical data in time,
    the cascade runs and the published throttle needs no clamp: it is exactly
    [mc_hover_throttle + rcAdjustment[THROTTLE]], which lies in the throttle
    range, and the data is marked consumed. *)
Theorem timely_update_commands_hover_plus_adjustment (cfg : config_t) (currentTime : Z)
    (s : state_t) :
  throttleConfig_int16 cfg ->
  minthrottle (escAndServoConfig cfg) <= maxthrottle (escAndServoConfig cfg) ->
  altitudeTickIsStale currentTime s = false ->
  verticalPositionDataNew (flags (posControl s)) = true ->
  positionUpdateIsLate currentTime s = false ->
  let s' := applyMulticopterAltitudeController cfg currentTime s in
  rcCommand_THROTTLE s' =
    mc_hover_throttle (navConfig cfg) + rcAdjustment_THROTTLE (posControl s') /\
  minthrottle (escAndServoConfig cfg) <= rcCommand_THROTTLE s'
    <= maxthrottle (escAndServoConfig cfg) /\
  rcCommandAdjustedThrottle s' = rcCommand_THROTTLE s' /\
  verticalPositionDataConsumed (flags (posControl s')) = true.
Proof.
  intros Hc Hle H N L. cbv zeta.
  rewrite (applyAltitude_fresh_new_data cfg currentTime s H N). cbv zeta. rewrite L.
  match goal with
  | |- context [updateAltitudeThrottleController_MC cfg ?dt ?s0] =>
      pose proof (updateAltitudeThrottle_adjustment cfg dt s0 Hc Hle) as B;
      cbv zeta in B; set (s1 := updateAltitudeThrottleController_MC cfg dt s0) in *
  end.
  cbn [set_rcCommandAdjustedThrottle set_rcCommand_THROTTLE rcCommand_THROTTLE
       rcCommandAdjustedThrottle posControl set_posControl].
  rewrite hoverThrottleCommand_clamp by exact Hc.
  cbn [set_verticalPositionDataConsumed rcAdjustment_THROTTLE flags
       verticalPositionDataConsumed].
  assert (E : constrain (mc_hover_throttle (navConfig cfg)
                         + rcAdjustment_THROTTLE (posControl s1))
                (minthrottle (escAndServoConfig cfg)) (maxthrottle (escAndServoConfig cfg))
              = mc_hover_throttle (navConfig cfg) + rcAdjustment_THROTTLE (posControl s1)).
  { unfold constrain.
    replace (_ <? minthrottle _) with false by (symmetry; apply Z.ltb_ge; lia).
    replace (maxthrottle _ <? _) with false by (symmetry; apply Z.ltb_ge; lia).
    reflexivity. }
  rewrite E. repeat split; try reflexivity; lia.
Qed.

(** ** What the emergency landing controller leaves alone *)

(** The stick commands, the throttle saved for the land detector, the
    clock of the altitude controller and the time of the last emergency
    call. *)
Definition bookkeeping (s : state_t) : Z * Z * Z * Z * Z * Z * Z :=
  (rcCommand_ROLL s, rcCommand_PITCH s, rcCommand_YAW s, rcCommandAdjustedThrottle s,
   alt_previousTimeUpdate s, alt_previousTimePositionUpdate s, emerg_previousTimeUpdate s).

Lemma bookkeeping_reset (s : state_t) :
  bookkeeping (resetMulticopterAltitudeController s) = bookkeeping s.
Proof.
  unfold resetMulticopterAltitudeController.
  cbn [set_altholdThrottleFilterState prepareForTakeoffOnReset].
  destruct (prepareForTakeoffOnReset s); reflexivity.
Qed.

Lemma bookkeeping_throttle (cfg : config_t) (deltaMicros : Z) (s : state_t) :
  bookkeeping (updateAltitudeThrottleController_MC cfg deltaMicros s) = bookkeeping s.
Proof.
  unfold updateAltitudeThrottleController_MC.
  destruct (navPidApply2 _ _ _ _ _ _ _) as [out pid].
  destruct (filterApplyPt1 _ _ _ _) as [filtered f].
  reflexivity.
Qed.

Lemma bookkeeping_set_posControl (s : state_t) (pc : posControl_t) :
  bookkeeping (set_posControl s pc) = bookkeeping s.
Proof. reflexivity. Qed.

Lemma bookkeeping_set_rcCommand_THROTTLE (s : state_t) (t : Z) :
  bookkeeping (set_rcCommand_THROTTLE s t) = bookkeeping s.
Proof. reflexivity. Qed.

Lemma bookkeeping_emergency (cfg : config_t) (currentTime : Z) (s : state_t) :
  bookkeeping (applyMulticopterEmergencyLandingController cfg currentTime s) =
  (0, 0, 0, rcCommandAdjustedThrottle s,
   alt_previousTimeUpdate s, alt_previousTimePositionUpdate s, currentTime).
Proof.
  unfold applyMulticopterEmergencyLandingController. cbv zeta.
  repeat match goal with
  | |- bookkeeping (if ?c then _ else _) = _ => destruct c
  | |- bookkeeping (match ?c with Some _ => _ | None => _ end) = _ => destruct c
  | |- bookkeeping (set_rcCommand_THROTTLE _ _) = _ => rewrite bookkeeping_set_rcCommand_THROTTLE
  | |- bookkeeping (set_posControl _ _) = _ => rewrite bookkeeping_set_posControl
  | |- bookkeeping (resetMulticopterAltitudeController _) = _ => rewrite bookkeeping_reset
  | |- bookkeeping (updateAltitudeThrottleController_MC _ _ _) = _ =>
      rewrite bookkeeping_throttle
  end; reflexivity.
Qed.

(** X14.  Every call of the emergency landing controller, stale or not and
    with or without an altitude sensor, leaves the roll, pitch and yaw
    commands at 0.  It never touches the clock of the altitude controller, nor
    [rcCommandAdjustedThrottle], the throttle that the land detector reads:
    that stays at what the altitude controller last saved. *)
Theorem emergency_landing_centres_sticks (cfg : config_t) (currentTime : Z) (s : state_t) :
  let s' := applyMulticopterEmergencyLandingController cfg currentTime s in
  rcCommand_ROLL s' = 0 /\ rcCommand_PITCH s' = 0 /\ rcCommand_YAW s' = 0 /\
  rcCommandAdjustedThrottle s' = rcCommandAdjustedThrottle s /\
  alt_previousTimeUpdate s' = alt_previousTimeUpdate s /\
  alt_previousTimePositionUpdate s' = alt_previousTimePositionUpdate s /\
  emerg_previousTimeUpdate s' = currentTime.
Proof.
  cbv zeta. pose proof (bookkeeping_emergency cfg currentTime s) as B.
  unfold bookkeeping in B. injection B as -> -> -> -> -> -> ->.
  repeat split; reflexivity.
Qed.

(** ** The land detector over a sequence of polls *)

(** The conditions on throttle, motion and surface that one poll tests,
    with the pointer test in the place of the flag. *)
Definition landingConditions (cfg : config_t) (ptr : Z) (s : state_t) : bool :=
  let actual := actualState (posControl s) in
  negb (ptr =? 0)
  && (rcCommandAdjustedThrottle s <? mc_min_fly_throttle (navConfig cfg))
  && negb (Qlt_bool 25 (Qabs (actual_vel_Z actual)))
  && negb (Qlt_bool 100 (actual_velXY actual))
  && (negb (hasValidSurfaceSensor (flags (posControl s))
            && Qle_bool 0 (actual_surface actual) && Qle_bool 0 (actual_surfaceMin actual))
      || Qle_bool (actual_surface actual) (actual_surfaceMin actual + 5)%Q).

Definition descending (s : state_t) : bool :=
  Qlt_bool (actual_vel_Z (actualState (posControl s))) (-25).

(** The caller's loop: each poll is the value of [micros()] and the state
    it finds; the timer and the flag live in the caller and are handed to every
    poll.  The result carries the answer of the last poll. *)
Fixpoint pollLandingDetector (cfg : config_t) (ptr : Z) (polls : list (Z * state_t))
    (landingTimer : Z) (flag : bool) (answer : bool) : bool * Z * bool :=
  match polls with
  | [] => (answer, landingTimer, flag)
  | (t, s) :: rest =>
      let '(answer, landingTimer, flag) :=
        isMulticopterLandingDetected cfg s t landingTimer ptr flag in
      pollLandingDetector cfg ptr rest landingTimer flag answer
  end.

(** The time of the last poll that found a condition violated, or the
    initial timer. *)
Definition lastViolation (cfg : config_t) (ptr : Z) (polls : list (Z * state_t))
    (landingTimer : Z) : Z :=
  fold_left (fun tm p => if landingConditions cfg ptr (snd p) then tm else fst p)
    polls landingTimer.

Lemma landing_poll_result (cfg : config_t) (s : state_t)
    (t landingTimer ptr : Z) (flag : bool) :
  isMulticopterLandingDetected cfg s t landingTimer ptr flag =
  (landingConditions cfg ptr s
   && (to_uint32 (LAND_DETECTOR_TRIGGER_TIME_MS * 1000) <? to_uint32 (t - landingTimer)),
   if landingConditions cfg ptr s then landingTimer else t,
   flag || descending s).
Proof.
  pose proof (landing_detected_bool cfg s t landingTimer ptr flag) as R.
  pose proof (landing_timer_restart cfg s t landingTimer ptr flag) as T.
  cbv zeta in R, T. fold (landingConditions cfg ptr s) in R, T.
  assert (F : snd (isMulticopterLandingDetected cfg s t landingTimer ptr flag)
              = flag || descending s).
  { unfold isMulticopterLandingDetected, descending. cbv zeta.
    match goal with |- snd (if ?c then _ else _) = _ => destruct c end;
      cbn [snd]; destruct flag; cbn [negb andb orb];
      try reflexivity;
      destruct (Qlt_bool (actual_vel_Z (actualState (posControl s))) (-25)); reflexivity. }
  destruct (isMulticopterLandingDetected cfg s t landingTimer ptr flag) as [[r tm] f].
  cbn [fst snd] in R, T, F. subst. reflexivity.
Qed.

Lemma pollLandingDetector_app (cfg : config_t) (ptr : Z) (l1 l2 : list (Z * state_t))
    (landingTimer : Z) (flag answer : bool) :
  pollLandingDetector cfg ptr (l1 ++ l2) landingTimer flag answer =
  let '(a, tm, f) := pollLandingDetector cfg ptr l1 landingTimer flag answer in
  pollLandingDetector cfg ptr l2 tm f a.
Proof.
  revert landingTimer flag answer.
  induction l1 as [|[t s] l1 IH]; intros landingTimer flag answer; [reflexivity|].
  cbn [app pollLandingDetector]. rewrite landing_poll_result. apply IH.
Qed.

Lemma pollLandingDetector_state (cfg : config_t) (ptr : Z) (polls : list (Z * state_t))
    (landingTimer : Z) (flag answer : bool) :
  snd (fst (pollLandingDetector cfg ptr polls landingTimer flag answer))
    = lastViolation cfg ptr polls landingTimer /\
  snd (pollLandingDetector cfg ptr polls landingTimer flag answer)
    = flag || existsb (fun p => descending (snd p)) polls.
Proof.
  revert landingTimer flag answer.
  induction polls as [|[t s] polls IH]; intros landingTimer flag answer.
  - split; [reflexivity | cbn; rewrite orb_false_r; reflexivity].
  - cbn [pollLandingDetector]. rewrite landing_poll_result.
    destruct (IH (if landingConditions cfg ptr s then landingTimer else t)
                 (flag || descending s)
                 (landingConditions cfg ptr s
                  && (to_uint32 (LAND_DETECTOR_TRIGGER_TIME_MS * 1000)
                      <? to_uint32 (t - landingTimer)))) as [I1 I2].
    split; [exact I1|]. rewrite I2. cbn [existsb snd]. symmetry. apply orb_assoc.
Qed.

(** X19.  Over any sequence of polls, handed a valid pointer or not: the
    timer ends at the time of the last poll that found a condition on
    throttle, motion or surface violated (or at its initial value when none
    did); the flag ends true exactly when it started true or some poll saw a
    descent faster than 25 cm/s; and the last poll answers true exactly when
    its own conditions hold and more than the trigger time separates it from
    the last violation before it. *)
Theorem landing_detector_over_polls (cfg : config_t) (ptr : Z)
    (polls : list (Z * state_t)) (t : Z) (s : state_t)
    (landingTimer : Z) (flag answer : bool) :
  pollLandingDetector cfg ptr (polls ++ [(t, s)]) landingTimer flag answer =
  (landingConditions cfg ptr s
   && (to_uint32 (LAND_DETECTOR_TRIGGER_TIME_MS * 1000)
       <? to_uint32 (t - lastViolation cfg ptr polls landingTimer)),
   lastViolation cfg ptr (polls ++ [(t, s)]) landingTimer,
   flag || existsb (fun p => descending (snd p)) (polls ++ [(t, s)])).
Proof.
  rewrite pollLandingDetector_app.
  destruct (pollLandingDetector_state cfg ptr polls landingTimer flag answer) as [S1 S2].
  destruct (pollLandingDetector cfg ptr polls landingTimer flag answer) as [[a tm] f].
  cbn [fst snd] in S1, S2. subst tm f.
  cbn [pollLandingDetector]. rewrite landing_poll_result.
  unfold lastViolation. rewrite fold_left_app. cbn [fold_left fst snd].
  rewrite existsb_app. cbn [existsb snd]. rewrite orb_false_r, orb_assoc. reflexivity.
Qed.

End Controller.

(** ** A concrete instance

    The filter state is the last output of a pass-through filter; the PID
    step is proportional only and remembers its input; a climb rate moves
    the altitude target by one second of climb.  The constants are those of
    the firmware: updates at 5 Hz or more, a 4 Hz throttle filter, a landing
    trigger of 2000 ms. *)

Definition holdPt1 (input : float) (st : float) (f_cut dT_ : float) : float * float :=
  (input, input).

Definition resetPt1 (st : float) (input : float) : float := input.

Definition proportionalPid (setpoint measurement dt : float) (pid : pidController_t float)
    (outMin outMax : float) (dTermErrorTracking : bool) : float * pidController_t float :=
  (constrainf ((setpoint - measurement) * param_kP _ pid)%Q outMin outMax,
   {| param_kP := param_kP _ pid; param_kI := param_kI _ pid; param_kD := param_kD _ pid;
      integrator := integrator _ pid; last_input := measurement;
      dterm_filter_state := dterm_filter_state _ pid |}).

Definition climbTarget (climbRate : float) (mode : climbRateToAltitudeControllerMode_e)
    (pc : posControl_t float) : posControl_t float :=
  set_desired_pos_Z _ pc (actual_pos_Z (actualState _ pc) + climbRate)%Q.

Definition applyAltitude : config_t -> Z -> state_t float -> state_t float :=
  applyMulticopterAltitudeController float holdPt1 resetPt1 5 4 proportionalPid climbTarget.

Definition applyEmergency : config_t -> Z -> state_t float -> state_t float :=
  applyMulticopterEmergencyLandingController float holdPt1 resetPt1 5 4
    proportionalPid climbTarget.

Definition landingDetected :
    config_t -> state_t float -> Z -> Z -> Z -> bool -> bool * Z * bool :=
  isMulticopterLandingDetected float 2000.

(** Throttle from 1150 to 1850, hover at 1500, failsafe throttle 1000. *)
Definition sampleConfig : config_t :=
  {| escAndServoConfig := {| minthrottle := 1150; maxthrottle := 1850 |};
     navConfig := {| mc_hover_throttle := 1500; mc_min_fly_throttle := 1200;
                     emerg_descent_rate := 500; max_manual_climb_rate := 200;
                     use_thr_mid_for_althold := false |};
     rcControlsConfig := {| alt_hold_deadband := 50 |};
     getActiveFailsafeConfig := Some {| failsafe_throttle := 1000 |} |}.

Definition samplePid (kP_ integ : float) : pidController_t float :=
  {| param_kP := kP_; param_kI := 0; param_kD := 0; integrator := integ;
     last_input := 3; dterm_filter_state := 7%Q |}.

(** A craft at rest one metre below its altitude target, the previous call
    of both controllers at time 0, [rcCommand[THROTTLE]] at 1400. *)
Definition sampleState (validAltitude newData prepare : bool) (adjustment : Z)
    : state_t float :=
  {| posControl :=
       {| flags := {| verticalPositionDataNew := newData;
                      verticalPositionDataConsumed := false;
                      hasValidAltitudeSensor := validAltitude;
                      hasValidSurfaceSensor := false;
                      isTerrainFollowEnabled := false;
                      isAdjustingAltitude := false |};
          actualState := {| actual_pos_Z := 0; actual_vel_Z := 0; actual_velXY := 0;
                            actual_surface := -1; actual_surfaceMin := -1 |};
          desiredState := {| desired_pos_Z := 100; desired_vel_Z := 12;
                             desired_surface := -1 |};
          pids := {| pids_pos_Z := samplePid 1 0; pids_vel_Z := samplePid 2 37;
                     pids_surface := samplePid 1 5 |};
          rcAdjustment_THROTTLE := adjustment |};
     rcCommand_ROLL := 0; rcCommand_PITCH := 0; rcCommand_YAW := 0;
     rcCommand_THROTTLE := 1400;
     rcCommandAdjustedThrottle := 1150;
     altHoldThrottleRCZero := 1500;
     altholdThrottleFilterState := 9%Q;
     prepareForTakeoffOnReset := prepare;
     alt_previousTimePositionUpdate := 0;
     alt_previousTimeUpdate := 0;
     emerg_previousTimeUpdate := 0;
     emerg_previousTimePositionUpdate := 0 |}.

Lemma sampleConfig_int16 : throttleConfig_int16 sampleConfig.
Proof. unfold throttleConfig_int16. cbn. lia. Defined.

(** ** The theorems at concrete inputs *)

(** After a gap of 500 ms, with a take-off pending. *)
Lemma stale_altitude_tick_resets_witness :
  altitudeTickIsStale float 5 500000 (sampleState true true true 80) = true /\
  let s' := applyAltitude sampleConfig 500000 (sampleState true true true 80) in
  integrator _ (pids_vel_Z _ (pids _ (posControl _ s'))) = (-500)%Q /\
  desired_vel_Z (desiredState _ (posControl _ s')) = 0%Q /\
  rcAdjustment_THROTTLE _ (posControl _ s') = 0.
Proof.
  assert (H : altitudeTickIsStale float 5 500000 (sampleState true true true 80) = true)
    by reflexivity.
  split; [exact H|].
  pose proof (stale_altitude_tick_resets float holdPt1 resetPt1 5 4 proportionalPid
                climbTarget sampleConfig 500000 (sampleState true true true 80) H) as R.
  cbv zeta in R. cbv zeta. unfold applyAltitude.
  destruct R as (_ & R2 & _ & _ & _ & _ & _ & R8 & _ & R10 & _).
  split; [exact R2|]. split; [exact R8 | exact R10].
Defined.

(** 10 ms after the previous call, without new vertical data, adjustment 80. *)
Lemma altitude_throttle_store_witness :
  throttleConfig_int16 sampleConfig /\
  rcCommand_THROTTLE _ (applyAltitude sampleConfig 10000 (sampleState true false false 80))
  = 1580.
Proof.
  split; [exact sampleConfig_int16|].
  destruct (altitude_throttle_store float holdPt1 resetPt1 5 4 proportionalPid climbTarget
              sampleConfig 10000 (sampleState true false false 80) sampleConfig_int16)
    as [_ H].
  destruct (H eq_refl) as [H1 H2]. unfold applyAltitude. rewrite H1.
  rewrite (H2 eq_refl). reflexivity.
Defined.

(** 10 ms after the previous call, with new vertical data. *)
Lemma throttle_command_bounds_witness :
  throttleConfig_int16 sampleConfig /\
  1150 <= rcCommand_THROTTLE _ (applyAltitude sampleConfig 10000
                                  (sampleState true true false 80)) <= 1850.
Proof.
  split; [exact sampleConfig_int16|].
  assert (Hle : minthrottle (escAndServoConfig sampleConfig)
                <= maxthrottle (escAndServoConfig sampleConfig)) by (cbn; lia).
  destruct (throttle_command_bounds float holdPt1 resetPt1 5 4 proportionalPid climbTarget
              sampleConfig 10000 (sampleState true true false 80) sampleConfig_int16 Hle)
    as [H _].
  exact (H eq_refl).
Defined.

(** C1 (as stated).  In the emergency landing controller with an invalid
    altitude sensor and an active failsafe configuration whose throttle is
    1000, [rcCommand[THROTTLE]] becomes 1000, below the [minthrottle] of
    1150. *)
Lemma failsafe_throttle_below_minthrottle :
  rcCommand_THROTTLE _ (applyEmergency sampleConfig 10000 (sampleState false true false 80))
  = 1000 /\
  ~ (minthrottle (escAndServoConfig sampleConfig)
     <= rcCommand_THROTTLE _ (applyEmergency sampleConfig 10000
                                (sampleState false true false 80))
     <= maxthrottle (escAndServoConfig sampleConfig)).
Proof.
  assert (E : rcCommand_THROTTLE _ (applyEmergency sampleConfig 10000
                                      (sampleState false true false 80)) = 1000)
    by (vm_compute; reflexivity).
  split; [exact E|]. rewrite E. cbn. lia.
Qed.

(** The craft never descended: the flag is false and stays false, and the
    detector reports a landing 2000.001 ms after the timer was started. *)
Lemma landing_detected_without_descent_witness :
  landingDetected sampleConfig (sampleState true false false 0) 2000001 0 536870912 false
  = (true, 0, false).
Proof.
  apply (landing_detected_without_descent float 2000 sampleConfig
           (sampleState true false false 0) 2000001 0 536870912).
  - discriminate.
  - vm_compute. discriminate.
  - vm_compute. discriminate.
  - reflexivity.
  - reflexivity.
  - reflexivity.
Defined.

(** ** The further properties at concrete inputs *)

Lemma sampleConfig_deadbandFits : deadbandFits sampleConfig.
Proof. unfold deadbandFits. cbn. lia. Defined.

(** The throttle midpoint, 1100, is below the allowed range. *)
Lemma setup_keeps_stick_zero_in_range_witness :
  altHoldThrottleRCZero _
    (setupMulticopterAltitudeController float sampleConfig THROTTLE_LOW 1100
       (sampleState true false false 0)) = 1210.
Proof.
  pose proof (setup_keeps_stick_zero_in_range float sampleConfig THROTTLE_LOW 1100
                (sampleState true false false 0) sampleConfig_int16
                sampleConfig_deadbandFits) as H.
  cbv zeta in H. destruct H as [[H _] _].
  apply Z.le_antisymm; [|exact H]. vm_compute. discriminate.
Defined.

(** The stick at 1400 with the zero at 1500: a descent of 57 cm/s. *)
Lemma manual_climb_rate_scaling_witness :
  exists rate,
    adjustMulticopterAltitudeFromRCInput float climbTarget sampleConfig
      (sampleState true false false 0) =
    Some (true,
          set_posControl _ (sampleState true false false 0)
            (climbTarget (inject_Z rate) CLIMB_RATE_UPDATE_SURFACE_TARGET
               (posControl _ (sampleState true false false 0)))) /\
    -200 <= rate <= 0.
Proof.
  assert (H1 : 0 <= max_manual_climb_rate (navConfig sampleConfig)) by (cbn; lia).
  assert (H2 : minthrottle (escAndServoConfig sampleConfig)
               < altHoldThrottleRCZero _ (sampleState true false false 0)
               < maxthrottle (escAndServoConfig sampleConfig)) by (cbn; lia).
  assert (H3 : minthrottle (escAndServoConfig sampleConfig)
               <= rcCommand_THROTTLE _ (sampleState true false false 0)
               <= maxthrottle (escAndServoConfig sampleConfig)) by (cbn; lia).
  pose proof (manual_climb_rate_scaling float climbTarget sampleConfig
                (sampleState true false false 0) sampleConfig_int16 H1 H2 H3) as H.
  cbv zeta in H.
  change (alt_hold_deadband (rcControlsConfig sampleConfig)
          <? Z.abs (rcCommand_THROTTLE _ (sampleState true false false 0)
                    - altHoldThrottleRCZero _ (sampleState true false false 0)))
    with true in H.
  cbv iota in H. destruct H as (rate & E & B & _ & N & _).
  exists rate. split; [exact E|]. split; [exact (proj1 B)|].
  apply N. cbn. lia.
Defined.

Lemma climb_rate_slew_limited_witness :
  (Qabs (desired_vel_Z
           (desiredState _
              (updateAltitudeVelocityController_MC float 10000
                 (posControl _ (sampleState true true false 80))))
         - 12) <= US2S 10000 * 250)%Q.
Proof.
  assert (H : 0 <= 10000) by lia.
  exact (proj1 (climb_rate_slew_limited float 10000
                  (posControl _ (sampleState true true false 80)) H)).
Defined.

Lemma sampleConfig_ordered :
  minthrottle (escAndServoConfig sampleConfig) <= maxthrottle (escAndServoConfig sampleConfig).
Proof. cbn. lia. Defined.

Lemma throttle_adjustment_within_authority_witness :
  -350 <= rcAdjustment_THROTTLE _
            (posControl _
               (updateAltitudeThrottleController_MC float holdPt1 4 proportionalPid
                  sampleConfig 10000 (sampleState true true false 80))) <= 350.
Proof.
  exact (proj1 (throttle_adjustment_within_authority float holdPt1 4 proportionalPid
                  sampleConfig 10000 (sampleState true true false 80)
                  sampleConfig_int16 sampleConfig_ordered)).
Defined.

(** The previous call 10 ms ago, the previous position update 300 ms ago. *)
Definition lateUpdateState : state_t float :=
  set_alt_times _ (sampleState true true false 80) 0 290000.

Lemma late_position_update_commands_hover_witness :
  rcCommand_THROTTLE _ (applyAltitude sampleConfig 300000 lateUpdateState) = 1500 /\
  rcAdjustment_THROTTLE _ (posControl _ (applyAltitude sampleConfig 300000 lateUpdateState))
  = 0.
Proof.
  destruct (late_position_update_commands_hover float holdPt1 resetPt1 5 4 proportionalPid
              climbTarget sampleConfig 300000 lateUpdateState sampleConfig_int16
              eq_refl eq_refl eq_refl) as (H1 & H2 & _).
  split; [exact H2 | exact H1].
Defined.

Lemma timely_update_commands_hover_plus_adjustment_witness :
  rcCommand_THROTTLE _ (applyAltitude sampleConfig 10000 (sampleState true true false 80))
  = 1500 + rcAdjustment_THROTTLE _
             (posControl _ (applyAltitude sampleConfig 10000
                              (sampleState true true false 80))).
Proof.
  exact (proj1 (timely_update_commands_hover_plus_adjustment float holdPt1 resetPt1 5 4
                  proportionalPid climbTarget sampleConfig 10000
                  (sampleState true true false 80) sampleConfig_int16 sampleConfig_ordered
                  eq_refl eq_refl eq_refl)).
Defined.

End Nav.

(** * The horizontal position controller and the dispatcher
      ([flight/navigation_rewrite_multicopter.c], second half)

    The fields of [posControl] and the statics that the horizontal code
    uses are kept in a record of their own, [xy_t], beside the state of the
    altitude code. *)

Module NavXY.

Import Nav.

Inductive navUserControlMode_e : Type := NAV_GPS_ATTI | NAV_GPS_CRUISE.

Record navConfigXY_t : Type := {
  max_manual_speed : Z;                     (* uint16_t *)
  mc_max_bank_angle : Z;                    (* uint8_t *)
  user_control_mode : navUserControlMode_e
}.

Record configXY_t : Type := {
  altConfig : config_t;
  navConfigXY : navConfigXY_t;
  pos_hold_deadband : Z                     (* uint8_t *)
}.

(** The bits of [navigationFSMStateFlags_t] that the dispatcher tests. *)
Record navStateFlags_t : Type := {
  NAV_CTL_ALT : bool;
  NAV_CTL_POS : bool;
  NAV_CTL_YAW : bool;
  NAV_CTL_EMERG : bool
}.

(** What the horizontal code asks the navigation state machine:
    [navGetCurrentStateFlags() & NAV_AUTO_WP] and [getActiveWaypointSpeed()]. *)
Record navQueries_t : Type := {
  inAutoWaypoint : bool;
  getActiveWaypointSpeed : float
}.

Definition GRAVITY_CMSS : float := (980665 # 1000)%Q.

(** [#define sq(x) ((x)*(x))] *)
Definition sq (x : float) : float := (x * x)%Q.

(** Modelled from the spec: [CENTIDEGREES_TO_DEGREES] of [common/maths.h],
    on an integer number of centi-degrees. *)
Definition CENTIDEGREES_TO_DEGREES (angle : Z) : Z := Z.quot angle 100.

(** [DEGREES_TO_DECIDEGREES] on an integer number of degrees. *)
Definition DEGREES_TO_DECIDEGREES (angle : Z) : Z := angle * 10.

Section Controller.

(** The parameters of the altitude code, and what the horizontal code
    calls besides: the square root, the trigonometric approximations and the
    angle conversions of [common/maths.h], and two constants of the private
    header. *)
Variable filterStatePt1_t : Type.
Variable filterApplyPt1 : float -> filterStatePt1_t -> float -> float -> float * filterStatePt1_t.
Variable filterResetPt1 : filterStatePt1_t -> float -> filterStatePt1_t.
Variable MIN_POSITION_UPDATE_RATE_HZ : Z.
Variable NAV_THROTTLE_CUTOFF_FREQENCY_HZ : Z.
Variable navPidApply2 :
  float -> float -> float -> pidController_t filterStatePt1_t -> float -> float -> bool ->
  float * pidController_t filterStatePt1_t.
Variable updateAltitudeTargetFromClimbRate :
  float -> climbRateToAltitudeControllerMode_e ->
  posControl_t filterStatePt1_t -> posControl_t filterStatePt1_t.

Variable NAV_ACCEL_CUTOFF_FREQUENCY_HZ : Z.
Variable NAV_ACCELERATION_XY_MAX : float.
Variable sqrtf : float -> float.
Variable cos_approx : float -> float.
Variable atan2_approx : float -> float -> float.
Variable wrap_18000 : Z -> Z.
Variable CENTIDEGREES_TO_RADIANS : Z -> float.
Variable RADIANS_TO_DECIDEGREES : float -> float.

Local Abbreviation pid_t := (pidController_t filterStatePt1_t).
Local Abbreviation altState_t := (state_t filterStatePt1_t).
Local Abbreviation threshold := (staleThreshold MIN_POSITION_UPDATE_RATE_HZ).

(** ** State *)

Record flagsXY_t : Type := {
  hasValidPositionSensor : bool;
  horizontalPositionDataNew : bool;
  horizontalPositionDataConsumed : bool;
  isAdjustingPosition : bool
}.

Record actualXY_t : Type := {
  actual_pos_X : float;
  actual_pos_Y : float;
  actual_vel_X : float;
  actual_vel_Y : float;
  actual_yaw : Z;                           (* int32_t, centi-degrees *)
  sinYaw : float;
  cosYaw : float
}.

Record desiredXY_t : Type := {
  desired_pos_X : float;
  desired_pos_Y : float;
  desired_vel_X : float;
  desired_vel_Y : float;
  desired_yaw : Z                           (* int32_t, centi-degrees *)
}.

(** The statics of the position controller: two filters, the last
    acceleration targets, and the two times that are static in
    [applyMulticopterPositionController]. *)
Record staticsXY_t : Type := {
  mcPosControllerAccFilterStateX : filterStatePt1_t;
  mcPosControllerAccFilterStateY : filterStatePt1_t;
  lastAccelTargetX : float;
  lastAccelTargetY : float;
  pos_previousTimePositionUpdate : Z;       (* uint32_t *)
  pos_previousTimeUpdate : Z
}.

Record xy_t : Type := {
  flagsXY : flagsXY_t;
  actualXY : actualXY_t;
  desiredXY : desiredXY_t;
  pids_pos_X : pid_t;
  pids_pos_Y : pid_t;
  pids_vel_X : pid_t;
  pids_vel_Y : pid_t;
  rcAdjustment_ROLL : Z;                    (* int16_t *)
  rcAdjustment_PITCH : Z;
  posResponseExpo : float;
  posDecelerationTime : float;
  staticsXY : staticsXY_t
}.

(** Everything the dispatcher works on: the state of the altitude code
    (with [rcCommand]), that of the horizontal code, and the mag-hold target of
    [pid.c]. *)
Record nav_t : Type := {
  alt : altState_t;
  xy : xy_t;
  magHoldTargetHeading : Z                  (* int16_t *)
}.

(** *** Field updates *)

Definition set_flagsXY (x : xy_t) (f : flagsXY_t) : xy_t :=
  {| flagsXY := f; actualXY := actualXY x; desiredXY := desiredXY x;
     pids_pos_X := pids_pos_X x; pids_pos_Y := pids_pos_Y x;
     pids_vel_X := pids_vel_X x; pids_vel_Y := pids_vel_Y x;
     rcAdjustment_ROLL := rcAdjustment_ROLL x; rcAdjustment_PITCH := rcAdjustment_PITCH x;
     posResponseExpo := posResponseExpo x; posDecelerationTime := posDecelerationTime x;
     staticsXY := staticsXY x |}.

Definition set_desiredXY (x : xy_t) (d : desiredXY_t) : xy_t :=
  {| flagsXY := flagsXY x; actualXY := actualXY x; desiredXY := d;
     pids_pos_X := pids_pos_X x; pids_pos_Y := pids_pos_Y x;
     pids_vel_X := pids_vel_X x; pids_vel_Y := pids_vel_Y x;
     rcAdjustment_ROLL := rcAdjustment_ROLL x; rcAdjustment_PITCH := rcAdjustment_PITCH x;
     posResponseExpo := posResponseExpo x; posDecelerationTime := posDecelerationTime x;
     staticsXY := staticsXY x |}.

Definition set_pids_vel (x : xy_t) (px py : pid_t) : xy_t :=
  {| flagsXY := flagsXY x; actualXY := actualXY x; desiredXY := desiredXY x;
     pids_pos_X := pids_pos_X x; pids_pos_Y := pids_pos_Y x;
     pids_vel_X := px; pids_vel_Y := py;
     rcAdjustment_ROLL := rcAdjustment_ROLL x; rcAdjustment_PITCH := rcAdjustment_PITCH x;
     posResponseExpo := posResponseExpo x; posDecelerationTime := posDecelerationTime x;
     staticsXY := staticsXY x |}.

Definition set_rcAdjustment (x : xy_t) (roll pitch : Z) : xy_t :=
  {| flagsXY := flagsXY x; actualXY := actualXY x; desiredXY := desiredXY x;
     pids_pos_X := pids_pos_X x; pids_pos_Y := pids_pos_Y x;
     pids_vel_X := pids_vel_X x; pids_vel_Y := pids_vel_Y x;
     rcAdjustment_ROLL := roll; rcAdjustment_PITCH := pitch;
     posResponseExpo := posResponseExpo x; posDecelerationTime := posDecelerationTime x;
     staticsXY := staticsXY x |}.

Definition set_staticsXY (x : xy_t) (st : staticsXY_t) : xy_t :=
  {| flagsXY := flagsXY x; actualXY := actualXY x; desiredXY := desiredXY x;
     pids_pos_X := pids_pos_X x; pids_pos_Y := pids_pos_Y x;
     pids_vel_X := pids_vel_X x; pids_vel_Y := pids_vel_Y x;
     rcAdjustment_ROLL := rcAdjustment_ROLL x; rcAdjustment_PITCH := rcAdjustment_PITCH x;
     posResponseExpo := posResponseExpo x; posDecelerationTime := posDecelerationTime x;
     staticsXY := st |}.

Definition set_desired_vel (x : xy_t) (vx vy : float) : xy_t :=
  set_desiredXY x
    {| desired_pos_X := desired_pos_X (desiredXY x); desired_pos_Y := desired_pos_Y (desiredXY x);
       desired_vel_X := vx; desired_vel_Y := vy; desired_yaw := desired_yaw (desiredXY x) |}.

Definition set_desired_yaw (x : xy_t) (yaw : Z) : xy_t :=
  set_desiredXY x
    {| desired_pos_X := desired_pos_X (desiredXY x); desired_pos_Y := desired_pos_Y (desiredXY x);
       desired_vel_X := desired_vel_X (desiredXY x); desired_vel_Y := desired_vel_Y (desiredXY x);
       desired_yaw := yaw |}.

Definition set_horizontalPositionDataConsumed (x : xy_t) : xy_t :=
  set_flagsXY x
    {| hasValidPositionSensor := hasValidPositionSensor (flagsXY x);
       horizontalPositionDataNew := horizontalPositionDataNew (flagsXY x);
       horizontalPositionDataConsumed := true;
       isAdjustingPosition := isAdjustingPosition (flagsXY x) |}.

Definition set_accel_statics (x : xy_t) (fx fy : filterStatePt1_t) (ax ay : float) : xy_t :=
  set_staticsXY x
    {| mcPosControllerAccFilterStateX := fx; mcPosControllerAccFilterStateY := fy;
       lastAccelTargetX := ax; lastAccelTargetY := ay;
       pos_previousTimePositionUpdate := pos_previousTimePositionUpdate (staticsXY x);
       pos_previousTimeUpdate := pos_previousTimeUpdate (staticsXY x) |}.

Definition set_pos_times (x : xy_t) (posUpdate update : Z) : xy_t :=
  set_staticsXY x
    {| mcPosControllerAccFilterStateX := mcPosControllerAccFilterStateX (staticsXY x);
       mcPosControllerAccFilterStateY := mcPosControllerAccFilterStateY (staticsXY x);
       lastAccelTargetX := lastAccelTargetX (staticsXY x);
       lastAccelTargetY := lastAccelTargetY (staticsXY x);
       pos_previousTimePositionUpdate := posUpdate;
       pos_previousTimeUpdate := update |}.

Definition set_alt (n : nav_t) (a : altState_t) : nav_t :=
  {| alt := a; xy := xy n; magHoldTargetHeading := magHoldTargetHeading n |}.

Definition set_xy (n : nav_t) (x : xy_t) : nav_t :=
  {| alt := alt n; xy := x; magHoldTargetHeading := magHoldTargetHeading n |}.

(** ** Heading *)

(** [rcYaw] is [rcCommand[YAW]]. *)
Definition adjustMulticopterHeadingFromRCInput (cfg : configXY_t) (rcYaw : Z)
    (x : xy_t) : bool * xy_t :=
  if pos_hold_deadband cfg <? ABS rcYaw
  then (true, set_desired_yaw x (actual_yaw (actualXY x)))
  else (false, x).

Definition updateMagHoldHeading (n : nav_t) (heading : Z) : nav_t :=
  {| alt := alt n; xy := xy n; magHoldTargetHeading := to_int16 heading |}.

Definition resetMulticopterHeadingController (n : nav_t) : nav_t :=
  updateMagHoldHeading n (CENTIDEGREES_TO_DEGREES (actual_yaw (actualXY (xy n)))).

Definition applyMulticopterHeadingController (n : nav_t) : nav_t :=
  updateMagHoldHeading n (CENTIDEGREES_TO_DEGREES (desired_yaw (desiredXY (xy n)))).

(** ** The position controller *)

(** One pass of the loop of [resetMulticopterPositionController]: [first]
    is true for axis 0, which is [vel[X]] and [rcAdjustment[ROLL]]. *)
Definition resetPositionAxis (x : xy_t) (first : bool) : xy_t :=
  let x :=
    if first
    then set_rcAdjustment
           (set_pids_vel x (navPidReset _ filterResetPt1 (pids_vel_X x)) (pids_vel_Y x))
           0 (rcAdjustment_PITCH x)
    else set_rcAdjustment
           (set_pids_vel x (pids_vel_X x) (navPidReset _ filterResetPt1 (pids_vel_Y x)))
           (rcAdjustment_ROLL x) 0 in
  set_accel_statics x
    (filterResetPt1 (mcPosControllerAccFilterStateX (staticsXY x)) 0)
    (filterResetPt1 (mcPosControllerAccFilterStateY (staticsXY x)) 0) 0 0.

Definition resetMulticopterPositionController (x : xy_t) : xy_t :=
  fold_left resetPositionAxis [true; false] x.

(** Only the X and Y components of [*pos] are written. *)
Definition calculateMulticopterInitialHoldPosition (x : xy_t) (pos : float * float * float)
    : float * float * float :=
  let stoppingDistanceX := (actual_vel_X (actualXY x) * posDecelerationTime x)%Q in
  let stoppingDistanceY := (actual_vel_Y (actualXY x) * posDecelerationTime x)%Q in
  ((actual_pos_X (actualXY x) + stoppingDistanceX)%Q,
   (actual_pos_Y (actualXY x) + stoppingDistanceY)%Q,
   snd pos).

Definition getVelocityHeadingAttenuationFactor (q : navQueries_t) (x : xy_t) : float :=
  if inAutoWaypoint q then
    let headingError :=
      constrain (wrap_18000 (desired_yaw (desiredXY x) - actual_yaw (actualXY x)))
        (-9000) 9000 in
    let velScaling := cos_approx (CENTIDEGREES_TO_RADIANS headingError) in
    constrainf (velScaling * velScaling)%Q (5 # 100) 1
  else 1%Q.

(** [None] when [velMax] is zero. *)
Definition getVelocityExpoAttenuationFactor (x : xy_t) (velTotal velMax : float)
    : option float :=
  r <- fdiv velTotal velMax ;;
  let velScale := constrainf r (1 # 100) 1 in
  Some (1 - posResponseExpo x * (1 - velScale * velScale))%Q.

Definition updatePositionVelocityController_MC (q : navQueries_t) (x : xy_t)
    : option xy_t :=
  let posErrorX := (desired_pos_X (desiredXY x) - actual_pos_X (actualXY x))%Q in
  let posErrorY := (desired_pos_Y (desiredXY x) - actual_pos_Y (actualXY x))%Q in
  let newVelX := (posErrorX * param_kP _ (pids_pos_X x))%Q in
  let newVelY := (posErrorY * param_kP _ (pids_pos_Y x))%Q in
  let maxSpeed := getActiveWaypointSpeed q in
  let newVelTotal := sqrtf (sq newVelX + sq newVelY)%Q in
  limited <-
    (if Qlt_bool maxSpeed newVelTotal then
       rx <- fdiv newVelX newVelTotal ;;
       ry <- fdiv newVelY newVelTotal ;;
       Some ((maxSpeed * rx)%Q, (maxSpeed * ry)%Q, maxSpeed)
     else Some (newVelX, newVelY, newVelTotal)) ;;
  let '(newVelX, newVelY, newVelTotal) := limited in
  let velHeadFactor := getVelocityHeadingAttenuationFactor q x in
  velExpoFactor <- getVelocityExpoAttenuationFactor x newVelTotal maxSpeed ;;
  Some (set_desired_vel x (newVelX * velHeadFactor * velExpoFactor)%Q
                          (newVelY * velHeadFactor * velExpoFactor)%Q).

(** The local [maxBankAngle], an [int16_t]. *)
Definition maxBankAngle (cfg : configXY_t) : Z :=
  to_int16 (DEGREES_TO_DECIDEGREES (mc_max_bank_angle (navConfigXY cfg))).

Definition updatePositionAccelController_MC (cfg : configXY_t) (deltaMicros : Z)
    (maxAccelLimit : float) (x : xy_t) : xy_t :=
  let velErrorX := (desired_vel_X (desiredXY x) - actual_vel_X (actualXY x))%Q in
  let velErrorY := (desired_vel_Y (desiredXY x) - actual_vel_Y (actualXY x))%Q in
  let velErrorMagnitude := sqrtf (sq velErrorX + sq velErrorY)%Q in
  let '(accelLimitX, accelLimitY) :=
    if Qlt_bool (1 # 10) velErrorMagnitude
    then ((maxAccelLimit / velErrorMagnitude * Qabs velErrorX)%Q,
          (maxAccelLimit / velErrorMagnitude * Qabs velErrorY)%Q)
    else ((maxAccelLimit / (1414213 # 1000000))%Q, (maxAccelLimit / (1414213 # 1000000))%Q) in
  let maxAccelChange := (US2S deltaMicros * 1700)%Q in
  let lastX := lastAccelTargetX (staticsXY x) in
  let lastY := lastAccelTargetY (staticsXY x) in
  let accelLimitXMin := constrainf (lastX - maxAccelChange)%Q (- accelLimitX)%Q accelLimitX in
  let accelLimitXMax := constrainf (lastX + maxAccelChange)%Q (- accelLimitX)%Q accelLimitX in
  let accelLimitYMin := constrainf (lastY - maxAccelChange)%Q (- accelLimitY)%Q accelLimitY in
  let accelLimitYMax := constrainf (lastY + maxAccelChange)%Q (- accelLimitY)%Q accelLimitY in
  let '(newAccelX, pidX) :=
    navPidApply2 (desired_vel_X (desiredXY x)) (actual_vel_X (actualXY x))
      (US2S deltaMicros) (pids_vel_X x) accelLimitXMin accelLimitXMax false in
  let '(newAccelY, pidY) :=
    navPidApply2 (desired_vel_Y (desiredXY x)) (actual_vel_Y (actualXY x))
      (US2S deltaMicros) (pids_vel_Y x) accelLimitYMin accelLimitYMax false in
  let '(accelN, fX) :=
    filterApplyPt1 newAccelX (mcPosControllerAccFilterStateX (staticsXY x))
      (inject_Z NAV_ACCEL_CUTOFF_FREQUENCY_HZ) (US2S deltaMicros) in
  let '(accelE, fY) :=
    filterApplyPt1 newAccelY (mcPosControllerAccFilterStateY (staticsXY x))
      (inject_Z NAV_ACCEL_CUTOFF_FREQUENCY_HZ) (US2S deltaMicros) in
  let accelForward :=
    (accelN * cosYaw (actualXY x) + accelE * sinYaw (actualXY x))%Q in
  let accelRight :=
    (- accelN * sinYaw (actualXY x) + accelE * cosYaw (actualXY x))%Q in
  let desiredPitch := atan2_approx accelForward GRAVITY_CMSS in
  let desiredRoll := atan2_approx (accelRight * cos_approx desiredPitch)%Q GRAVITY_CMSS in
  let roll := to_int16 (constrain (float_to_int32 (RADIANS_TO_DECIDEGREES desiredRoll))
                          (- maxBankAngle cfg) (maxBankAngle cfg)) in
  let pitch := to_int16 (constrain (float_to_int32 (RADIANS_TO_DECIDEGREES desiredPitch))
                           (- maxBankAngle cfg) (maxBankAngle cfg)) in
  set_rcAdjustment
    (set_accel_statics (set_pids_vel x pidX pidY) fX fY newAccelX newAccelY)
    roll pitch.

Definition user_control_mode_is_ATTI (cfg : configXY_t) : bool :=
  match user_control_mode (navConfigXY cfg) with
  | NAV_GPS_ATTI => true
  | NAV_GPS_CRUISE => false
  end.

(** The test of the stale guard of [applyMulticopterPositionController]. *)
Definition positionTickIsStale (currentTime : Z) (x : xy_t) : bool :=
  threshold <? to_uint32 (currentTime - pos_previousTimeUpdate (staticsXY x)).

(** The function works on the horizontal state and on [rcCommand], which
    lives in the altitude state.  [None] when a division of the velocity stage
    meets a zero divisor. *)
Definition applyMulticopterPositionController (cfg : configXY_t) (q : navQueries_t)
    (currentTime : Z) (n : nav_t) : option nav_t :=
  let x := xy n in
  let deltaMicros := to_uint32 (currentTime - pos_previousTimeUpdate (staticsXY x)) in
  let x := set_pos_times x (pos_previousTimePositionUpdate (staticsXY x)) currentTime in
  let bypassPositionController :=
    user_control_mode_is_ATTI cfg && isAdjustingPosition (flagsXY x) in
  if threshold <? deltaMicros then
    Some (set_xy n (resetMulticopterPositionController
                      (set_pos_times x currentTime currentTime)))
  else
    r <-
      (if hasValidPositionSensor (flagsXY x) then
         if horizontalPositionDataNew (flagsXY x) then
           let deltaMicrosPositionUpdate :=
             to_uint32 (currentTime - pos_previousTimePositionUpdate (staticsXY x)) in
           let x := set_pos_times x currentTime (pos_previousTimeUpdate (staticsXY x)) in
           x <-
             (if negb bypassPositionController then
                if deltaMicrosPositionUpdate <? threshold then
                  x <- updatePositionVelocityController_MC q x ;;
                  Some (updatePositionAccelController_MC cfg deltaMicrosPositionUpdate
                          NAV_ACCELERATION_XY_MAX x)
                else Some (resetMulticopterPositionController x)
              else Some x) ;;
           Some (set_horizontalPositionDataConsumed x, bypassPositionController)
         else Some (x, bypassPositionController)
       else Some (set_rcAdjustment x 0 0, true)) ;;
    let '(x, bypassPositionController) := r in
    let a := alt n in
    let a :=
      if negb bypassPositionController then
        set_rcCommand_sticks _ a
          (Pid.pidAngleToRcCommand (inject_Z (rcAdjustment_ROLL x)))
          (Pid.pidAngleToRcCommand (inject_Z (rcAdjustment_PITCH x)))
          (rcCommand_YAW _ a)
      else a in
    Some {| alt := a; xy := x; magHoldTargetHeading := magHoldTargetHeading n |}.

(** ** The dispatcher *)

Definition applyMulticopterNavigationController (cfg : configXY_t) (q : navQueries_t)
    (navStateFlags : navStateFlags_t) (currentTime : Z) (n : nav_t) : option nav_t :=
  if NAV_CTL_EMERG navStateFlags then
    Some (set_alt n
            (applyMulticopterEmergencyLandingController _ filterApplyPt1 filterResetPt1
               MIN_POSITION_UPDATE_RATE_HZ NAV_THROTTLE_CUTOFF_FREQENCY_HZ navPidApply2
               updateAltitudeTargetFromClimbRate (altConfig cfg) currentTime (alt n)))
  else
    let n :=
      if NAV_CTL_ALT navStateFlags
      then set_alt n
             (applyMulticopterAltitudeController _ filterApplyPt1 filterResetPt1
                MIN_POSITION_UPDATE_RATE_HZ NAV_THROTTLE_CUTOFF_FREQENCY_HZ navPidApply2
                updateAltitudeTargetFromClimbRate (altConfig cfg) currentTime (alt n))
      else n in
    n <- (if NAV_CTL_POS navStateFlags
          then applyMulticopterPositionController cfg q currentTime n
          else Some n) ;;
    Some (if NAV_CTL_YAW navStateFlags then applyMulticopterHeadingController n else n).

(** ** The bank-angle limit *)

Ltac xy_simpl :=
  cbn [flagsXY actualXY desiredXY pids_pos_X pids_pos_Y pids_vel_X pids_vel_Y
       rcAdjustment_ROLL rcAdjustment_PITCH posResponseExpo posDecelerationTime staticsXY
       hasValidPositionSensor horizontalPositionDataNew horizontalPositionDataConsumed
       isAdjustingPosition
       mcPosControllerAccFilterStateX mcPosControllerAccFilterStateY
       lastAccelTargetX lastAccelTargetY pos_previousTimePositionUpdate pos_previousTimeUpdate
       desired_pos_X desired_pos_Y desired_vel_X desired_vel_Y desired_yaw
       alt xy magHoldTargetHeading
       set_flagsXY set_desiredXY set_pids_vel set_rcAdjustment set_staticsXY set_desired_vel
       set_desired_yaw set_horizontalPositionDataConsumed set_accel_statics set_pos_times
       set_alt set_xy obind fst snd negb andb orb] in *.

(** The commanded lean angles stay within the configured bank angle. *)
Definition withinBankLimit (cfg : configXY_t) (x : xy_t) : Prop :=
  - (10 * mc_max_bank_angle (navConfigXY cfg)) <= rcAdjustment_ROLL x
      <= 10 * mc_max_bank_angle (navConfigXY cfg) /\
  - (10 * mc_max_bank_angle (navConfigXY cfg)) <= rcAdjustment_PITCH x
      <= 10 * mc_max_bank_angle (navConfigXY cfg).

Lemma maxBankAngle_uint8 (cfg : configXY_t) :
  is_uint8 (mc_max_bank_angle (navConfigXY cfg)) ->
  maxBankAngle cfg = 10 * mc_max_bank_angle (navConfigXY cfg).
Proof.
  intros [L H]. unfold maxBankAngle, DEGREES_TO_DECIDEGREES.
  rewrite to_int16_id; lia.
Qed.

Lemma constrain_to_bank (cfg : configXY_t) (amt : Z) :
  is_uint8 (mc_max_bank_angle (navConfigXY cfg)) ->
  - (10 * mc_max_bank_angle (navConfigXY cfg))
    <= to_int16 (constrain amt (- maxBankAngle cfg) (maxBankAngle cfg))
    <= 10 * mc_max_bank_angle (navConfigXY cfg).
Proof.
  intros U. rewrite (maxBankAngle_uint8 cfg U). destruct U as [L H].
  pose proof (constrain_bounds amt (- (10 * mc_max_bank_angle (navConfigXY cfg)))
                (10 * mc_max_bank_angle (navConfigXY cfg))) as B.
  rewrite to_int16_id; lia.
Qed.

Lemma resetPosition_rcAdjustment (x : xy_t) :
  rcAdjustment_ROLL (resetMulticopterPositionController x) = 0 /\
  rcAdjustment_PITCH (resetMulticopterPositionController x) = 0.
Proof. split; reflexivity. Qed.

Lemma resetPosition_withinBankLimit (cfg : configXY_t) (x : xy_t) :
  is_uint8 (mc_max_bank_angle (navConfigXY cfg)) ->
  withinBankLimit cfg (resetMulticopterPositionController x).
Proof.
  intros [L H]. unfold withinBankLimit.
  destruct (resetPosition_rcAdjustment x) as [-> ->]. lia.
Qed.

Lemma accel_rcAdjustment (cfg : configXY_t) (deltaMicros : Z) (maxAccelLimit : float)
    (x : xy_t) :
  exists roll pitch : Z,
    rcAdjustment_ROLL (updatePositionAccelController_MC cfg deltaMicros maxAccelLimit x) =
      to_int16 (constrain roll (- maxBankAngle cfg) (maxBankAngle cfg)) /\
    rcAdjustment_PITCH (updatePositionAccelController_MC cfg deltaMicros maxAccelLimit x) =
      to_int16 (constrain pitch (- maxBankAngle cfg) (maxBankAngle cfg)).
Proof.
  unfold updatePositionAccelController_MC. cbv zeta.
  destruct (Qlt_bool (1 # 10) _);
    destruct (navPidApply2 _ _ _ (pids_vel_X x) _ _ _) as [ax px];
    destruct (navPidApply2 _ _ _ (pids_vel_Y x) _ _ _) as [ay py];
    destruct (filterApplyPt1 ax _ _ _) as [an fx];
    destruct (filterApplyPt1 ay _ _ _) as [ae fy];
    eexists; eexists; split; reflexivity.
Qed.

Lemma accel_withinBankLimit (cfg : configXY_t) (deltaMicros : Z) (maxAccelLimit : float)
    (x : xy_t) :
  is_uint8 (mc_max_bank_angle (navConfigXY cfg)) ->
  withinBankLimit cfg (updatePositionAccelController_MC cfg deltaMicros maxAccelLimit x).
Proof.
  intros U. unfold withinBankLimit.
  destruct (accel_rcAdjustment cfg deltaMicros maxAccelLimit x) as (r & p & -> & ->).
  split; apply constrain_to_bank; exact U.
Qed.

(** The cases of one call of the position controller. *)
Definition bypassesPositionController (cfg : configXY_t) (x : xy_t) : bool :=
  user_control_mode_is_ATTI cfg && isAdjustingPosition (flagsXY x).

Definition positionUpdateIsTimely (currentTime : Z) (x : xy_t) : bool :=
  to_uint32 (currentTime - pos_previousTimePositionUpdate (staticsXY x)) <? threshold.

Lemma applyPosition_stale (cfg : configXY_t) (q : navQueries_t) (currentTime : Z)
    (n : nav_t) :
  positionTickIsStale currentTime (xy n) = true ->
  applyMulticopterPositionController cfg q currentTime n =
  Some (set_xy n (resetMulticopterPositionController
                    (set_pos_times (xy n) currentTime currentTime))).
Proof.
  unfold positionTickIsStale, applyMulticopterPositionController. intros H.
  cbv zeta. rewrite H. reflexivity.
Qed.

Lemma applyPosition_no_sensor (cfg : configXY_t) (q : navQueries_t) (currentTime : Z)
    (n : nav_t) :
  positionTickIsStale currentTime (xy n) = false ->
  hasValidPositionSensor (flagsXY (xy n)) = false ->
  applyMulticopterPositionController cfg q currentTime n =
  Some (set_xy n (set_rcAdjustment
                    (set_pos_times (xy n) (pos_previousTimePositionUpdate (staticsXY (xy n)))
                       currentTime) 0 0)).
Proof.
  unfold positionTickIsStale, applyMulticopterPositionController. intros H V.
  cbv zeta. rewrite H. xy_simpl. rewrite V. reflexivity.
Qed.

Lemma applyPosition_no_data (cfg : configXY_t) (q : navQueries_t) (currentTime : Z)
    (n : nav_t) :
  positionTickIsStale currentTime (xy n) = false ->
  hasValidPositionSensor (flagsXY (xy n)) = true ->
  horizontalPositionDataNew (flagsXY (xy n)) = false ->
  applyMulticopterPositionController cfg q currentTime n =
  let x := set_pos_times (xy n) (pos_previousTimePositionUpdate (staticsXY (xy n)))
             currentTime in
  Some {| alt := if bypassesPositionController cfg (xy n) then alt n
                 else set_rcCommand_sticks _ (alt n)
                        (Pid.pidAngleToRcCommand (inject_Z (rcAdjustment_ROLL (xy n))))
                        (Pid.pidAngleToRcCommand (inject_Z (rcAdjustment_PITCH (xy n))))
                        (rcCommand_YAW _ (alt n));
          xy := x; magHoldTargetHeading := magHoldTargetHeading n |}.
Proof.
  unfold positionTickIsStale, applyMulticopterPositionController, bypassesPositionController.
  intros H V D. cbv zeta. rewrite H. xy_simpl. rewrite V, D. xy_simpl.
  destruct (user_control_mode_is_ATTI cfg && isAdjustingPosition (flagsXY (xy n)));
    reflexivity.
Qed.

Lemma applyPosition_bypassed (cfg : configXY_t) (q : navQueries_t) (currentTime : Z)
    (n : nav_t) :
  positionTickIsStale currentTime (xy n) = false ->
  hasValidPositionSensor (flagsXY (xy n)) = true ->
  horizontalPositionDataNew (flagsXY (xy n)) = true ->
  bypassesPositionController cfg (xy n) = true ->
  applyMulticopterPositionController cfg q currentTime n =
  Some (set_xy n (set_horizontalPositionDataConsumed
                    (set_pos_times (xy n) currentTime currentTime))).
Proof.
  unfold positionTickIsStale, applyMulticopterPositionController, bypassesPositionController.
  intros H V D B. cbv zeta. rewrite H. xy_simpl. rewrite V, D, B. reflexivity.
Qed.

Lemma applyPosition_late (cfg : configXY_t) (q : navQueries_t) (currentTime : Z)
    (n : nav_t) :
  positionTickIsStale currentTime (xy n) = false ->
  hasValidPositionSensor (flagsXY (xy n)) = true ->
  horizontalPositionDataNew (flagsXY (xy n)) = true ->
  bypassesPositionController cfg (xy n) = false ->
  positionUpdateIsTimely currentTime (xy n) = false ->
  applyMulticopterPositionController cfg q currentTime n =
  let x := set_horizontalPositionDataConsumed
             (resetMulticopterPositionController
                (set_pos_times (xy n) currentTime currentTime)) in
  Some {| alt := set_rcCommand_sticks _ (alt n)
                   (Pid.pidAngleToRcCommand (inject_Z (rcAdjustment_ROLL x)))
                   (Pid.pidAngleToRcCommand (inject_Z (rcAdjustment_PITCH x)))
                   (rcCommand_YAW _ (alt n));
          xy := x; magHoldTargetHeading := magHoldTargetHeading n |}.
Proof.
  unfold positionTickIsStale, applyMulticopterPositionController, bypassesPositionController,
    positionUpdateIsTimely.
  intros H V D B T. cbv zeta. rewrite H. xy_simpl. rewrite V, D, B, T. reflexivity.
Qed.

Lemma applyPosition_timely (cfg : configXY_t) (q : navQueries_t) (currentTime : Z)
    (n : nav_t) :
  positionTickIsStale currentTime (xy n) = false ->
  hasValidPositionSensor (flagsXY (xy n)) = true ->
  horizontalPositionDataNew (flagsXY (xy n)) = true ->
  bypassesPositionController cfg (xy n) = false ->
  positionUpdateIsTimely currentTime (xy n) = true ->
  applyMulticopterPositionController cfg q currentTime n =
  (v <- updatePositionVelocityController_MC q
          (set_pos_times (xy n) currentTime currentTime) ;;
   let x := set_horizontalPositionDataConsumed
              (updatePositionAccelController_MC cfg
                 (to_uint32 (currentTime - pos_previousTimePositionUpdate (staticsXY (xy n))))
                 NAV_ACCELERATION_XY_MAX v) in
   Some {| alt := set_rcCommand_sticks _ (alt n)
                    (Pid.pidAngleToRcCommand (inject_Z (rcAdjustment_ROLL x)))
                    (Pid.pidAngleToRcCommand (inject_Z (rcAdjustment_PITCH x)))
                    (rcCommand_YAW _ (alt n));
           xy := x; magHoldTargetHeading := magHoldTargetHeading n |}).
Proof.
  unfold positionTickIsStale, applyMulticopterPositionController, bypassesPositionController,
    positionUpdateIsTimely.
  intros H V D B T. cbv zeta. rewrite H. xy_simpl. rewrite V, D, B, T. xy_simpl.
  destruct (updatePositionVelocityController_MC q _); reflexivity.
Qed.

Lemma withinBankLimit_times (cfg : configXY_t) (x : xy_t) (a b : Z) :
  withinBankLimit cfg (set_pos_times x a b) <-> withinBankLimit cfg x.
Proof. reflexivity. Qed.

Lemma withinBankLimit_consumed (cfg : configXY_t) (x : xy_t) :
  withinBankLimit cfg (set_horizontalPositionDataConsumed x) <-> withinBankLimit cfg x.
Proof. reflexivity. Qed.

(** X20.  The position controller keeps the lean-angle commands inside the
    bank-angle limit: if [rcAdjustment[ROLL]] and [rcAdjustment[PITCH]] are
    within [10 * mc_max_bank_angle] deci-degrees of zero before a call of
    [applyMulticopterPositionController], they are after it, whichever branch
    the call takes. *)
Theorem bank_angle_limit_kept (cfg : configXY_t) (q : navQueries_t) (currentTime : Z)
    (n n' : nav_t) :
  is_uint8 (mc_max_bank_angle (navConfigXY cfg)) ->
  withinBankLimit cfg (xy n) ->
  applyMulticopterPositionController cfg q currentTime n = Some n' ->
  withinBankLimit cfg (xy n').
Proof.
  intros U W E.
  destruct (positionTickIsStale currentTime (xy n)) eqn:S.
  { rewrite (applyPosition_stale cfg q currentTime n S) in E.
    injection E as <-. apply resetPosition_withinBankLimit. exact U. }
  destruct (hasValidPositionSensor (flagsXY (xy n))) eqn:V.
  2: { rewrite (applyPosition_no_sensor cfg q currentTime n S V) in E.
       injection E as <-. destruct U as [L H]. unfold withinBankLimit. xy_simpl. lia. }
  destruct (horizontalPositionDataNew (flagsXY (xy n))) eqn:D.
  2: { rewrite (applyPosition_no_data cfg q currentTime n S V D) in E.
       cbv zeta in E. injection E as <-. exact W. }
  destruct (bypassesPositionController cfg (xy n)) eqn:B.
  { rewrite (applyPosition_bypassed cfg q currentTime n S V D B) in E.
    injection E as <-. exact W. }
  destruct (positionUpdateIsTimely currentTime (xy n)) eqn:T.
  2: { rewrite (applyPosition_late cfg q currentTime n S V D B T) in E.
       cbv zeta in E. injection E as <-.
       apply withinBankLimit_consumed. apply resetPosition_withinBankLimit. exact U. }
  rewrite (applyPosition_timely cfg q currentTime n S V D B T) in E.
  destruct (updatePositionVelocityController_MC q _) as [v|]; [|discriminate E].
  cbn [obind] in E. cbv zeta in E. injection E as <-.
  apply withinBankLimit_consumed. apply accel_withinBankLimit. exact U.
Qed.

Lemma half_bank (bank a : Z) :
  is_uint8 bank -> - (10 * bank) <= a <= 10 * bank ->
  Pid.pidAngleToRcCommand (inject_Z a) = Z.quot a 2 /\
  - (5 * bank) <= Z.quot a 2 <= 5 * bank.
Proof.
  intros [L H] [Lo Hi].
  assert (B : - (5 * bank) <= Z.quot a 2 <= 5 * bank).
  { split.
    - apply Z.quot_le_lower_bound; lia.
    - apply Z.quot_le_upper_bound; lia. }
  split; [|exact B].
  apply Pid.pidAngleToRcCommand_integer. unfold is_int16. lia.
Qed.

(** X21.  While the position controller is in command (the call is not
    stale, the position sensor is valid and the pilot is not flying the
    sticks in [NAV_GPS_ATTI] mode) it writes half the lean-angle command,
    truncated toward zero, to the roll and pitch sticks; with the lean-angle
    commands inside the bank-angle limit before the call, the two stick
    commands are within [5 * mc_max_bank_angle] of centre. *)
Theorem position_controller_commands_half_bank (cfg : configXY_t) (q : navQueries_t)
    (currentTime : Z) (n n' : nav_t) :
  is_uint8 (mc_max_bank_angle (navConfigXY cfg)) ->
  withinBankLimit cfg (xy n) ->
  positionTickIsStale currentTime (xy n) = false ->
  hasValidPositionSensor (flagsXY (xy n)) = true ->
  bypassesPositionController cfg (xy n) = false ->
  applyMulticopterPositionController cfg q currentTime n = Some n' ->
  (rcCommand_ROLL _ (alt n') = Z.quot (rcAdjustment_ROLL (xy n')) 2 /\
   rcCommand_PITCH _ (alt n') = Z.quot (rcAdjustment_PITCH (xy n')) 2) /\
  (- (5 * mc_max_bank_angle (navConfigXY cfg)) <= rcCommand_ROLL _ (alt n')
     <= 5 * mc_max_bank_angle (navConfigXY cfg) /\
   - (5 * mc_max_bank_angle (navConfigXY cfg)) <= rcCommand_PITCH _ (alt n')
     <= 5 * mc_max_bank_angle (navConfigXY cfg)).
Proof.
  intros U W S V B E.
  assert (C : withinBankLimit cfg (xy n') /\
              rcCommand_ROLL _ (alt n') =
                Pid.pidAngleToRcCommand (inject_Z (rcAdjustment_ROLL (xy n'))) /\
              rcCommand_PITCH _ (alt n') =
                Pid.pidAngleToRcCommand (inject_Z (rcAdjustment_PITCH (xy n')))).
  { destruct (horizontalPositionDataNew (flagsXY (xy n))) eqn:D.
    2: { rewrite (applyPosition_no_data cfg q currentTime n S V D) in E.
         cbv zeta in E. rewrite B in E. injection E as <-.
         split; [exact W | split; reflexivity]. }
    destruct (positionUpdateIsTimely currentTime (xy n)) eqn:T.
    2: { rewrite (applyPosition_late cfg q currentTime n S V D B T) in E.
         cbv zeta in E. injection E as <-.
         split; [|split; reflexivity].
         apply withinBankLimit_consumed. apply resetPosition_withinBankLimit. exact U. }
    rewrite (applyPosition_timely cfg q currentTime n S V D B T) in E.
    destruct (updatePositionVelocityController_MC q _) as [v|]; [|discriminate E].
    cbn [obind] in E. cbv zeta in E. injection E as <-.
    split; [|split; reflexivity].
    apply withinBankLimit_consumed. apply accel_withinBankLimit. exact U. }
  destruct C as ([WR WP] & CR & CP).
  destruct (half_bank _ _ U WR) as [ER BR]. destruct (half_bank _ _ U WP) as [EP BP].
  rewrite CR, CP, ER, EP. repeat split; lia.
Qed.

(** ** Pass-through and resets *)

(** X22.  The position controller leaves the pilot's sticks alone whenever
    it is not in command: on a stale call, without a valid position sensor,
    and while the pilot is adjusting the position in [NAV_GPS_ATTI] mode.  In
    each of these cases the call completes, [rcCommand] and everything
    else outside the horizontal controller's own state is untouched, and
    without a valid position sensor the lean-angle commands are cleared. *)
Theorem position_controller_passes_sticks_through (cfg : configXY_t) (q : navQueries_t)
    (currentTime : Z) (n : nav_t) :
  positionTickIsStale currentTime (xy n) = true \/
  hasValidPositionSensor (flagsXY (xy n)) = false \/
  bypassesPositionController cfg (xy n) = true ->
  exists n' : nav_t,
    applyMulticopterPositionController cfg q currentTime n = Some n' /\
    alt n' = alt n /\
    magHoldTargetHeading n' = magHoldTargetHeading n /\
    (positionTickIsStale currentTime (xy n) = false ->
     hasValidPositionSensor (flagsXY (xy n)) = false ->
     rcAdjustment_ROLL (xy n') = 0 /\ rcAdjustment_PITCH (xy n') = 0).
Proof.
  intros H.
  destruct (positionTickIsStale currentTime (xy n)) eqn:S.
  { eexists. split; [apply applyPosition_stale; exact S|].
    repeat split; discriminate. }
  destruct (hasValidPositionSensor (flagsXY (xy n))) eqn:V.
  2: { eexists. split; [apply applyPosition_no_sensor; assumption|].
       repeat split; reflexivity. }
  destruct H as [H | [H | B]]; try discriminate H.
  destruct (horizontalPositionDataNew (flagsXY (xy n))) eqn:D.
  - eexists. split; [apply applyPosition_bypassed; assumption|].
    repeat split; discriminate.
  - eexists. split; [apply applyPosition_no_data; assumption|].
    cbv zeta. rewrite B. repeat split; discriminate.
Qed.

(** X23.  When the time since the previous call exceeds
    [HZ2US(MIN_POSITION_UPDATE_RATE_HZ)], the position controller restarts
    instead of updating: both velocity PID controllers are reset with their
    gains kept, the lean-angle commands and the last acceleration targets
    become 0, both acceleration filters are reset to 0 (once per pass of the
    two-pass loop), both time stamps become the current time, and the desired
    state, the flags and [rcCommand] are left as they were. *)
Theorem stale_position_tick_resets (cfg : configXY_t) (q : navQueries_t)
    (currentTime : Z) (n : nav_t) :
  positionTickIsStale currentTime (xy n) = true ->
  exists n' : nav_t,
    applyMulticopterPositionController cfg q currentTime n = Some n' /\
    pids_vel_X (xy n') = navPidReset _ filterResetPt1 (pids_vel_X (xy n)) /\
    pids_vel_Y (xy n') = navPidReset _ filterResetPt1 (pids_vel_Y (xy n)) /\
    rcAdjustment_ROLL (xy n') = 0 /\ rcAdjustment_PITCH (xy n') = 0 /\
    lastAccelTargetX (staticsXY (xy n')) = 0%Q /\
    lastAccelTargetY (staticsXY (xy n')) = 0%Q /\
    mcPosControllerAccFilterStateX (staticsXY (xy n')) =
      filterResetPt1
        (filterResetPt1 (mcPosControllerAccFilterStateX (staticsXY (xy n))) 0) 0 /\
    mcPosControllerAccFilterStateY (staticsXY (xy n')) =
      filterResetPt1
        (filterResetPt1 (mcPosControllerAccFilterStateY (staticsXY (xy n))) 0) 0 /\
    pos_previousTimeUpdate (staticsXY (xy n')) = currentTime /\
    pos_previousTimePositionUpdate (staticsXY (xy n')) = currentTime /\
    desiredXY (xy n') = desiredXY (xy n) /\
    flagsXY (xy n') = flagsXY (xy n) /\
    alt n' = alt n.
Proof.
  intros S. eexists. split; [apply applyPosition_stale; exact S|].
  repeat split; reflexivity.
Qed.

(** X24.  When fresh position data arrives later than
    [HZ2US(MIN_POSITION_UPDATE_RATE_HZ)] after the previous one while the
    controller is in command, the controller restarts and levels the craft:
    the lean-angle commands are cleared, [rcCommand[ROLL]] and
    [rcCommand[PITCH]] are written as 0, the data is marked consumed, and the
    throttle and yaw commands are not touched. *)
Theorem late_horizontal_update_levels_craft (cfg : configXY_t) (q : navQueries_t)
    (currentTime : Z) (n : nav_t) :
  positionTickIsStale currentTime (xy n) = false ->
  hasValidPositionSensor (flagsXY (xy n)) = true ->
  horizontalPositionDataNew (flagsXY (xy n)) = true ->
  bypassesPositionController cfg (xy n) = false ->
  positionUpdateIsTimely currentTime (xy n) = false ->
  exists n' : nav_t,
    applyMulticopterPositionController cfg q currentTime n = Some n' /\
    rcAdjustment_ROLL (xy n') = 0 /\ rcAdjustment_PITCH (xy n') = 0 /\
    rcCommand_ROLL _ (alt n') = 0 /\ rcCommand_PITCH _ (alt n') = 0 /\
    rcCommand_YAW _ (alt n') = rcCommand_YAW _ (alt n) /\
    rcCommand_THROTTLE _ (alt n') = rcCommand_THROTTLE _ (alt n) /\
    horizontalPositionDataConsumed (flagsXY (xy n')) = true /\
    pos_previousTimePositionUpdate (staticsXY (xy n')) = currentTime.
Proof.
  intros S V D B T. eexists. split; [apply applyPosition_late; assumption|].
  repeat split; reflexivity.
Qed.

(** ** The velocity stage *)

Lemma heading_factor_range (q : navQueries_t) (x : xy_t) :
  (5 # 100 <= getVelocityHeadingAttenuationFactor q x <= 1)%Q.
Proof.
  unfold getVelocityHeadingAttenuationFactor. destruct (inAutoWaypoint q).
  - apply constrainf_bounds. lra.
  - lra.
Qed.

Lemma expo_factor_range (x : xy_t) (velTotal velMax f : float) :
  (0 <= posResponseExpo x <= 1)%Q ->
  getVelocityExpoAttenuationFactor x velTotal velMax = Some f ->
  (1 - posResponseExpo x <= f <= 1)%Q.
Proof.
  intros [E0 E1]. unfold getVelocityExpoAttenuationFactor.
  destruct (fdiv velTotal velMax) as [r|]; [|discriminate].
  cbn [obind]. intros H. injection H as <-.
  assert (B : (1 # 100 <= constrainf r (1 # 100) 1 <= 1)%Q)
    by (apply constrainf_bounds; lra).
  set (vs := constrainf r (1 # 100) 1) in *. clearbody vs. destruct B as [B0 B1].
  assert (W0 : (0 <= vs * vs)%Q) by nra.
  assert (W1 : (vs * vs <= 1)%Q) by nra.
  set (w := (vs * vs)%Q) in *. clearbody w.
  set (e := posResponseExpo x) in *. clearbody e.
  split; nra.
Qed.

Lemma fdiv_zero (a b : float) : (b == 0)%Q -> fdiv a b = None.
Proof.
  intros H. unfold fdiv. apply Qeq_bool_iff in H. rewrite H. reflexivity.
Qed.

Lemma velocity_defined (q : navQueries_t) (x : xy_t) :
  (0 < getActiveWaypointSpeed q)%Q ->
  exists x' : xy_t, updatePositionVelocityController_MC q x = Some x'.
Proof.
  intros M. unfold updatePositionVelocityController_MC. cbv zeta.
  set (T := sqrtf _).
  assert (NM : ~ (getActiveWaypointSpeed q == 0)%Q) by lra.
  unfold getVelocityExpoAttenuationFactor.
  destruct (Qlt_bool (getActiveWaypointSpeed q) T) eqn:L.
  - apply Qlt_bool_true in L.
    assert (NT : ~ (T == 0)%Q) by lra.
    rewrite !(Pid.fdiv_nonzero _ T NT). cbn [obind].
    rewrite (Pid.fdiv_nonzero _ _ NM). cbn [obind]. eexists. reflexivity.
  - cbn [obind]. rewrite (Pid.fdiv_nonzero _ _ NM). cbn [obind]. eexists. reflexivity.
Qed.

Lemma velocity_undefined (q : navQueries_t) (x : xy_t) :
  (getActiveWaypointSpeed q == 0)%Q ->
  updatePositionVelocityController_MC q x = None.
Proof.
  intros M. unfold updatePositionVelocityController_MC. cbv zeta.
  set (T := sqrtf _).
  unfold getVelocityExpoAttenuationFactor.
  destruct (Qlt_bool (getActiveWaypointSpeed q) T).
  - destruct (fdiv _ T) as [rx|]; [|reflexivity].
    destruct (fdiv _ T) as [ry|]; [|reflexivity].
    cbn [obind]. rewrite (fdiv_zero _ _ M). reflexivity.
  - cbn [obind]. rewrite (fdiv_zero _ _ M). reflexivity.
Qed.

(** X25.  The velocity stage divides by the active waypoint speed and, when
    the target speed exceeds it, by the target speed.  With a positive
    waypoint speed no divisor is zero and the stage completes; with a
    waypoint speed of zero the expo factor divides by zero. *)
Theorem velocity_stage_needs_nonzero_speed (q : navQueries_t) (x : xy_t) :
  ((0 < getActiveWaypointSpeed q)%Q ->
   exists x' : xy_t, updatePositionVelocityController_MC q x = Some x') /\
  ((getActiveWaypointSpeed q == 0)%Q ->
   updatePositionVelocityController_MC q x = None).
Proof.
  split; [apply velocity_defined | apply velocity_undefined].
Qed.

Lemma scaled_within (m a h e : float) :
  (0 <= m)%Q -> (- m <= a <= m)%Q -> (0 <= h <= 1)%Q -> (0 <= e <= 1)%Q ->
  (Qabs (a * h * e) <= m)%Q.
Proof.
  intros M [A0 A1] [H0 H1] [E0 E1]. apply Qabs_Qle_condition.
  assert (HE0 : (0 <= h * e)%Q) by nra.
  assert (HE1 : (h * e <= 1)%Q) by nra.
  setoid_replace (a * h * e)%Q with (a * (h * e))%Q by ring.
  set (k := (h * e)%Q) in *. clearbody k.
  split; nra.
Qed.

Lemma ratio_within (a t : float) :
  (0 < t)%Q -> (Qabs a <= t)%Q -> (-1 <= a / t <= 1)%Q.
Proof.
  intros T A. apply Qabs_Qle_condition in A. destruct A as [A0 A1].
  assert (E : (a / t * t == a)%Q) by (field; lra).
  set (r := (a / t)%Q) in *. clearbody r.
  split; nra.
Qed.

(** X26.  The velocity stage respects the speed limit.  Let the square root
    dominate each component ([|a|] and [|b|] are at most
    [sqrtf (a*a + b*b)]), the waypoint speed be positive and the expo setting
    lie in [0, 1].  Then each component of the desired horizontal velocity
    that the stage stores is at most the waypoint speed in magnitude. *)
Theorem commanded_velocity_within_max_speed (q : navQueries_t) (x x' : xy_t) :
  (forall a b : float,
     (Qabs a <= sqrtf (sq a + sq b))%Q /\ (Qabs b <= sqrtf (sq a + sq b))%Q) ->
  (0 < getActiveWaypointSpeed q)%Q ->
  (0 <= posResponseExpo x <= 1)%Q ->
  updatePositionVelocityController_MC q x = Some x' ->
  (Qabs (desired_vel_X (desiredXY x')) <= getActiveWaypointSpeed q)%Q /\
  (Qabs (desired_vel_Y (desiredXY x')) <= getActiveWaypointSpeed q)%Q.
Proof.
  intros R M X. unfold updatePositionVelocityController_MC. cbv zeta.
  set (kx := ((desired_pos_X (desiredXY x) - actual_pos_X (actualXY x))
              * param_kP _ (pids_pos_X x))%Q).
  set (ky := ((desired_pos_Y (desiredXY x) - actual_pos_Y (actualXY x))
              * param_kP _ (pids_pos_Y x))%Q).
  destruct (R kx ky) as [RX RY].
  set (T := sqrtf (sq kx + sq ky)) in *. clearbody T.
  pose proof (heading_factor_range q x) as [H0 H1].
  assert (H : (0 <= getVelocityHeadingAttenuationFactor q x <= 1)%Q) by (split; lra).
  assert (NM : ~ (getActiveWaypointSpeed q == 0)%Q) by lra.
  destruct (Qlt_bool (getActiveWaypointSpeed q) T) eqn:L.
  - apply Qlt_bool_true in L.
    assert (PT : (0 < T)%Q) by lra.
    assert (NT : ~ (T == 0)%Q) by lra.
    rewrite !(Pid.fdiv_nonzero _ T NT). cbn [obind].
    destruct (getVelocityExpoAttenuationFactor x _ _) as [f|] eqn:F; [|discriminate].
    cbn [obind]. intros E. injection E as <-. xy_simpl.
    pose proof (expo_factor_range x _ _ f X F) as [F0 F1].
    assert (FF : (0 <= f <= 1)%Q) by (split; lra).
    pose proof (ratio_within kx T PT RX) as [X0 X1].
    pose proof (ratio_within ky T PT RY) as [Y0 Y1].
    split; apply scaled_within; try assumption; try lra.
    + set (r := (kx / T)%Q) in *. clearbody r. split; nra.
    + set (r := (ky / T)%Q) in *. clearbody r. split; nra.
  - apply Qlt_bool_false in L. cbn [obind].
    destruct (getVelocityExpoAttenuationFactor x _ _) as [f|] eqn:F; [|discriminate].
    cbn [obind]. intros E. injection E as <-. xy_simpl.
    pose proof (expo_factor_range x _ _ f X F) as [F0 F1].
    assert (FF : (0 <= f <= 1)%Q) by (split; lra).
    apply Qabs_Qle_condition in RX. apply Qabs_Qle_condition in RY.
    split; apply scaled_within; try assumption; try lra.
Qed.

(** ** Heading and the dispatcher *)

(** X27.  With the yaw stick outside the dead band the pilot takes over the
    heading: [adjustMulticopterHeadingFromRCInput] reports an adjustment and
    moves the desired heading to the current one, so that the heading
    controller then hands mag hold the current heading in whole degrees;
    for a current heading from 0 to 35999 centi-degrees that is a target from
    0 to 359 degrees. *)
Theorem yaw_stick_retargets_heading (cfg : configXY_t) (rcYaw : Z) (n : nav_t) :
  0 <= actual_yaw (actualXY (xy n)) < 36000 ->
  pos_hold_deadband cfg < ABS rcYaw ->
  let r := adjustMulticopterHeadingFromRCInput cfg rcYaw (xy n) in
  let n' := applyMulticopterHeadingController (set_xy n (snd r)) in
  fst r = true /\
  magHoldTargetHeading n' = actual_yaw (actualXY (xy n)) / 100 /\
  0 <= magHoldTargetHeading n' <= 359 /\
  n' = set_xy (resetMulticopterHeadingController n) (snd r).
Proof.
  intros Y D r n'. subst r n'. unfold adjustMulticopterHeadingFromRCInput.
  apply Z.ltb_lt in D. rewrite D. cbn [fst snd].
  unfold applyMulticopterHeadingController, resetMulticopterHeadingController,
    updateMagHoldHeading, CENTIDEGREES_TO_DEGREES.
  xy_simpl.
  assert (Q : Z.quot (actual_yaw (actualXY (xy n))) 100 = actual_yaw (actualXY (xy n)) / 100)
    by (apply Z.quot_div_nonneg; lia).
  assert (B : 0 <= actual_yaw (actualXY (xy n)) / 100 <= 359).
  { split.
    - apply Z.div_pos; lia.
    - apply Z.lt_succ_r. apply Z.div_lt_upper_bound; lia. }
  rewrite Q.
  rewrite (to_int16_id (actual_yaw (actualXY (xy n)) / 100)) by lia.
  repeat split; lia.
Qed.

(** The stick commands other than the throttle. *)
Definition sticks (a : altState_t) : Z * Z * Z :=
  (rcCommand_ROLL _ a, rcCommand_PITCH _ a, rcCommand_YAW _ a).

Lemma sticks_reset (a : altState_t) :
  sticks (resetMulticopterAltitudeController _ filterResetPt1 a) = sticks a.
Proof.
  unfold resetMulticopterAltitudeController.
  cbn [set_altholdThrottleFilterState prepareForTakeoffOnReset].
  destruct (prepareForTakeoffOnReset _ a); reflexivity.
Qed.

Lemma sticks_throttle (cfg : config_t) (deltaMicros : Z) (a : altState_t) :
  sticks (updateAltitudeThrottleController_MC _ filterApplyPt1
            NAV_THROTTLE_CUTOFF_FREQENCY_HZ navPidApply2 cfg deltaMicros a) = sticks a.
Proof.
  unfold updateAltitudeThrottleController_MC.
  destruct (navPidApply2 _ _ _ _ _ _ _) as [out pid].
  destruct (filterApplyPt1 _ _ _ _) as [filtered f].
  reflexivity.
Qed.

Lemma sticks_altitude (cfg : config_t) (currentTime : Z) (a : altState_t) :
  sticks (applyMulticopterAltitudeController _ filterApplyPt1 filterResetPt1
            MIN_POSITION_UPDATE_RATE_HZ NAV_THROTTLE_CUTOFF_FREQENCY_HZ navPidApply2
            updateAltitudeTargetFromClimbRate cfg currentTime a) = sticks a.
Proof.
  unfold applyMulticopterAltitudeController. cbv zeta.
  destruct (_ <? _).
  - rewrite sticks_reset. reflexivity.
  - destruct (verticalPositionDataNew _); [|reflexivity].
    destruct (_ <? _).
    + change (sticks (updateAltitudeThrottleController_MC _ filterApplyPt1
                NAV_THROTTLE_CUTOFF_FREQENCY_HZ navPidApply2 cfg
                (to_uint32 (currentTime - alt_previousTimePositionUpdate _ a))
                (set_posControl _
                   (set_alt_times _ (set_alt_times _ a (alt_previousTimePositionUpdate _ a)
                                       currentTime) currentTime currentTime)
                   (updateAltitudeVelocityController_MC _
                      (to_uint32 (currentTime - alt_previousTimePositionUpdate _ a))
                      (updateSurfaceTrackingAltitudeSetpoint _ navPidApply2
                         updateAltitudeTargetFromClimbRate
                         (to_uint32 (currentTime - alt_previousTimePositionUpdate _ a))
                         (posControl _ a))))) = sticks a).
      rewrite sticks_throttle. reflexivity.
    + change (sticks (resetMulticopterAltitudeController _ filterResetPt1
                (set_alt_times _ (set_alt_times _ a (alt_previousTimePositionUpdate _ a)
                                    currentTime) currentTime currentTime)) = sticks a).
      rewrite sticks_reset. reflexivity.
Qed.

Lemma applyPosition_frame (cfg : configXY_t) (q : navQueries_t) (currentTime : Z)
    (n n' : nav_t) :
  applyMulticopterPositionController cfg q currentTime n = Some n' ->
  magHoldTargetHeading n' = magHoldTargetHeading n /\
  (alt n' = alt n \/
   exists roll pitch : Z,
     alt n' = set_rcCommand_sticks _ (alt n) roll pitch (rcCommand_YAW _ (alt n))).
Proof.
  intros E.
  destruct (positionTickIsStale currentTime (xy n)) eqn:S.
  { rewrite (applyPosition_stale cfg q currentTime n S) in E.
    injection E as <-. split; [reflexivity | left; reflexivity]. }
  destruct (hasValidPositionSensor (flagsXY (xy n))) eqn:V.
  2: { rewrite (applyPosition_no_sensor cfg q currentTime n S V) in E.
       injection E as <-. split; [reflexivity | left; reflexivity]. }
  destruct (horizontalPositionDataNew (flagsXY (xy n))) eqn:D.
  2: { rewrite (applyPosition_no_data cfg q currentTime n S V D) in E.
       cbv zeta in E. injection E as <-. split; [reflexivity|].
       cbn [alt]. destruct (bypassesPositionController cfg (xy n));
         [left; reflexivity | right; eexists; eexists; reflexivity]. }
  destruct (bypassesPositionController cfg (xy n)) eqn:B.
  { rewrite (applyPosition_bypassed cfg q currentTime n S V D B) in E.
    injection E as <-. split; [reflexivity | left; reflexivity]. }
  destruct (positionUpdateIsTimely currentTime (xy n)) eqn:T.
  2: { rewrite (applyPosition_late cfg q currentTime n S V D B T) in E.
       cbv zeta in E. injection E as <-.
       split; [reflexivity | right; eexists; eexists; reflexivity]. }
  rewrite (applyPosition_timely cfg q currentTime n S V D B T) in E.
  destruct (updatePositionVelocityController_MC q _) as [v|]; [|discriminate E].
  cbn [obind] in E. cbv zeta in E. injection E as <-.
  split; [reflexivity | right; eexists; eexists; reflexivity].
Qed.

Lemma sticks_YAW (a b : altState_t) :
  sticks a = sticks b -> rcCommand_YAW _ a = rcCommand_YAW _ b.
Proof. unfold sticks. intros H. injection H as _ _ H. exact H. Qed.

Lemma sticks_ROLL_PITCH (a b : altState_t) :
  sticks a = sticks b ->
  rcCommand_ROLL _ a = rcCommand_ROLL _ b /\ rcCommand_PITCH _ a = rcCommand_PITCH _ b.
Proof. unfold sticks. intros H. injection H as H1 H2 _. split; assumption. Qed.

(** X28.  Outside an emergency the dispatcher confines each controller to
    its own outputs.  No call writes [rcCommand[YAW]].  Without [NAV_CTL_ALT]
    the throttle command and the state of the altitude controller are left as
    they were; without [NAV_CTL_POS] the roll and pitch commands and the state
    of the position controller; without [NAV_CTL_YAW] the mag-hold target. *)
Theorem dispatcher_confines_controllers (cfg : configXY_t) (q : navQueries_t)
    (navStateFlags : navStateFlags_t) (currentTime : Z) (n n' : nav_t) :
  NAV_CTL_EMERG navStateFlags = false ->
  applyMulticopterNavigationController cfg q navStateFlags currentTime n = Some n' ->
  rcCommand_YAW _ (alt n') = rcCommand_YAW _ (alt n) /\
  (NAV_CTL_ALT navStateFlags = false ->
   rcCommand_THROTTLE _ (alt n') = rcCommand_THROTTLE _ (alt n) /\
   posControl _ (alt n') = posControl _ (alt n)) /\
  (NAV_CTL_POS navStateFlags = false ->
   rcCommand_ROLL _ (alt n') = rcCommand_ROLL _ (alt n) /\
   rcCommand_PITCH _ (alt n') = rcCommand_PITCH _ (alt n) /\
   xy n' = xy n) /\
  (NAV_CTL_YAW navStateFlags = false ->
   magHoldTargetHeading n' = magHoldTargetHeading n).
Proof.
  intros EM. unfold applyMulticopterNavigationController. rewrite EM.
  set (m := if NAV_CTL_ALT navStateFlags then _ else n).
  assert (MS : sticks (alt m) = sticks (alt n)).
  { subst m. destruct (NAV_CTL_ALT navStateFlags); [|reflexivity].
    cbn [alt set_alt]. apply sticks_altitude. }
  assert (MX : xy m = xy n /\ magHoldTargetHeading m = magHoldTargetHeading n).
  { subst m. destruct (NAV_CTL_ALT navStateFlags); split; reflexivity. }
  assert (MA : NAV_CTL_ALT navStateFlags = false -> m = n).
  { intros A. subst m. rewrite A. reflexivity. }
  clearbody m. destruct MX as [MX MH].
  set (p := if NAV_CTL_POS navStateFlags then _ else Some m).
  destruct p as [k|] eqn:P; [|discriminate]. cbn [obind].
  assert (KF : magHoldTargetHeading k = magHoldTargetHeading m /\
               (alt k = alt m \/
                exists roll pitch : Z,
                  alt k = set_rcCommand_sticks _ (alt m) roll pitch
                            (rcCommand_YAW _ (alt m)))).
  { subst p. destruct (NAV_CTL_POS navStateFlags).
    - apply (applyPosition_frame cfg q currentTime m k P).
    - injection P as <-. split; [reflexivity | left; reflexivity]. }
  assert (KP : NAV_CTL_POS navStateFlags = false -> k = m).
  { intros A. subst p. rewrite A in P. injection P as <-. reflexivity. }
  clear P. clearbody p. destruct KF as [KH KA].
  intros E. injection E as <-.
  assert (HA : alt (if NAV_CTL_YAW navStateFlags
                    then applyMulticopterHeadingController k else k) = alt k)
    by (destruct (NAV_CTL_YAW navStateFlags); reflexivity).
  assert (HX : xy (if NAV_CTL_YAW navStateFlags
                   then applyMulticopterHeadingController k else k) = xy k)
    by (destruct (NAV_CTL_YAW navStateFlags); reflexivity).
  rewrite HA, HX.
  assert (KY : rcCommand_YAW _ (alt k) = rcCommand_YAW _ (alt m)).
  { destruct KA as [-> | (r & p' & ->)]; reflexivity. }
  assert (KT : rcCommand_THROTTLE _ (alt k) = rcCommand_THROTTLE _ (alt m) /\
               posControl _ (alt k) = posControl _ (alt m)).
  { destruct KA as [-> | (r & p' & ->)]; split; reflexivity. }
  split; [rewrite KY; apply sticks_YAW; exact MS|].
  split; [intros A; rewrite (MA A) in KT; exact KT|].
  split.
  - intros A. rewrite (KP A).
    destruct (sticks_ROLL_PITCH _ _ MS) as [R1 R2]. repeat split; assumption.
  - intros A. rewrite A. congruence.
Qed.

End Controller.

(** ** A concrete instance

    The filters, the PID step and the climb-rate helper are those of the
    altitude instance.  The square root is the integer root of the argument
    rounded up, the cosine its second-order expansion, the arc tangent the
    small-angle quotient; [wrap_18000] is the single wrap of
    [navigation_rewrite.c].  The acceleration filter runs at 2 Hz and the
    horizontal acceleration limit is 980 cm/s^2. *)

Definition sqrtUp (v : float) : float := inject_Z (Z.sqrt_up (Qceiling v)).

Definition cosSecondOrder (x : float) : float := (1 - x * x / 2)%Q.

Definition atan2SmallAngle (y x : float) : float := (y / x)%Q.

Definition wrapOnce_18000 (angle : Z) : Z :=
  let angle := if 18000 <? angle then angle - 36000 else angle in
  if angle <? -18000 then angle + 36000 else angle.

Definition centidegreesToRadians (angle : Z) : float :=
  (inject_Z angle / 100 * (31416 # 1800000))%Q.

Definition radiansToDecidegrees (angle : float) : float :=
  (angle * 10 * (1800000 # 31416))%Q.

Definition applyPosition :
    configXY_t -> navQueries_t -> Z -> nav_t float -> option (nav_t float) :=
  applyMulticopterPositionController float holdPt1 resetPt1 5 proportionalPid 2 980
    sqrtUp cosSecondOrder atan2SmallAngle wrapOnce_18000 centidegreesToRadians
    radiansToDecidegrees.

Definition applyNavigation :
    configXY_t -> navQueries_t -> navStateFlags_t -> Z -> nav_t float ->
    option (nav_t float) :=
  applyMulticopterNavigationController float holdPt1 resetPt1 5 4 proportionalPid
    climbTarget 2 980 sqrtUp cosSecondOrder atan2SmallAngle wrapOnce_18000
    centidegreesToRadians radiansToDecidegrees.

Definition updateVelocity : navQueries_t -> xy_t float -> option (xy_t float) :=
  updatePositionVelocityController_MC float sqrtUp cosSecondOrder wrapOnce_18000
    centidegreesToRadians.

(** A bank-angle limit of 30 degrees, a stick dead band of 20. *)
Definition sampleConfigXY : configXY_t :=
  {| altConfig := sampleConfig;
     navConfigXY := {| max_manual_speed := 500; mc_max_bank_angle := 30;
                       user_control_mode := NAV_GPS_ATTI |};
     pos_hold_deadband := 20 |}.

(** On the way to a waypoint at 3 m/s. *)
Definition sampleQueries : navQueries_t :=
  {| inAutoWaypoint := true; getActiveWaypointSpeed := 300 |}.

(** A craft at rest, heading east, 30 cm south and 40 cm west of its
    target, leaning 10 degrees to the right and 6 degrees nose up; the last
    position update at time 0 and the last call at [lastCall]. *)
Definition sampleXY (validPosition newData adjusting : bool) (lastCall : Z) : xy_t float :=
  {| flagsXY := {| hasValidPositionSensor := validPosition;
                   horizontalPositionDataNew := newData;
                   horizontalPositionDataConsumed := false;
                   isAdjustingPosition := adjusting |};
     actualXY := {| actual_pos_X := 0; actual_pos_Y := 0;
                    actual_vel_X := 0; actual_vel_Y := 0;
                    actual_yaw := 9000; sinYaw := 1; cosYaw := 0 |};
     desiredXY := {| desired_pos_X := 30; desired_pos_Y := 40;
                     desired_vel_X := 0; desired_vel_Y := 0; desired_yaw := 8000 |};
     pids_pos_X := samplePid 1 0; pids_pos_Y := samplePid 1 0;
     pids_vel_X := samplePid 2 11; pids_vel_Y := samplePid 2 13;
     rcAdjustment_ROLL := 100; rcAdjustment_PITCH := -60;
     posResponseExpo := (1 # 10)%Q; posDecelerationTime := 1%Q;
     staticsXY := {| mcPosControllerAccFilterStateX := 0%Q;
                     mcPosControllerAccFilterStateY := 0%Q;
                     lastAccelTargetX := 0; lastAccelTargetY := 0;
                     pos_previousTimePositionUpdate := 0;
                     pos_previousTimeUpdate := lastCall |} |}.

Definition sampleNav (validPosition newData adjusting : bool) (lastCall : Z) : nav_t float :=
  {| alt := sampleState true false false 80;
     xy := sampleXY validPosition newData adjusting lastCall;
     magHoldTargetHeading := 45 |}.

Lemma sampleConfigXY_bank : is_uint8 (mc_max_bank_angle (navConfigXY sampleConfigXY)).
Proof. vm_compute. split; discriminate. Defined.

Lemma sampleXY_withinBankLimit (v d a : bool) (t : Z) :
  withinBankLimit float sampleConfigXY (sampleXY v d a t).
Proof. vm_compute. repeat split; discriminate. Defined.

Lemma sqrtUp_dominates (a b : float) :
  (Qabs a <= sqrtUp (sq a + sq b))%Q /\ (Qabs b <= sqrtUp (sq a + sq b))%Q.
Proof.
  unfold sqrtUp, sq.
  pose proof (Qle_ceiling (a * a + b * b)) as C.
  set (c := Qceiling (a * a + b * b)) in *.
  pose proof (Z.sqrt_up_nonneg c) as S0.
  assert (S2 : c <= Z.sqrt_up c * Z.sqrt_up c).
  { destruct (Z_lt_le_dec 0 c) as [P | N].
    - pose proof (Z.sqrt_up_spec c P) as [_ H]. exact H.
    - nia. }
  set (s := Z.sqrt_up c) in *. clearbody s c.
  assert (Q0 : (0 <= inject_Z s)%Q) by (change 0%Q with (inject_Z 0); rewrite <- Zle_Qle; lia).
  assert (Q2 : (inject_Z c <= inject_Z s * inject_Z s)%Q)
    by (rewrite <- inject_Z_mult, <- Zle_Qle; exact S2).
  set (r := inject_Z s) in *. clearbody r.
  split; apply Qabs_Qle_condition; split; nra.
Qed.

(** ** The theorems at concrete inputs *)

(** New position data 10 ms after the previous call, the controller in
    command. *)
Lemma bank_angle_limit_kept_witness :
  exists n' : nav_t float,
    applyPosition sampleConfigXY sampleQueries 10000 (sampleNav true true false 0) = Some n' /\
    withinBankLimit float sampleConfigXY (xy float n').
Proof.
  destruct (applyPosition sampleConfigXY sampleQueries 10000 (sampleNav true true false 0))
    as [n'|] eqn:E; [|vm_compute in E; discriminate E].
  exists n'. split; [reflexivity|].
  exact (bank_angle_limit_kept float holdPt1 resetPt1 5 proportionalPid 2 980
           sqrtUp cosSecondOrder atan2SmallAngle wrapOnce_18000 centidegreesToRadians
           radiansToDecidegrees sampleConfigXY sampleQueries 10000
           (sampleNav true true false 0) n' sampleConfigXY_bank
           (sampleXY_withinBankLimit true true false 0) E).
Defined.

(** No new position data: the sticks follow the lean-angle commands of 100
    and -60 deci-degrees. *)
Lemma position_controller_commands_half_bank_witness :
  exists n' : nav_t float,
    applyPosition sampleConfigXY sampleQueries 10000 (sampleNav true false false 0) = Some n' /\
    rcCommand_ROLL _ (alt float n') = 50 /\ rcCommand_PITCH _ (alt float n') = -30.
Proof.
  destruct (applyPosition sampleConfigXY sampleQueries 10000 (sampleNav true false false 0))
    as [n'|] eqn:E; [|vm_compute in E; discriminate E].
  exists n'. split; [reflexivity|].
  destruct (position_controller_commands_half_bank float holdPt1 resetPt1 5 proportionalPid
              2 980 sqrtUp cosSecondOrder atan2SmallAngle wrapOnce_18000
              centidegreesToRadians radiansToDecidegrees sampleConfigXY sampleQueries 10000
              (sampleNav true false false 0) n' sampleConfigXY_bank
              (sampleXY_withinBankLimit true false false 0) eq_refl eq_refl eq_refl E)
    as [[R P] _].
  rewrite R, P. vm_compute in E. injection E as <-. split; reflexivity.
Defined.

(** The position sensor lost. *)
Lemma position_controller_passes_sticks_through_witness :
  exists n' : nav_t float,
    applyPosition sampleConfigXY sampleQueries 10000 (sampleNav false true false 0) = Some n' /\
    alt float n' = alt float (sampleNav false true false 0) /\
    rcAdjustment_ROLL float (xy float n') = 0.
Proof.
  destruct (position_controller_passes_sticks_through float holdPt1 resetPt1 5
              proportionalPid 2 980 sqrtUp cosSecondOrder atan2SmallAngle wrapOnce_18000
              centidegreesToRadians radiansToDecidegrees sampleConfigXY sampleQueries 10000
              (sampleNav false true false 0) (or_intror (or_introl eq_refl)))
    as (n' & E & A & _ & Z0).
  exists n'. split; [exact E|]. split; [exact A|].
  destruct (Z0 eq_refl eq_refl) as [R _]. exact R.
Defined.

(** The previous call half a second ago. *)
Lemma stale_position_tick_resets_witness :
  positionTickIsStale float 5 500000 (sampleXY true true false 0) = true /\
  exists n' : nav_t float,
    applyPosition sampleConfigXY sampleQueries 500000 (sampleNav true true false 0) = Some n' /\
    rcAdjustment_ROLL float (xy float n') = 0 /\
    pos_previousTimeUpdate float (staticsXY float (xy float n')) = 500000.
Proof.
  split; [reflexivity|].
  destruct (stale_position_tick_resets float holdPt1 resetPt1 5 proportionalPid 2 980
              sqrtUp cosSecondOrder atan2SmallAngle wrapOnce_18000 centidegreesToRadians
              radiansToDecidegrees sampleConfigXY sampleQueries 500000
              (sampleNav true true false 0) eq_refl)
    as (n' & E & _ & _ & R & _ & _ & _ & _ & _ & T & _).
  exists n'. split; [exact E|]. split; [exact R | exact T].
Defined.

(** The previous call 10 ms ago, the previous position update half a
    second ago. *)
Lemma late_horizontal_update_levels_craft_witness :
  positionUpdateIsTimely float 5 500000 (sampleXY true true false 490000) = false /\
  exists n' : nav_t float,
    applyPosition sampleConfigXY sampleQueries 500000 (sampleNav true true false 490000)
      = Some n' /\
    rcCommand_ROLL _ (alt float n') = 0 /\ rcCommand_PITCH _ (alt float n') = 0.
Proof.
  split; [reflexivity|].
  destruct (late_horizontal_update_levels_craft float holdPt1 resetPt1 5 proportionalPid
              2 980 sqrtUp cosSecondOrder atan2SmallAngle wrapOnce_18000
              centidegreesToRadians radiansToDecidegrees sampleConfigXY sampleQueries 500000
              (sampleNav true true false 490000) eq_refl eq_refl eq_refl eq_refl eq_refl)
    as (n' & E & _ & _ & R & P & _).
  exists n'. split; [exact E|]. split; [exact R | exact P].
Defined.

(** A target 50 cm away at a gain of 1: well below the 3 m/s limit. *)
Lemma commanded_velocity_within_max_speed_witness :
  exists x' : xy_t float,
    updateVelocity sampleQueries (sampleXY true true false 0) = Some x' /\
    (Qabs (desired_vel_X (desiredXY float x')) <= 300)%Q /\
    (Qabs (desired_vel_Y (desiredXY float x')) <= 300)%Q.
Proof.
  destruct (updateVelocity sampleQueries (sampleXY true true false 0)) as [x'|] eqn:E;
    [|vm_compute in E; discriminate E].
  exists x'. split; [reflexivity|].
  apply (commanded_velocity_within_max_speed float sqrtUp cosSecondOrder wrapOnce_18000
           centidegreesToRadians sampleQueries (sampleXY true true false 0) x'
           sqrtUp_dominates).
  - reflexivity.
  - split; discriminate.
  - exact E.
Defined.

(** A yaw stick of 100 against a dead band of 20, the craft heading east. *)
Lemma yaw_stick_retargets_heading_witness :
  magHoldTargetHeading float
    (applyMulticopterHeadingController float
       (set_xy float (sampleNav true true false 0)
          (snd (adjustMulticopterHeadingFromRCInput float sampleConfigXY 100
                  (sampleXY true true false 0))))) = 90.
Proof.
  assert (Y : 0 <= actual_yaw (actualXY float (xy float (sampleNav true true false 0))) < 36000)
    by (vm_compute; split; [discriminate | reflexivity]).
  assert (D : pos_hold_deadband sampleConfigXY < ABS 100) by reflexivity.
  destruct (yaw_stick_retargets_heading float sampleConfigXY 100
              (sampleNav true true false 0) Y D) as (_ & H & _).
  exact (eq_trans H eq_refl).
Defined.

(** Position and heading control without altitude control. *)
Lemma dispatcher_confines_controllers_witness :
  exists n' : nav_t float,
    applyNavigation sampleConfigXY sampleQueries
      {| NAV_CTL_ALT := false; NAV_CTL_POS := true; NAV_CTL_YAW := true;
         NAV_CTL_EMERG := false |} 10000 (sampleNav true true false 0) = Some n' /\
    rcCommand_YAW _ (alt float n') = 0 /\
    rcCommand_THROTTLE _ (alt float n') = 1400.
Proof.
  destruct (applyNavigation sampleConfigXY sampleQueries
              {| NAV_CTL_ALT := false; NAV_CTL_POS := true; NAV_CTL_YAW := true;
                 NAV_CTL_EMERG := false |} 10000 (sampleNav true true false 0))
    as [n'|] eqn:E; [|vm_compute in E; discriminate E].
  exists n'. split; [reflexivity|].
  destruct (dispatcher_confines_controllers float holdPt1 resetPt1 5 4 proportionalPid
              climbTarget 2 980 sqrtUp cosSecondOrder atan2SmallAngle wrapOnce_18000
              centidegreesToRadians radiansToDecidegrees sampleConfigXY sampleQueries
              {| NAV_CTL_ALT := false; NAV_CTL_POS := true; NAV_CTL_YAW := true;
                 NAV_CTL_EMERG := false |}
              10000 (sampleNav true true false 0) n' eq_refl E) as (Y & T & _).
  destruct (T eq_refl) as [T1 _]. rewrite Y, T1. split; reflexivity.
Defined.

End NavXY.

